(** * otel-front: OTLP transformers, repository layer and query handlers

    A shallow embedding of the Go sources of the OTLP viewer
    (internal/exporter, internal/store, internal/server/handlers and the
    OTLP receiver) together with the properties that the design document
    states about them.

    Conventions.
    - Go integers are [Z] with the wrap-around of their width written out.
    - [time.Time] is the number of nanoseconds since the Unix epoch.
    - [float64] values are represented by the rational number they denote;
      NaN and the infinities are not represented.
    - A Go [map[string]interface{}] is a reference into a heap of maps; the
      nil map is the reference [None].  Maps nested inside attribute values
      are never written after they are built, so they are carried as
      immutable values.
    - The embedded database is a record of tables; SQL statements are small
      syntax trees built by the Go functions and executed by [engine.exec]
      and the [sql] functions. *)

From Stdlib Require Import ZArith QArith Qround Ascii.
From Stdlib.Strings Require Import Byte.
From stdpp Require Import gmap strings list fin_maps sorting pretty.

Set Warnings "-register-all".

Local Open Scope Z_scope.

(* ===================================================================== *)
(** * Go primitives *)
(* ===================================================================== *)

Module Go.

(** [int64(x)]: reinterpret an integer in 64-bit two's complement. *)
Definition int64 (x : Z) : Z := (x + 2^63) `mod` 2^64 - 2^63.

(** Arithmetic on [uint64] wraps modulo 2^64. *)
Definition uint64 (x : Z) : Z := x `mod` 2^64.

Definition MaxInt64 : Z := 2^63 - 1.
Definition MinInt64 : Z := - 2^63.

(** [time.Time], in nanoseconds since 1970-01-01T00:00:00Z. *)
Definition Time := Z.

(** [time.Unix(sec, nsec)]. *)
Definition Unix (sec nsec : Z) : Time := sec * 1000000000 + nsec.

(** The zero [time.Time] is January 1, year 1, 00:00:00 UTC. *)
Definition zeroTime : Time := -62135596800 * 1000000000.
Definition IsZero (t : Time) : bool := bool_decide (t = zeroTime).

Definition Before (t u : Time) : bool := bool_decide (t < u).
Definition After (t u : Time) : bool := bool_decide (u < t).

(** [t.Sub(u)]: a [time.Duration] (int64 nanoseconds), saturating. *)
Definition Sub (t u : Time) : Z :=
  if bool_decide (MaxInt64 < t - u) then MaxInt64
  else if bool_decide (t - u < MinInt64) then MinInt64
  else t - u.

(** [d.Milliseconds()]: integer division truncating toward zero. *)
Definition Milliseconds (d : Z) : Z := d `quot` 1000000.

(** [t.UnixMicro()], the precision at which the database keeps times. *)
Definition UnixMicro (t : Time) : Z := t `div` 1000.

(** [hex.EncodeToString] / [fmt.Sprintf("%x", bytes)]. *)
Definition hexdigit (n : N) : ascii :=
  match n with
  | 0 => "0" | 1 => "1" | 2 => "2" | 3 => "3" | 4 => "4" | 5 => "5"
  | 6 => "6" | 7 => "7" | 8 => "8" | 9 => "9" | 10 => "a" | 11 => "b"
  | 12 => "c" | 13 => "d" | 14 => "e" | _ => "f"
  end%N%char.

Fixpoint EncodeToString (bs : list byte) : string :=
  match bs with
  | [] => EmptyString
  | b :: bs' =>
      let n := Byte.to_N b in
      String (hexdigit (n / 16)%N)
        (String (hexdigit (n mod 16)%N) (EncodeToString bs'))
  end.

End Go.

(* ===================================================================== *)
(** * Dynamic values and the heap of attribute maps *)
(* ===================================================================== *)

(** The dynamic values stored under [interface{}] by the transformers. *)
Inductive Val : Type :=
  | VNil
  | VStr (s : string)
  | VInt (n : Z)
  | VDouble (q : Q)
  | VBool (b : bool)
  | VMap (m : option (gmap string Val))
  | VSlice (l : list Val).

Abbreviation Heap := (gmap positive (gmap string Val)) (only parsing).

(** A [map[string]interface{}] variable: [None] is the nil map. *)
Abbreviation mapref := (option positive) (only parsing).

(** Result of running a piece of Go code on a heap. *)
Inductive Outcome (A : Type) : Type :=
  | Ok (a : A) (h : Heap)
  | Panic (msg : string).
Arguments Ok {A} a h.
Arguments Panic {A} msg.

Definition M (A : Type) : Type := Heap → Outcome A.

#[export] Instance M_ret : MRet M := λ A a h, Ok a h.
#[export] Instance M_bind : MBind M := λ A B f m h,
  match m h with
  | Ok a h' => f a h'
  | Panic msg => Panic msg
  end.

Definition nil_map_write : string := "assignment to entry in nil map".

(** The entries of the map a reference denotes; the nil map has none. *)
Definition deref (h : Heap) (r : mapref) : gmap string Val :=
  match r with
  | Some l => default ∅ (h !! l)
  | None => ∅
  end.

(** [make(map[string]interface{})], optionally filled by a literal. *)
Definition make_map (init : gmap string Val) : M mapref := λ h,
  let l := fresh (dom h) in Ok (Some l) (<[l := init]> h).

(** [m[k] = v]; writing through the nil map panics. *)
Definition map_store (r : mapref) (k : string) (v : Val) : M unit := λ h,
  match r with
  | None => Panic nil_map_write
  | Some l => Ok tt (<[l := <[k := v]> (default ∅ (h !! l))]> h)
  end.

(** [for k, v := range m]: the entries, in some order. *)
Definition map_range (r : mapref) : M (list (string * Val)) := λ h,
  Ok (map_to_list (deref h r)) h.

(** The heap as it stands, for code that only reads the maps. *)
Definition get_heap : M Heap := λ h, Ok h h.

(** A [for] loop over a slice whose body has effects. *)
Fixpoint for_each {A} (xs : list A) (body : A → M unit) : M unit :=
  match xs with
  | [] => mret tt
  | x :: xs' => body x ≫= λ _, for_each xs' body
  end.

(** A loop that appends the records produced for each element. *)
Fixpoint collect {A B} (xs : list A) (body : A → M (list B)) : M (list B) :=
  match xs with
  | [] => mret []
  | x :: xs' => r ← body x; rs ← collect xs' body; mret (r ++ rs)
  end.

(** [returns P m]: from every heap, [m] runs to completion without a panic
    and its result satisfies [P]. *)
Definition returns {A} (P : A → Prop) (m : M A) : Prop :=
  ∀ h, ∃ a h', m h = Ok a h' ∧ P a.

(** [allocates m]: [m] runs to completion and leaves every map that was on
    the heap as it was (it may add new ones). *)
Definition allocates {A} (m : M A) : Prop :=
  ∀ h : Heap, ∃ a (h' : Heap), m h = Ok a h' ∧ h ⊆ h'.

(* ===================================================================== *)
(** * internal/exporter: attribute helpers *)
(* ===================================================================== *)

(** mergeAttributes merges two attribute maps. *)
Definition mergeAttributes (m1 m2 : mapref) : M mapref :=
  result ← make_map ∅;
  kvs1 ← map_range m1;
  _ ← for_each kvs1 (λ kv, map_store result kv.1 kv.2);
  kvs2 ← map_range m2;
  _ ← for_each kvs2 (λ kv, map_store result kv.1 kv.2);
  mret result.

(** The map obtained by storing the entries [kvs], in order, into [b]. *)
Definition store_all (kvs : list (string * Val)) (b : gmap string Val)
  : gmap string Val :=
  foldl (λ m kv, <[kv.1 := kv.2]> m) b kvs.

(* ===================================================================== *)
(** * pdata: the OTLP payloads handed to the transformers *)
(* ===================================================================== *)

(** [pcommon.Value]: the typed attribute value union. *)
Inductive PValue : Type :=
  | PEmpty
  | PStr (s : string)
  | PInt (n : Z)
  | PDouble (q : Q)
  | PBool (b : bool)
  | PMap (kvs : list (string * PValue))
  | PSlice (vs : list PValue)
  | PBytes (bs : list byte).

(* A [pcommon.Map] is an ordered collection of key/value pairs,
   [list (string * PValue)]. *)

(** [pcommon.TraceID] / [pcommon.SpanID]: fixed-size byte arrays. *)
Definition ID_IsEmpty (id : list byte) : bool :=
  forallb (λ b, Byte.eqb b x00) id.

(** [ID.String()]: the hex encoding, or the empty string for the zero id. *)
Definition ID_String (id : list byte) : string :=
  if ID_IsEmpty id then EmptyString else Go.EncodeToString id.

Module ptrace.

Record SpanEvent := {
  EventName : string;
  EventTimestamp : Z;               (* uint64 nanoseconds *)
  EventAttributes : list (string * PValue);
}.

Record SpanLink := {
  LinkTraceID : list byte;
  LinkSpanID : list byte;
  LinkAttributes : list (string * PValue);
}.

Record Span := {
  TraceID : list byte;
  SpanID : list byte;
  ParentSpanID : list byte;
  Name : string;
  Kind : Z;                         (* ptrace.SpanKind *)
  StartTimestamp : Z;               (* uint64 nanoseconds *)
  EndTimestamp : Z;                 (* uint64 nanoseconds *)
  StatusCode : Z;                   (* ptrace.StatusCode *)
  StatusMessage : string;
  Attributes : list (string * PValue);
  Events : list SpanEvent;
  Links : list SpanLink;
}.

Record ResourceSpans := {
  ResourceAttributes : list (string * PValue);
  ScopeSpans : list (list Span);
}.

(** [ptrace.Traces]. *)
Definition Traces := list ResourceSpans.

Definition StatusCodeUnset : Z := 0.
Definition StatusCodeOk : Z := 1.
Definition StatusCodeError : Z := 2.

Definition SpanKindInternal : Z := 1.
Definition SpanKindServer : Z := 2.
Definition SpanKindClient : Z := 3.
Definition SpanKindProducer : Z := 4.
Definition SpanKindConsumer : Z := 5.

End ptrace.

(* ===================================================================== *)
(** * internal/store: the record types shared with the transformers *)
(* ===================================================================== *)

Module store.

Record SpanEvent := {
  EventName : string;
  EventTimestamp : Go.Time;
  EventAttributes : mapref;
}.

Record SpanLink := {
  LinkTraceID : string;
  LinkSpanID : string;
  LinkAttributes : mapref;
}.

Record Span := {
  SpanID : string;
  SpanTraceID : string;
  ParentSpanID : option string;
  SpanServiceName : string;
  SpanOperationName : string;
  SpanKind : string;
  SpanStartTime : Go.Time;
  SpanEndTime : Go.Time;
  SpanDurationMs : Z;
  SpanStatusCode : Z;
  StatusMessage : option string;
  SpanAttributes : mapref;
  Events : list SpanEvent;
  Links : list SpanLink;
}.

Record Trace := {
  TraceID : string;
  ServiceName : string;
  OperationName : string;
  StartTime : Go.Time;
  EndTime : Go.Time;
  DurationMs : Z;
  SpanCount : Z;
  ErrorCount : Z;
  StatusCode : Z;
  Attributes : mapref;
  Spans : list Span;
}.

Definition set_SpanCount (n : Z) (t : Trace) : Trace :=
  {| TraceID := TraceID t; ServiceName := ServiceName t;
     OperationName := OperationName t; StartTime := StartTime t;
     EndTime := EndTime t; DurationMs := DurationMs t; SpanCount := n;
     ErrorCount := ErrorCount t; StatusCode := StatusCode t;
     Attributes := Attributes t; Spans := Spans t |}.

Definition set_StartTime (x : Go.Time) (t : Trace) : Trace :=
  {| TraceID := TraceID t; ServiceName := ServiceName t;
     OperationName := OperationName t; StartTime := x;
     EndTime := EndTime t; DurationMs := DurationMs t;
     SpanCount := SpanCount t; ErrorCount := ErrorCount t;
     StatusCode := StatusCode t; Attributes := Attributes t;
     Spans := Spans t |}.

Definition set_EndTime (x : Go.Time) (t : Trace) : Trace :=
  {| TraceID := TraceID t; ServiceName := ServiceName t;
     OperationName := OperationName t; StartTime := StartTime t;
     EndTime := x; DurationMs := DurationMs t;
     SpanCount := SpanCount t; ErrorCount := ErrorCount t;
     StatusCode := StatusCode t; Attributes := Attributes t;
     Spans := Spans t |}.

Definition set_DurationMs (x : Z) (t : Trace) : Trace :=
  {| TraceID := TraceID t; ServiceName := ServiceName t;
     OperationName := OperationName t; StartTime := StartTime t;
     EndTime := EndTime t; DurationMs := x;
     SpanCount := SpanCount t; ErrorCount := ErrorCount t;
     StatusCode := StatusCode t; Attributes := Attributes t;
     Spans := Spans t |}.

Definition set_ErrorCount (x : Z) (t : Trace) : Trace :=
  {| TraceID := TraceID t; ServiceName := ServiceName t;
     OperationName := OperationName t; StartTime := StartTime t;
     EndTime := EndTime t; DurationMs := DurationMs t;
     SpanCount := SpanCount t; ErrorCount := x;
     StatusCode := StatusCode t; Attributes := Attributes t;
     Spans := Spans t |}.

Definition set_Spans (x : list Span) (t : Trace) : Trace :=
  {| TraceID := TraceID t; ServiceName := ServiceName t;
     OperationName := OperationName t; StartTime := StartTime t;
     EndTime := EndTime t; DurationMs := DurationMs t;
     SpanCount := SpanCount t; ErrorCount := ErrorCount t;
     StatusCode := StatusCode t; Attributes := Attributes t;
     Spans := x |}.

End store.

(* ===================================================================== *)
(** * internal/exporter: the trace transformer *)
(* ===================================================================== *)

(** valueToInterface converts OTLP value to Go interface.  The [PMap] case
    is the (nested, immutable) result of attributesToMap. *)
Fixpoint valueToInterface (v : PValue) : Val :=
  match v with
  | PStr s => VStr s
  | PInt n => VInt n
  | PDouble q => VDouble q
  | PBool b => VBool b
  | PMap kvs =>
      VMap (match kvs with
            | [] => None
            | _ => Some (foldl (λ m kv, <[kv.1 := valueToInterface kv.2]> m)
                           ∅ kvs)
            end)
  | PSlice vs => VSlice (map valueToInterface vs)
  | PBytes bs => VStr (Go.EncodeToString bs)
  | PEmpty => VNil
  end.

(** attributesToMap converts OTLP attributes to a map; an empty collection
    gives the nil map. *)
Definition attributesToMap (attrs : list (string * PValue)) : M mapref :=
  if bool_decide (length attrs = 0%nat) then mret None
  else
    result ← make_map ∅;
    _ ← for_each attrs (λ kv, map_store result kv.1 (valueToInterface kv.2));
    mret result.

(** spanKindToString converts span kind to string. *)
Definition spanKindToString (kind : Z) : string :=
  if bool_decide (kind = ptrace.SpanKindInternal) then "internal"
  else if bool_decide (kind = ptrace.SpanKindServer) then "server"
  else if bool_decide (kind = ptrace.SpanKindClient) then "client"
  else if bool_decide (kind = ptrace.SpanKindProducer) then "producer"
  else if bool_decide (kind = ptrace.SpanKindConsumer) then "consumer"
  else "unspecified".

(** extractServiceName extracts service name from resource attributes. *)
Definition extractServiceName (attrs : mapref) : M string := λ h,
  match deref h attrs !! "service.name" with
  | Some (VStr name) => Ok name h
  | _ => Ok "unknown" h
  end.

(** A loop that threads an accumulator through an effectful body. *)
Fixpoint foldM {S A} (body : S → A → M S) (s : S) (xs : list A) : M S :=
  match xs with
  | [] => mret s
  | x :: xs' => s' ← body s x; foldM body s' xs'
  end.

(** A loop that builds one result per element ([append] in the body). *)
Fixpoint mapM {A B} (body : A → M B) (xs : list A) : M (list B) :=
  match xs with
  | [] => mret []
  | x :: xs' => y ← body x; ys ← mapM body xs'; mret (y :: ys)
  end.

(** convertEvents converts OTLP events to internal event model. *)
Definition convertEvents (events : list ptrace.SpanEvent)
  : M (list store.SpanEvent) :=
  if bool_decide (length events = 0%nat) then mret []
  else
    mapM (λ event,
      attrs ← attributesToMap (ptrace.EventAttributes event);
      mret {| store.EventName := ptrace.EventName event;
              store.EventTimestamp :=
                Go.Unix 0 (Go.int64 (ptrace.EventTimestamp event));
              store.EventAttributes := attrs |}) events.

(** convertLinks converts OTLP links to internal link model. *)
Definition convertLinks (links : list ptrace.SpanLink)
  : M (list store.SpanLink) :=
  if bool_decide (length links = 0%nat) then mret []
  else
    mapM (λ link,
      attrs ← attributesToMap (ptrace.LinkAttributes link);
      mret {| store.LinkTraceID := ID_String (ptrace.LinkTraceID link);
              store.LinkSpanID := ID_String (ptrace.LinkSpanID link);
              store.LinkAttributes := attrs |}) links.

(** The [store.Span] built from one OTLP span ("Convert span"). *)
Definition convertSpan (serviceName : string) (span : ptrace.Span)
  : M store.Span :=
  attrs ← attributesToMap (ptrace.Attributes span);
  events ← convertEvents (ptrace.Events span);
  links ← convertLinks (ptrace.Links span);
  mret
    {| store.SpanID := ID_String (ptrace.SpanID span);
       store.SpanTraceID := ID_String (ptrace.TraceID span);
       store.ParentSpanID :=
         if negb (ID_IsEmpty (ptrace.ParentSpanID span))
         then Some (ID_String (ptrace.ParentSpanID span)) else None;
       store.SpanServiceName := serviceName;
       store.SpanOperationName := ptrace.Name span;
       store.SpanKind := spanKindToString (ptrace.Kind span);
       store.SpanStartTime := Go.Unix 0 (Go.int64 (ptrace.StartTimestamp span));
       store.SpanEndTime := Go.Unix 0 (Go.int64 (ptrace.EndTimestamp span));
       store.SpanDurationMs :=
         Go.int64 (Go.uint64 (ptrace.EndTimestamp span
                              - ptrace.StartTimestamp span)) `quot` 1000000;
       store.SpanStatusCode := ptrace.StatusCode span;
       store.StatusMessage :=
         if bool_decide (ptrace.StatusMessage span ≠ EmptyString)
         then Some (ptrace.StatusMessage span) else None;
       store.SpanAttributes := attrs;
       store.Events := events;
       store.Links := links |}.

(** The two working maps of TransformTraces, keyed by trace id. *)
Record TraceAcc := {
  traces : gmap string store.Trace;
  allSpans : gmap string (list store.Span);
}.

(** "Update trace timing and counts": the [else] branch of the loop body. *)
Definition updateTrace (convertedSpan : store.Span) (trace : store.Trace)
  : store.Trace :=
  let trace := store.set_SpanCount (store.SpanCount trace + 1) trace in
  let trace :=
    if Go.Before (store.SpanStartTime convertedSpan) (store.StartTime trace)
    then store.set_StartTime (store.SpanStartTime convertedSpan) trace
    else trace in
  let trace :=
    if Go.After (store.SpanEndTime convertedSpan) (store.EndTime trace)
    then
      let trace := store.set_EndTime (store.SpanEndTime convertedSpan) trace in
      store.set_DurationMs
        (Go.Milliseconds (Go.Sub (store.EndTime trace) (store.StartTime trace)))
        trace
    else trace in
  if bool_decide (store.SpanStatusCode convertedSpan = ptrace.StatusCodeError)
  then store.set_ErrorCount (store.ErrorCount trace + 1) trace
  else trace.

(** The body of the innermost loop of TransformTraces. *)
Definition addSpan (resourceAttrs : mapref) (serviceName : string)
    (acc : TraceAcc) (span : ptrace.Span) : M TraceAcc :=
  convertedSpan ← convertSpan serviceName span;
  let traceID := store.SpanTraceID convertedSpan in
  let allSpans' :=
    <[traceID := default [] (allSpans acc !! traceID) ++ [convertedSpan]]>
      (allSpans acc) in
  match traces acc !! traceID with
  | None =>
      attrs ← mergeAttributes resourceAttrs (store.SpanAttributes convertedSpan);
      mret {| traces :=
                <[traceID :=
                    {| store.TraceID := traceID;
                       store.ServiceName := serviceName;
                       store.OperationName := ptrace.Name span;
                       store.StartTime := store.SpanStartTime convertedSpan;
                       store.EndTime := store.SpanEndTime convertedSpan;
                       store.DurationMs := store.SpanDurationMs convertedSpan;
                       store.SpanCount := 1;
                       store.ErrorCount := 0;
                       store.StatusCode := store.SpanStatusCode convertedSpan;
                       store.Attributes := attrs;
                       store.Spans := [] |}]> (traces acc);
              allSpans := allSpans' |}
  | Some trace =>
      mret {| traces := <[traceID := updateTrace convertedSpan trace]> (traces acc);
              allSpans := allSpans' |}
  end.

(** TransformTraces converts OTLP traces to internal trace model.  The
    error result of the Go function is always nil and is left out; the
    emitted list follows the iteration order of the [traces] map. *)
Definition TransformTraces (td : ptrace.Traces) : M (list store.Trace) :=
  acc ← foldM (λ acc rs,
           resourceAttrs ← attributesToMap (ptrace.ResourceAttributes rs);
           serviceName ← extractServiceName resourceAttrs;
           foldM (λ acc ss, foldM (addSpan resourceAttrs serviceName) acc ss)
             acc (ptrace.ScopeSpans rs))
         {| traces := ∅; allSpans := ∅ |} td;
  mret ((λ kv, store.set_Spans (default [] (allSpans acc !! kv.1)) kv.2)
          <$> map_to_list (traces acc)).

(** Number of spans of [spans] whose status code is Error. *)
Definition count_errors (spans : list store.Span) : Z :=
  Z.of_nat (length (filter (λ s, store.SpanStatusCode s = ptrace.StatusCodeError) spans)).

(** What TransformTraces maintains for a trace aggregate [t] and the spans
    [spans] collected under its trace id: the span count is the number of
    spans, the error count is the number of Error spans after the first
    one, and the time window covers every span. *)
Definition aggregates (t : store.Trace) (spans : list store.Span) : Prop :=
  spans ≠ []
  ∧ store.SpanCount t = Z.of_nat (length spans)
  ∧ store.ErrorCount t = count_errors (tail spans)
  ∧ Forall (λ s, store.StartTime t ≤ store.SpanStartTime s
                 ∧ store.SpanEndTime s ≤ store.EndTime t) spans.

Definition acc_inv (acc : TraceAcc) : Prop :=
  ∀ id, match traces acc !! id with
        | None => allSpans acc !! id = None
        | Some t => ∃ spans, allSpans acc !! id = Some spans ∧ aggregates t spans
        end.

(* ===================================================================== *)
(** * internal/exporter: the metric transformer *)
(* ===================================================================== *)

Module pmetric.

(** The value of a number data point or of an exemplar. *)
Inductive NumberValue :=
  | ValueEmpty
  | ValueInt (n : Z)
  | ValueDouble (q : Q).

Record Exemplar := {
  ExValue : NumberValue;
  ExTimestamp : Z;
  ExTraceID : list byte;
  ExSpanID : list byte;
  FilteredAttributes : list (string * PValue);
}.

Record NumberDataPoint := {
  NAttributes : list (string * PValue);
  NTimestamp : Z;
  NValue : NumberValue;
  NExemplars : list Exemplar;
}.

Record HistogramDataPoint := {
  HAttributes : list (string * PValue);
  HTimestamp : Z;
  HCount : Z;                       (* uint64 *)
  HSum : Q;
  BucketCounts : list Z;            (* []uint64 *)
  ExplicitBounds : list Q;
  HExemplars : list Exemplar;
}.

Record ExponentialHistogramDataPoint := {
  EAttributes : list (string * PValue);
  ETimestamp : Z;
  ECount : Z;                       (* uint64 *)
  ESum : Q;
  Scale : Z;                        (* int32 *)
  EExemplars : list Exemplar;
}.

Record SummaryDataPoint := {
  SAttributes : list (string * PValue);
  STimestamp : Z;
  SCount : Z;                       (* uint64 *)
  SSum : Q;
  QuantileValues : list (Q * Q);    (* (quantile, value) *)
}.

(** [metric.Type()] together with the data of that type. *)
Inductive MetricData :=
  | MetricTypeEmpty
  | MetricTypeGauge (dps : list NumberDataPoint)
  | MetricTypeSum (dps : list NumberDataPoint)
  | MetricTypeHistogram (dps : list HistogramDataPoint)
  | MetricTypeExponentialHistogram (dps : list ExponentialHistogramDataPoint)
  | MetricTypeSummary (dps : list SummaryDataPoint).

Record Metric := {
  MetricName : string;
  Data : MetricData;
}.

Record ResourceMetrics := {
  ResourceAttributes : list (string * PValue);
  ScopeMetrics : list (list Metric);
}.

(** [pmetric.Metrics]. *)
Definition Metrics := list ResourceMetrics.

End pmetric.

Module metrics.

Record Exemplar := {
  ExValue : Q;
  ExTimestamp : Go.Time;
  ExTraceID : string;
  ExSpanID : string;
  ExAttributes : mapref;
}.

(** [store.MetricRecord]. *)
Record MetricRecord := {
  ID : Z;
  Timestamp : Go.Time;
  MetricName : string;
  MetricType : string;
  ServiceName : string;
  Value : option Q;                 (* *float64 *)
  Attributes : mapref;
  Exemplars : list Exemplar;
}.

End metrics.

(** extractNumericValue extracts numeric value from data point. *)
Definition extractNumericValue (dp : pmetric.NumberDataPoint) : Q :=
  match pmetric.NValue dp with
  | pmetric.ValueInt n => inject_Z n
  | pmetric.ValueDouble q => q
  | pmetric.ValueEmpty => 0%Q
  end.

(** convertExemplars converts OTLP exemplars to internal exemplar model. *)
Definition convertExemplars (exemplars : list pmetric.Exemplar)
  : M (list metrics.Exemplar) :=
  if bool_decide (length exemplars = 0%nat) then mret []
  else
    mapM (λ ex,
      let value :=
        match pmetric.ExValue ex with
        | pmetric.ValueInt n => inject_Z n
        | pmetric.ValueDouble q => q
        | pmetric.ValueEmpty => 0%Q
        end in
      attrs ← attributesToMap (pmetric.FilteredAttributes ex);
      mret {| metrics.ExValue := value;
              metrics.ExTimestamp := Go.Unix 0 (Go.int64 (pmetric.ExTimestamp ex));
              metrics.ExTraceID := ID_String (pmetric.ExTraceID ex);
              metrics.ExSpanID := ID_String (pmetric.ExSpanID ex);
              metrics.ExAttributes := attrs |}) exemplars.

(** The shared body of transformGauge and transformSum. *)
Definition transformNumber (metricType : string)
    (dps : list pmetric.NumberDataPoint) (metricName serviceName : string)
    (resourceAttrs : mapref) : M (list metrics.MetricRecord) :=
  mapM (λ dp,
    let value := extractNumericValue dp in
    dpAttrs ← attributesToMap (pmetric.NAttributes dp);
    attrs ← mergeAttributes resourceAttrs dpAttrs;
    exemplars ← convertExemplars (pmetric.NExemplars dp);
    mret {| metrics.ID := 0;
            metrics.Timestamp := Go.Unix 0 (Go.int64 (pmetric.NTimestamp dp));
            metrics.MetricName := metricName;
            metrics.MetricType := metricType;
            metrics.ServiceName := serviceName;
            metrics.Value := Some value;
            metrics.Attributes := attrs;
            metrics.Exemplars := exemplars |}) dps.

(** transformGauge converts gauge metric to metric records. *)
Definition transformGauge := transformNumber "gauge".

(** transformSum converts sum metric to metric records. *)
Definition transformSum := transformNumber "sum".

(** "Store bucket counts": one map per bucket; the bucket at index [j] has
    an [upper_bound] only when [j < dp.ExplicitBounds().Len()]. *)
Definition histogramBuckets (counts : list Z) (bounds : list Q) : list Val :=
  imap (λ j c,
    let bucket : gmap string Val := {[ "count" := VInt c ]} in
    VMap (Some (match bounds !! j with
                | Some b => <["upper_bound" := VDouble b]> bucket
                | None => bucket
                end))) counts.

(** transformHistogram converts histogram metric to metric records. *)
Definition transformHistogram (dps : list pmetric.HistogramDataPoint)
    (metricName serviceName : string) (resourceAttrs : mapref)
  : M (list metrics.MetricRecord) :=
  mapM (λ dp,
    attrs ← attributesToMap (pmetric.HAttributes dp);
    _ ← map_store attrs "count" (VInt (pmetric.HCount dp));
    _ ← map_store attrs "sum" (VDouble (pmetric.HSum dp));
    let buckets :=
      histogramBuckets (pmetric.BucketCounts dp) (pmetric.ExplicitBounds dp) in
    _ ← map_store attrs "buckets" (VSlice buckets);
    let value := pmetric.HSum dp in
    merged ← mergeAttributes resourceAttrs attrs;
    exemplars ← convertExemplars (pmetric.HExemplars dp);
    mret {| metrics.ID := 0;
            metrics.Timestamp := Go.Unix 0 (Go.int64 (pmetric.HTimestamp dp));
            metrics.MetricName := metricName;
            metrics.MetricType := "histogram";
            metrics.ServiceName := serviceName;
            metrics.Value := Some value;
            metrics.Attributes := merged;
            metrics.Exemplars := exemplars |}) dps.

(** transformExponentialHistogram converts exponential histogram metric to
    metric records. *)
Definition transformExponentialHistogram
    (dps : list pmetric.ExponentialHistogramDataPoint)
    (metricName serviceName : string) (resourceAttrs : mapref)
  : M (list metrics.MetricRecord) :=
  mapM (λ dp,
    attrs ← attributesToMap (pmetric.EAttributes dp);
    _ ← map_store attrs "count" (VInt (pmetric.ECount dp));
    _ ← map_store attrs "sum" (VDouble (pmetric.ESum dp));
    _ ← map_store attrs "scale" (VInt (pmetric.Scale dp));
    let value := pmetric.ESum dp in
    merged ← mergeAttributes resourceAttrs attrs;
    exemplars ← convertExemplars (pmetric.EExemplars dp);
    mret {| metrics.ID := 0;
            metrics.Timestamp := Go.Unix 0 (Go.int64 (pmetric.ETimestamp dp));
            metrics.MetricName := metricName;
            metrics.MetricType := "exponential_histogram";
            metrics.ServiceName := serviceName;
            metrics.Value := Some value;
            metrics.Attributes := merged;
            metrics.Exemplars := exemplars |}) dps.

(** transformSummary converts summary metric to metric records. *)
Definition transformSummary (dps : list pmetric.SummaryDataPoint)
    (metricName serviceName : string) (resourceAttrs : mapref)
  : M (list metrics.MetricRecord) :=
  mapM (λ dp,
    attrs ← attributesToMap (pmetric.SAttributes dp);
    _ ← map_store attrs "count" (VInt (pmetric.SCount dp));
    _ ← map_store attrs "sum" (VDouble (pmetric.SSum dp));
    let quantiles :=
      map (λ qv : Q * Q,
             VMap (Some (<["quantile" := VDouble qv.1]>
                           ({[ "value" := VDouble qv.2 ]} : gmap string Val))))
          (pmetric.QuantileValues dp) in
    _ ← map_store attrs "quantiles" (VSlice quantiles);
    let value := pmetric.SSum dp in
    merged ← mergeAttributes resourceAttrs attrs;
    mret {| metrics.ID := 0;
            metrics.Timestamp := Go.Unix 0 (Go.int64 (pmetric.STimestamp dp));
            metrics.MetricName := metricName;
            metrics.MetricType := "summary";
            metrics.ServiceName := serviceName;
            metrics.Value := Some value;
            metrics.Attributes := merged;
            metrics.Exemplars := [] |}) dps.

(** TransformMetrics converts OTLP metrics to internal metric model. *)
Definition TransformMetrics (md : pmetric.Metrics)
  : M (list metrics.MetricRecord) :=
  collect md (λ rm,
    resourceAttrs ← attributesToMap (pmetric.ResourceAttributes rm);
    serviceName ← extractServiceName resourceAttrs;
    collect (pmetric.ScopeMetrics rm) (λ sm,
      collect sm (λ metric,
        let metricName := pmetric.MetricName metric in
        match pmetric.Data metric with
        | pmetric.MetricTypeGauge dps =>
            transformGauge dps metricName serviceName resourceAttrs
        | pmetric.MetricTypeSum dps =>
            transformSum dps metricName serviceName resourceAttrs
        | pmetric.MetricTypeHistogram dps =>
            transformHistogram dps metricName serviceName resourceAttrs
        | pmetric.MetricTypeExponentialHistogram dps =>
            transformExponentialHistogram dps metricName serviceName resourceAttrs
        | pmetric.MetricTypeSummary dps =>
            transformSummary dps metricName serviceName resourceAttrs
        | pmetric.MetricTypeEmpty => mret []
        end))).

(* ===================================================================== *)
(** * internal/exporter: the log transformer *)
(* ===================================================================== *)

Module plog.

Record LogRecord := {
  Timestamp : Z;                    (* uint64 nanoseconds *)
  SeverityText : string;
  SeverityNumber : Z;               (* plog.SeverityNumber *)
  Body : PValue;
  Attributes : list (string * PValue);
  TraceID : list byte;
  SpanID : list byte;
}.

Record ResourceLogs := {
  ResourceAttributes : list (string * PValue);
  ScopeLogs : list (list LogRecord);
}.

(** [plog.Logs]. *)
Definition Logs := list ResourceLogs.

End plog.

Module logs.

(** [store.LogRecord]. *)
Record LogRecord := {
  ID : Z;
  Timestamp : Go.Time;
  TraceID : option string;
  SpanID : option string;
  SeverityText : string;
  SeverityNumber : Z;
  Body : string;
  ServiceName : string;
  Attributes : mapref;
  ResourceAttributes : mapref;
}.

(** [store.LogFilters]. *)
Record LogFilters := {
  StartTime : Go.Time;
  EndTime : Go.Time;
  FServiceName : string;
  FTraceID : string;
  MinSeverity : Z;
  SearchText : string;
  Limit : Z;
  Offset : Z;
}.

End logs.

(** The two [fmt.Sprintf] verbs that render floats and whole maps; their
    output is taken from the [fmt] package as it is. *)
Class Fmt := {
  Sprintf_f : Q → string;                          (* "%f" *)
  Sprintf_v : option (gmap string Val) → string;   (* "%v" of a map *)
}.

(** The value attributesToMap builds for a nested collection. *)
Definition attributesValue (kvs : list (string * PValue))
  : option (gmap string Val) :=
  match valueToInterface (PMap kvs) with
  | VMap m => m
  | _ => None
  end.

(** logBodyToString converts log body to string. *)
Fixpoint logBodyToString `{Fmt} (body : PValue) : string :=
  match body with
  | PStr s => s
  | PInt n => pretty n
  | PDouble q => Sprintf_f q
  | PBool b => if b then "true" else "false"
  | PMap kvs => Sprintf_v (attributesValue kvs)
  | PSlice vs =>
      "[" +:+ String.concat ", " (map logBodyToString vs) +:+ "]"
  | PBytes bs => Go.EncodeToString bs
  | PEmpty => ""
  end.

(** TransformLogs converts OTLP logs to internal log model. *)
Definition TransformLogs `{Fmt} (ld : plog.Logs) : M (list logs.LogRecord) :=
  collect ld (λ rl,
    resourceAttrs ← attributesToMap (plog.ResourceAttributes rl);
    serviceName ← extractServiceName resourceAttrs;
    collect (plog.ScopeLogs rl) (λ sl,
      mapM (λ lr,
        attrs ← attributesToMap (plog.Attributes lr);
        mret {| logs.ID := 0;
                logs.Timestamp := Go.Unix 0 (Go.int64 (plog.Timestamp lr));
                logs.TraceID :=
                  if negb (ID_IsEmpty (plog.TraceID lr))
                  then Some (ID_String (plog.TraceID lr)) else None;
                logs.SpanID :=
                  if negb (ID_IsEmpty (plog.SpanID lr))
                  then Some (ID_String (plog.SpanID lr)) else None;
                logs.SeverityText := plog.SeverityText lr;
                logs.SeverityNumber := plog.SeverityNumber lr;
                logs.Body := logBodyToString (plog.Body lr);
                logs.ServiceName := serviceName;
                logs.Attributes := attrs;
                logs.ResourceAttributes := resourceAttrs |}) sl)).

(* ===================================================================== *)
(** * The embedded database *)
(* ===================================================================== *)

(** Results of fallible store operations: a value or an error message. *)
Inductive Result (A : Type) : Type :=
  | Success (a : A)
  | Failure (err : string).
Arguments Success {A} a.
Arguments Failure {A} err.

(** The rows of the four tables created by [Store.Migrate].  TIMESTAMP
    columns hold microseconds since the epoch; a JSON column holds the value
    that was marshalled into it ([None] for JSON null). *)
Module TracesT.
Record Row := {
  trace_id : string;                (* PRIMARY KEY *)
  service_name : string;
  operation_name : string;
  start_time : Z;
  end_time : Z;
  duration_ms : Z;
  span_count : Z;
  error_count : Z;
  status_code : Z;
  attributes : option (gmap string Val);
  created_at : Z;
}.
End TracesT.

Module SpansT.
Record EventDoc := {
  name : string;
  timestamp : Go.Time;
  event_attributes : option (gmap string Val);
}.
Record LinkDoc := {
  link_trace_id : string;
  link_span_id : string;
  link_attributes : option (gmap string Val);
}.
Record Row := {
  span_id : string;                 (* PRIMARY KEY *)
  trace_id : string;
  parent_span_id : option string;
  service_name : string;
  operation_name : string;
  span_kind : string;
  start_time : Z;
  end_time : Z;
  duration_ms : Z;
  status_code : Z;
  status_message : option string;
  attributes : option (gmap string Val);
  events : list EventDoc;
  links : list LinkDoc;
  created_at : Z;
}.
End SpansT.

Module LogsT.
Record Row := {
  id : Z;                           (* DEFAULT nextval('logs_id_seq') *)
  timestamp : Z;
  trace_id : option string;
  span_id : option string;
  severity_text : string;
  severity_number : Z;
  body : string;
  service_name : string;
  attributes : option (gmap string Val);
  resource_attributes : option (gmap string Val);
  created_at : Z;
}.
End LogsT.

Module MetricsT.
Record Row := {
  id : Z;                           (* DEFAULT nextval('metrics_id_seq') *)
  timestamp : Z;
  metric_name : string;
  metric_type : string;
  service_name : string;
  value : option Q;                 (* DOUBLE, nullable *)
  attributes : option (gmap string Val);
  created_at : Z;
}.
(* The exemplars document, which no query of the store reads back in a
   WHERE clause or an aggregate, is not represented. *)
End MetricsT.

Module duckdb.

Record DB := {
  traces : gmap string TracesT.Row;
  spans : gmap string SpansT.Row;
  logs : list LogsT.Row;
  metrics : list MetricsT.Row;
  logs_id_seq : Z;
  current_timestamp : Z;
}.

(** The database right after [Store.Migrate]. *)
Definition migrated (now : Z) : DB :=
  {| traces := ∅; spans := ∅; logs := []; metrics := [];
     logs_id_seq := 1; current_timestamp := now |}.

(** ** Predicates of the WHERE clauses over [logs] *)
Inductive LogCond :=
  | TimestampGe (t : Go.Time)       (* timestamp >= ? *)
  | TimestampLe (t : Go.Time)       (* timestamp <= ? *)
  | ServiceNameEq (s : string)      (* service_name = ? *)
  | TraceIdEq (s : string)          (* trace_id = ? *)
  | SeverityGe (n : Z)              (* severity_number >= ? *)
  | BodyLike (pattern : string).    (* body LIKE ? *)

(** ** Scalar expressions (the bucket expression of the aggregation) *)
Inductive Expr :=
  | ColTimestamp
  | Lit (n : Z)
  | ExtractEpoch (e : Expr)         (* EXTRACT(epoch FROM e) *)
  | CastBigint (e : Expr)           (* CAST(e AS BIGINT) *)
  | Div (a b : Expr)                (* a / b *)
  | Mul (a b : Expr)                (* a * b *)
  | ToTimestamp (e : Expr).         (* to_timestamp(e) *)

Inductive SqlVal :=
  | Bigint (n : Z)
  | Double (q : Q)
  | Timestamp (us : Z).

(** ** Statements issued by the store *)
Inductive Stmt :=
  | Begin
  | Commit
  | InsertLog (r : LogsT.Row)
  | UpsertTrace (r : TracesT.Row)
  | InsertSpanIgnore (r : SpansT.Row)
  | SelectLogs (conds : list LogCond) (limit offset : Z)
  | CountLogs (conds : list LogCond)
  | SelectTrace (traceID : string)
  | SelectSpans (traceID : string)
  | Aggregate (bucket : Expr) (aggFunc : string) (metricName : string)
      (startTime endTime : Go.Time) (serviceName : option string).

End duckdb.

(** Errors the database reports for reasons outside the data model (closed
    connection, cancelled request context, a value the engine rejects).
    When [fault s = Some msg] the statement [s] fails with [msg] and has no
    effect. *)
Class Engine := {
  fault : duckdb.Stmt → option string;
}.

Module sql.
Import duckdb.

(** *** LIKE: [%] matches any sequence, [_] any single character. *)
Fixpoint like_chars (p : list ascii) : list ascii → bool :=
  match p with
  | [] => λ s, match s with [] => true | _ => false end
  | c :: p' =>
      if Ascii.eqb c "%" then
        fix skip (s : list ascii) : bool :=
          like_chars p' s ||
          match s with [] => false | _ :: s' => skip s' end
      else
        λ s, match s with
             | [] => false
             | d :: s' =>
                 (Ascii.eqb c "_" || Ascii.eqb c d) && like_chars p' s'
             end
  end.

Definition like (s pattern : string) : bool :=
  like_chars (String.list_ascii_of_string pattern)
    (String.list_ascii_of_string s).

(** A comparison with NULL is not true, so the row is filtered out. *)
Definition eval_cond (r : LogsT.Row) (c : LogCond) : bool :=
  match c with
  | TimestampGe t => bool_decide (Go.UnixMicro t ≤ LogsT.timestamp r)
  | TimestampLe t => bool_decide (LogsT.timestamp r ≤ Go.UnixMicro t)
  | ServiceNameEq s => bool_decide (LogsT.service_name r = s)
  | TraceIdEq s =>
      match LogsT.trace_id r with
      | Some t => bool_decide (t = s)
      | None => false
      end
  | SeverityGe n => bool_decide (n ≤ LogsT.severity_number r)
  | BodyLike p => like (LogsT.body r) p
  end.

Definition matching (conds : list LogCond) (rows : list LogsT.Row)
  : list LogsT.Row :=
  List.filter (λ r, forallb (eval_cond r) conds) rows.

(** ORDER BY timestamp DESC. *)
Definition newer_first (a b : LogsT.Row) : Prop :=
  LogsT.timestamp b ≤ LogsT.timestamp a.

#[global] Instance newer_first_dec a b : Decision (newer_first a b).
Proof. unfold newer_first. apply _. Defined.

(** LIMIT ? OFFSET ? *)
Definition paginate {A} (limit offset : Z) (rows : list A) : list A :=
  take (Z.to_nat limit) (drop (Z.to_nat offset) rows).

(** *** Rounding a DOUBLE to the nearest integer (ties to even). *)
Definition round_double (q : Q) : Z :=
  let f := Qfloor q in
  let twice := Qfloor (2 * q) - 2 * f in      (* 0 or 1: fraction ≥ 1/2 *)
  if bool_decide (twice = 0) then f
  else if Qeq_bool (2 * q) (inject_Z (2 * f + 1))
       then (if Z.even f then f else f + 1)
       else f + 1.

(** Numeric operands of [/] and of a mixed [*] are cast to DOUBLE. *)
Definition to_double (v : SqlVal) : option Q :=
  match v with
  | Bigint n => Some (inject_Z n)
  | Double q => Some q
  | Timestamp _ => None
  end.

(** Evaluation of a scalar expression on a row's timestamp.  In DuckDB
    [/] is floating-point division whatever the operand types (integer
    division is written [//]), and division by zero gives NULL. *)
Fixpoint eval (e : Expr) (ts : Z) : option SqlVal :=
  match e with
  | ColTimestamp => Some (Timestamp ts)
  | Lit n => Some (Bigint n)
  | ExtractEpoch e =>
      match eval e ts with
      | Some (Timestamp us) => Some (Double (Qred (inject_Z us / 1000000)))
      | _ => None
      end
  | CastBigint e =>
      match eval e ts with
      | Some (Bigint n) => Some (Bigint n)
      | Some (Double q) => Some (Bigint (round_double q))
      | _ => None
      end
  | Div a b =>
      x ← eval a ts ≫= to_double;
      y ← eval b ts ≫= to_double;
      if Qeq_bool y 0 then None else Some (Double (Qred (x / y)))
  | Mul a b =>
      match eval a ts, eval b ts with
      | Some (Bigint x), Some (Bigint y) => Some (Bigint (x * y))
      | Some x, Some y =>
          x ← to_double x; y ← to_double y; Some (Double (Qred (x * y)))
      | _, _ => None
      end
  | ToTimestamp e =>
      x ← eval e ts ≫= to_double;
      Some (Timestamp (round_double (x * 1000000)))
  end.

End sql.

(* ===================================================================== *)
(** * Execution of statements *)
(* ===================================================================== *)

Module engine.
Import duckdb.

Definition set_logs (rows : list LogsT.Row) (seq : Z) (d : DB) : DB :=
  {| traces := traces d; spans := spans d; logs := rows;
     metrics := metrics d; logs_id_seq := seq;
     current_timestamp := current_timestamp d |}.

Definition set_traces (t : gmap string TracesT.Row) (d : DB) : DB :=
  {| traces := t; spans := spans d; logs := logs d;
     metrics := metrics d; logs_id_seq := logs_id_seq d;
     current_timestamp := current_timestamp d |}.

Definition set_spans (s : gmap string SpansT.Row) (d : DB) : DB :=
  {| traces := traces d; spans := s; logs := logs d;
     metrics := metrics d; logs_id_seq := logs_id_seq d;
     current_timestamp := current_timestamp d |}.

(** INSERT INTO logs (...) VALUES (...) [RETURNING id]: [id] and
    [created_at] are not listed and take their DEFAULT. *)
Definition insert_log (r : LogsT.Row) (d : DB) : DB * Z :=
  let id := logs_id_seq d in
  let row :=
    {| LogsT.id := id; LogsT.timestamp := LogsT.timestamp r;
       LogsT.trace_id := LogsT.trace_id r; LogsT.span_id := LogsT.span_id r;
       LogsT.severity_text := LogsT.severity_text r;
       LogsT.severity_number := LogsT.severity_number r;
       LogsT.body := LogsT.body r; LogsT.service_name := LogsT.service_name r;
       LogsT.attributes := LogsT.attributes r;
       LogsT.resource_attributes := LogsT.resource_attributes r;
       LogsT.created_at := current_timestamp d |} in
  (set_logs (logs d ++ [row]) (id + 1) d, id).

(** INSERT INTO traces (...) VALUES (...)
    ON CONFLICT (trace_id) DO UPDATE SET end_time = EXCLUDED.end_time,
      duration_ms = EXCLUDED.duration_ms, span_count = EXCLUDED.span_count,
      error_count = EXCLUDED.error_count *)
Definition upsert_trace (r : TracesT.Row) (d : DB) : DB :=
  let row :=
    match traces d !! TracesT.trace_id r with
    | Some old =>
        {| TracesT.trace_id := TracesT.trace_id old;
           TracesT.service_name := TracesT.service_name old;
           TracesT.operation_name := TracesT.operation_name old;
           TracesT.start_time := TracesT.start_time old;
           TracesT.end_time := TracesT.end_time r;
           TracesT.duration_ms := TracesT.duration_ms r;
           TracesT.span_count := TracesT.span_count r;
           TracesT.error_count := TracesT.error_count r;
           TracesT.status_code := TracesT.status_code old;
           TracesT.attributes := TracesT.attributes old;
           TracesT.created_at := TracesT.created_at old |}
    | None =>
        {| TracesT.trace_id := TracesT.trace_id r;
           TracesT.service_name := TracesT.service_name r;
           TracesT.operation_name := TracesT.operation_name r;
           TracesT.start_time := TracesT.start_time r;
           TracesT.end_time := TracesT.end_time r;
           TracesT.duration_ms := TracesT.duration_ms r;
           TracesT.span_count := TracesT.span_count r;
           TracesT.error_count := TracesT.error_count r;
           TracesT.status_code := TracesT.status_code r;
           TracesT.attributes := TracesT.attributes r;
           TracesT.created_at := current_timestamp d |}
    end in
  set_traces (<[TracesT.trace_id r := row]> (traces d)) d.

(** INSERT INTO spans (...) VALUES (...) ON CONFLICT (span_id) DO NOTHING *)
Definition insert_span_ignore (r : SpansT.Row) (d : DB) : DB :=
  match spans d !! SpansT.span_id r with
  | Some _ => d
  | None =>
      let row :=
        {| SpansT.span_id := SpansT.span_id r;
           SpansT.trace_id := SpansT.trace_id r;
           SpansT.parent_span_id := SpansT.parent_span_id r;
           SpansT.service_name := SpansT.service_name r;
           SpansT.operation_name := SpansT.operation_name r;
           SpansT.span_kind := SpansT.span_kind r;
           SpansT.start_time := SpansT.start_time r;
           SpansT.end_time := SpansT.end_time r;
           SpansT.duration_ms := SpansT.duration_ms r;
           SpansT.status_code := SpansT.status_code r;
           SpansT.status_message := SpansT.status_message r;
           SpansT.attributes := SpansT.attributes r;
           SpansT.events := SpansT.events r;
           SpansT.links := SpansT.links r;
           SpansT.created_at := current_timestamp d |} in
      set_spans (<[SpansT.span_id r := row]> (spans d)) d
  end.

(** [tx.ExecContext] / [db.ExecContext] of a data-changing statement. *)
Definition exec `{Engine} (s : Stmt) (d : DB) : DB * Result unit :=
  match fault s with
  | Some msg => (d, Failure msg)
  | None =>
      match s with
      | InsertLog r => ((insert_log r d).1, Success tt)
      | UpsertTrace r => (upsert_trace r d, Success tt)
      | InsertSpanIgnore r => (insert_span_ignore r d, Success tt)
      | _ => (d, Success tt)
      end
  end.

(** [tx.Rollback()]: the tables return to their state at [BeginTx];
    sequence values drawn meanwhile are not handed out again. *)
Definition rollback (before tx : DB) : DB :=
  set_logs (logs before) (logs_id_seq tx) before.

End engine.

(* ===================================================================== *)
(** * internal/store: the logs store *)
(* ===================================================================== *)

(** [json.Marshal] of an attribute map, as stored in a JSON column. *)
Definition marshalAttrs (h : Heap) (r : mapref) : option (gmap string Val) :=
  match r with
  | Some _ => Some (deref h r)
  | None => None
  end.

(** The values [InsertLog] and [InsertLogs] bind to the INSERT. *)
Definition logValues (h : Heap) (log : logs.LogRecord) : LogsT.Row :=
  {| LogsT.id := 0;
     LogsT.timestamp := Go.UnixMicro (logs.Timestamp log);
     LogsT.trace_id := logs.TraceID log;
     LogsT.span_id := logs.SpanID log;
     LogsT.severity_text := logs.SeverityText log;
     LogsT.severity_number := logs.SeverityNumber log;
     LogsT.body := logs.Body log;
     LogsT.service_name := logs.ServiceName log;
     LogsT.attributes := marshalAttrs h (logs.Attributes log);
     LogsT.resource_attributes := marshalAttrs h (logs.ResourceAttributes log);
     LogsT.created_at := 0 |}.

(** The columns of a [logs] row that the INSERT lists. *)
Definition log_columns (r : LogsT.Row) :=
  (LogsT.timestamp r, LogsT.trace_id r, LogsT.span_id r,
   LogsT.severity_text r, LogsT.severity_number r, LogsT.body r,
   LogsT.service_name r, LogsT.attributes r, LogsT.resource_attributes r).

(** InsertLog inserts a new log record (one statement, committed on its
    own) and returns the id scanned into [log.ID]. *)
Definition InsertLog `{Engine} (h : Heap) (d : duckdb.DB) (log : logs.LogRecord)
  : duckdb.DB * Result Z :=
  let stmt := duckdb.InsertLog (logValues h log) in
  match engine.exec stmt d with
  | (d', Failure err) => (d', Failure ("failed to insert log: " +:+ err))
  | (d', Success _) => (d', Success (duckdb.logs_id_seq d))
  end.

(** The [for _, log := range logs] loop of InsertLogs, run on the
    transaction's view of the database. *)
Fixpoint insertLogsLoop `{Engine} (h : Heap) (tx : duckdb.DB)
    (logs : list logs.LogRecord) : duckdb.DB * Result unit :=
  match logs with
  | [] => (tx, Success tt)
  | log :: rest =>
      match engine.exec (duckdb.InsertLog (logValues h log)) tx with
      | (tx', Failure err) => (tx', Failure ("failed to insert log: " +:+ err))
      | (tx', Success _) => insertLogsLoop h tx' rest
      end
  end.

(** InsertLogs inserts multiple log records in a batch. *)
Definition InsertLogs `{Engine} (h : Heap) (d : duckdb.DB)
    (logs : list logs.LogRecord) : duckdb.DB * Result unit :=
  if bool_decide (length logs = 0%nat) then (d, Success tt)
  else
    match fault duckdb.Begin with
    | Some err => (d, Failure ("failed to begin transaction: " +:+ err))
    | None =>
        match insertLogsLoop h d logs with
        | (tx, Failure err) => (engine.rollback d tx, Failure err)
        | (tx, Success _) =>
            match fault duckdb.Commit with
            | Some err =>
                (engine.rollback d tx,
                 Failure ("failed to commit transaction: " +:+ err))
            | None => (tx, Success tt)
            end
        end
    end.

(** The WHERE clause GetLogs appends to its query. *)
Definition GetLogs_where (filters : logs.LogFilters) : list duckdb.LogCond :=
  (if negb (Go.IsZero (logs.StartTime filters))
   then [duckdb.TimestampGe (logs.StartTime filters)] else [])
  ++ (if negb (Go.IsZero (logs.EndTime filters))
      then [duckdb.TimestampLe (logs.EndTime filters)] else [])
  ++ (if bool_decide (logs.FServiceName filters ≠ "")
      then [duckdb.ServiceNameEq (logs.FServiceName filters)] else [])
  ++ (if bool_decide (logs.FTraceID filters ≠ "")
      then [duckdb.TraceIdEq (logs.FTraceID filters)] else [])
  ++ (if bool_decide (0 < logs.MinSeverity filters)
      then [duckdb.SeverityGe (logs.MinSeverity filters)] else [])
  ++ (if bool_decide (logs.SearchText filters ≠ "")
      then [duckdb.BodyLike ("%" +:+ logs.SearchText filters +:+ "%")] else []).

(** The WHERE clause CountLogs appends to its query. *)
Definition CountLogs_where (filters : logs.LogFilters) : list duckdb.LogCond :=
  (if negb (Go.IsZero (logs.StartTime filters))
   then [duckdb.TimestampGe (logs.StartTime filters)] else [])
  ++ (if negb (Go.IsZero (logs.EndTime filters))
      then [duckdb.TimestampLe (logs.EndTime filters)] else [])
  ++ (if bool_decide (logs.FServiceName filters ≠ "")
      then [duckdb.ServiceNameEq (logs.FServiceName filters)] else [])
  ++ (if bool_decide (0 < logs.MinSeverity filters)
      then [duckdb.SeverityGe (logs.MinSeverity filters)] else [])
  ++ (if bool_decide (logs.SearchText filters ≠ "")
      then [duckdb.BodyLike ("%" +:+ logs.SearchText filters +:+ "%")] else []).

(** SELECT ... FROM logs WHERE 1=1 ... ORDER BY timestamp DESC, before
    LIMIT and OFFSET are applied. *)
Definition select_logs (conds : list duckdb.LogCond) (d : duckdb.DB)
  : list LogsT.Row :=
  merge_sort sql.newer_first (sql.matching conds (duckdb.logs d)).

(** GetLogs retrieves logs with filters; the records are returned as the
    rows scanned.  A negative LIMIT or OFFSET is refused by the engine. *)
Definition GetLogs `{Engine} (d : duckdb.DB) (filters : logs.LogFilters)
  : Result (list LogsT.Row) :=
  let conds := GetLogs_where filters in
  let limit := logs.Limit filters in
  let offset := logs.Offset filters in
  match fault (duckdb.SelectLogs conds limit offset) with
  | Some err => Failure ("failed to query logs: " +:+ err)
  | None =>
      if bool_decide (limit < 0 ∨ offset < 0)
      then Failure "failed to query logs: LIMIT/OFFSET cannot be negative"
      else Success (sql.paginate limit offset (select_logs conds d))
  end.

(** CountLogs returns the total count of logs matching the filters. *)
Definition CountLogs `{Engine} (d : duckdb.DB) (filters : logs.LogFilters)
  : Result Z :=
  let conds := CountLogs_where filters in
  match fault (duckdb.CountLogs conds) with
  | Some err => Failure ("failed to count logs: " +:+ err)
  | None => Success (Z.of_nat (length (sql.matching conds (duckdb.logs d))))
  end.

(* ===================================================================== *)
(** * The OTLP receiver *)
(* ===================================================================== *)

(** The [for _, log := range logs] loop of processLogs. *)
Fixpoint processLogsLoop `{Engine} (h : Heap) (d : duckdb.DB)
    (logs : list logs.LogRecord) : duckdb.DB * Result unit :=
  match logs with
  | [] => (d, Success tt)
  | log :: rest =>
      match InsertLog h d log with
      | (d', Failure err) => (d', Failure err)
      | (d', Success _) => processLogsLoop h d' rest
      end
  end.

(** processLogs transforms and stores logs. *)
Definition processLogs `{Fmt} `{Engine} (d : duckdb.DB) (ld : plog.Logs)
  : M (duckdb.DB * Result unit) :=
  logs ← TransformLogs ld;
  h ← get_heap;
  mret (processLogsLoop h d logs).

(* ===================================================================== *)
(** * internal/store: the traces store *)
(* ===================================================================== *)

(** The values InsertTrace binds to the upsert. *)
Definition traceValues (h : Heap) (trace : store.Trace) : TracesT.Row :=
  {| TracesT.trace_id := store.TraceID trace;
     TracesT.service_name := store.ServiceName trace;
     TracesT.operation_name := store.OperationName trace;
     TracesT.start_time := Go.UnixMicro (store.StartTime trace);
     TracesT.end_time := Go.UnixMicro (store.EndTime trace);
     TracesT.duration_ms := store.DurationMs trace;
     TracesT.span_count := store.SpanCount trace;
     TracesT.error_count := store.ErrorCount trace;
     TracesT.status_code := store.StatusCode trace;
     TracesT.attributes := marshalAttrs h (store.Attributes trace);
     TracesT.created_at := 0 |}.

(** The values insertSpan binds to the INSERT. *)
Definition spanValues (h : Heap) (span : store.Span) : SpansT.Row :=
  {| SpansT.span_id := store.SpanID span;
     SpansT.trace_id := store.SpanTraceID span;
     SpansT.parent_span_id := store.ParentSpanID span;
     SpansT.service_name := store.SpanServiceName span;
     SpansT.operation_name := store.SpanOperationName span;
     SpansT.span_kind := store.SpanKind span;
     SpansT.start_time := Go.UnixMicro (store.SpanStartTime span);
     SpansT.end_time := Go.UnixMicro (store.SpanEndTime span);
     SpansT.duration_ms := store.SpanDurationMs span;
     SpansT.status_code := store.SpanStatusCode span;
     SpansT.status_message := store.StatusMessage span;
     SpansT.attributes := marshalAttrs h (store.SpanAttributes span);
     SpansT.events :=
       map (λ e, {| SpansT.name := store.EventName e;
                    SpansT.timestamp := store.EventTimestamp e;
                    SpansT.event_attributes :=
                      marshalAttrs h (store.EventAttributes e) |})
           (store.Events span);
     SpansT.links :=
       map (λ l, {| SpansT.link_trace_id := store.LinkTraceID l;
                    SpansT.link_span_id := store.LinkSpanID l;
                    SpansT.link_attributes :=
                      marshalAttrs h (store.LinkAttributes l) |})
           (store.Links span);
     SpansT.created_at := 0 |}.

(** insertSpan: one INSERT ... ON CONFLICT (span_id) DO NOTHING inside the
    transaction of InsertTrace. *)
Definition insertSpan `{Engine} (h : Heap) (tx : duckdb.DB) (span : store.Span)
  : duckdb.DB * Result unit :=
  engine.exec (duckdb.InsertSpanIgnore (spanValues h span)) tx.

(** The [for _, span := range trace.Spans] loop of InsertTrace. *)
Fixpoint insertSpansLoop `{Engine} (h : Heap) (tx : duckdb.DB)
    (spans : list store.Span) : duckdb.DB * Result unit :=
  match spans with
  | [] => (tx, Success tt)
  | span :: rest =>
      match insertSpan h tx span with
      | (tx', Failure err) => (tx', Failure ("failed to insert span: " +:+ err))
      | (tx', Success _) => insertSpansLoop h tx' rest
      end
  end.

(** InsertTrace inserts a new trace with its spans. *)
Definition InsertTrace `{Engine} (h : Heap) (d : duckdb.DB) (trace : store.Trace)
  : duckdb.DB * Result unit :=
  match fault duckdb.Begin with
  | Some err => (d, Failure ("failed to begin transaction: " +:+ err))
  | None =>
      match engine.exec (duckdb.UpsertTrace (traceValues h trace)) d with
      | (tx, Failure err) =>
          (engine.rollback d tx, Failure ("failed to insert trace: " +:+ err))
      | (tx, Success _) =>
          match insertSpansLoop h tx (store.Spans trace) with
          | (tx', Failure err) => (engine.rollback d tx', Failure err)
          | (tx', Success _) =>
              match fault duckdb.Commit with
              | Some err =>
                  (engine.rollback d tx',
                   Failure ("failed to commit transaction: " +:+ err))
              | None => (tx', Success tt)
              end
          end
      end
  end.

(** ORDER BY start_time ASC. *)
Definition earlier_first (a b : SpansT.Row) : Prop :=
  SpansT.start_time a ≤ SpansT.start_time b.

#[global] Instance earlier_first_dec a b : Decision (earlier_first a b).
Proof. unfold earlier_first. apply _. Defined.

(** getSpansByTraceID: the spans of a trace ordered by start time. *)
Definition getSpansByTraceID `{Engine} (d : duckdb.DB) (traceID : string)
  : Result (list SpansT.Row) :=
  match fault (duckdb.SelectSpans traceID) with
  | Some err => Failure ("failed to query spans: " +:+ err)
  | None =>
      Success (merge_sort earlier_first
                 (List.filter (λ r, bool_decide (SpansT.trace_id r = traceID))
                    ((map_to_list (duckdb.spans d)).*2)))
  end.

(** GetTraceByID retrieves a single trace with all its spans. *)
Definition GetTraceByID `{Engine} (d : duckdb.DB) (traceID : string)
  : Result (TracesT.Row * list SpansT.Row) :=
  match fault (duckdb.SelectTrace traceID) with
  | Some err => Failure ("failed to query trace: " +:+ err)
  | None =>
      match duckdb.traces d !! traceID with
      | None => Failure "trace not found"
      | Some trace =>
          match getSpansByTraceID d traceID with
          | Failure err => Failure err
          | Success spans => Success (trace, spans)
          end
      end
  end.

(* ===================================================================== *)
(** * internal/server/handlers: trace comparison *)
(* ===================================================================== *)

Module handlers.

(** The request body as the JSON decoder sees it: not JSON at all, or an
    object whose [trace_ids] member is absent/null ([None]) or a list. *)
Inductive RequestBody :=
  | Malformed
  | Json (trace_ids : option (list string)).

(** The statistics object built by compareTracesStats. *)
Record Comparison := {
  count : Z;
  duration_min : Z;
  duration_max : Z;
  duration_avg : Z;
  span_count_min : Z;
  span_count_max : Z;
  span_count_avg : Q;
  total_errors : Z;
}.

Inductive Payload :=
  | ErrorBody (error : string) (trace_id : option string)
  | CompareBody (traces : list (TracesT.Row * list SpansT.Row))
      (comparison : option Comparison).

Record Response := {
  status : Z;
  payload : Payload;
}.

Definition StatusOK : Z := 200.
Definition StatusBadRequest : Z := 400.
Definition StatusNotFound : Z := 404.

(** [c.ShouldBindJSON(&req)] for
    [TraceIDs []string `binding:"required,min=2,max=4"`]. *)
Definition ShouldBindJSON (body : RequestBody) : Result (list string) :=
  match body with
  | Malformed => Failure "invalid character"
  | Json None => Failure "TraceIDs failed on the 'required' tag"
  | Json (Some ids) =>
      if bool_decide (length ids < 2)%nat
      then Failure "TraceIDs failed on the 'min' tag"
      else if bool_decide (4 < length ids)%nat
      then Failure "TraceIDs failed on the 'max' tag"
      else Success ids
  end.

(** compareTracesStats calculates comparison statistics between traces. *)
Definition compareTracesStats (traces : list (TracesT.Row * list SpansT.Row))
  : option Comparison :=
  match traces with
  | [] => None
  | (first, _) :: _ =>
      let rows := traces.*1 in
      let minDuration :=
        foldl (λ m t, if bool_decide (TracesT.duration_ms t < m)
                      then TracesT.duration_ms t else m)
          (TracesT.duration_ms first) rows in
      let maxDuration :=
        foldl (λ m t, if bool_decide (m < TracesT.duration_ms t)
                      then TracesT.duration_ms t else m)
          (TracesT.duration_ms first) rows in
      let totalDuration :=
        foldl (λ s t, Go.int64 (s + TracesT.duration_ms t)) 0 rows in
      let minSpans :=
        foldl (λ m t, if bool_decide (TracesT.span_count t < m)
                      then TracesT.span_count t else m)
          (TracesT.span_count first) rows in
      let maxSpans :=
        foldl (λ m t, if bool_decide (m < TracesT.span_count t)
                      then TracesT.span_count t else m)
          (TracesT.span_count first) rows in
      let totalSpans :=
        foldl (λ s t, Go.int64 (s + TracesT.span_count t)) 0 rows in
      let totalErrors :=
        foldl (λ s t, Go.int64 (s + TracesT.error_count t)) 0 rows in
      let n := Z.of_nat (length traces) in
      Some {| count := n;
              duration_min := minDuration;
              duration_max := maxDuration;
              duration_avg := totalDuration `quot` n;
              span_count_min := minSpans;
              span_count_max := maxSpans;
              span_count_avg := Qred (inject_Z totalSpans / inject_Z n);
              total_errors := totalErrors |}
  end.

(** "Fetch all traces": the loop over [req.TraceIDs].  The second
    component lists the trace ids handed to [GetTraceByID], in order. *)
Fixpoint fetchTraces `{Engine} (d : duckdb.DB) (ids : list string)
  : Result (list (TracesT.Row * list SpansT.Row)) * option string
    * list string :=
  match ids with
  | [] => (Success [], None, [])
  | traceID :: rest =>
      match GetTraceByID d traceID with
      | Failure err => (Failure err, Some traceID, [traceID])
      | Success trace =>
          let '(r, failed, calls) := fetchTraces d rest in
          (match r with
           | Success traces => Success (trace :: traces)
           | Failure err => Failure err
           end, failed, traceID :: calls)
      end
  end.

(** CompareTraces compares two or more traces side by side.  Returns the
    response written and the trace ids looked up in the store. *)
Definition CompareTraces `{Engine} (d : duckdb.DB) (body : RequestBody)
  : Response * list string :=
  match ShouldBindJSON body with
  | Failure _ =>
      ({| status := StatusBadRequest;
          payload := ErrorBody
            "Invalid request body. Must provide 2-4 trace_ids" None |}, [])
  | Success ids =>
      if bool_decide (length ids < 2 ∨ 4 < length ids)%nat
      then ({| status := StatusBadRequest;
               payload := ErrorBody
                 "Must provide between 2 and 4 trace_ids" None |}, [])
      else
        match fetchTraces d ids with
        | (Failure _, failed, calls) =>
            ({| status := StatusNotFound;
                payload := ErrorBody "One or more traces not found" failed |},
             calls)
        | (Success traces, _, calls) =>
            ({| status := StatusOK;
                payload := CompareBody traces (compareTracesStats traces) |},
             calls)
        end
  end.

End handlers.

(* ===================================================================== *)
(** * internal/store: metric aggregation *)
(* ===================================================================== *)

Module aggregation.

(** [store.AggregationRequest]. *)
Record AggregationRequest := {
  MetricName : string;
  ServiceName : string;
  StartTime : Go.Time;
  EndTime : Go.Time;
  Aggregation : string;
  BucketSize : string;
}.

(** [store.AggregationResult]. *)
Record AggregationResult := {
  TimeBucket : Go.Time;
  RMetricName : string;
  AggregationType : string;
  Value : Q;
  Unit : string;
}.

End aggregation.

(** parseBucketSizeToSeconds converts bucket size strings to seconds. *)
Definition parseBucketSizeToSeconds (bucketSize : string) : Z :=
  if bool_decide (bucketSize = "1 minute") then 60
  else if bool_decide (bucketSize = "5 minutes") then 300
  else if bool_decide (bucketSize = "15 minutes") then 900
  else if bool_decide (bucketSize = "30 minutes") then 1800
  else if bool_decide (bucketSize = "1 hour") then 3600
  else if bool_decide (bucketSize = "6 hours") then 21600
  else 60.

(** The bucket expression AggregateMetrics formats into its query:
    to_timestamp((CAST(EXTRACT(epoch FROM timestamp) AS BIGINT) / %d) * %d) *)
Definition bucketExpr (bucketSeconds : Z) : duckdb.Expr :=
  duckdb.ToTimestamp
    (duckdb.Mul
       (duckdb.Div (duckdb.CastBigint (duckdb.ExtractEpoch duckdb.ColTimestamp))
          (duckdb.Lit bucketSeconds))
       (duckdb.Lit bucketSeconds)).

Module agg.

Definition Qsum (vs : list Q) : Q := Qred (foldl Qplus 0%Q vs).

Definition Qleast (v : Q) (vs : list Q) : Q :=
  foldl (λ m x, if Qle_bool x m then x else m) v vs.

Definition Qgreatest (v : Q) (vs : list Q) : Q :=
  foldl (λ m x, if Qle_bool m x then x else m) v vs.

(** The aggregate functions over the non-NULL values of a group; an
    aggregate other than COUNT over no values is NULL. *)
Definition apply (aggFunc : string) (vs : list Q) : option Q :=
  if bool_decide (aggFunc = "COUNT")
  then Some (inject_Z (Z.of_nat (length vs)))
  else
    match vs with
    | [] => None
    | v :: vs' =>
        if bool_decide (aggFunc = "SUM") then Some (Qsum vs)
        else if bool_decide (aggFunc = "MIN") then Some (Qleast v vs')
        else if bool_decide (aggFunc = "MAX") then Some (Qgreatest v vs')
        else Some (Qred (Qsum vs / inject_Z (Z.of_nat (length vs))))
    end.

(** The value of the bucket expression on a row: a timestamp or NULL. *)
Definition bucket_of (bucket : duckdb.Expr) (r : MetricsT.Row) : option Z :=
  match sql.eval bucket (MetricsT.timestamp r) with
  | Some (duckdb.Timestamp us) => Some us
  | _ => None
  end.

(** ORDER BY bucket ASC (NULLs last). *)
Definition bucket_le (a b : option Z) : Prop :=
  match a, b with
  | Some x, Some y => x ≤ y
  | _, None => True
  | None, Some _ => False
  end.

#[global] Instance bucket_le_dec a b : Decision (bucket_le a b).
Proof. destruct a, b; simpl; apply _. Defined.

(** SELECT bucket, f(value) FROM metrics WHERE ... GROUP BY bucket
    ORDER BY bucket ASC *)
Definition select (bucket : duckdb.Expr) (aggFunc : string)
    (metricName : string) (startTime endTime : Go.Time)
    (serviceName : option string) (d : duckdb.DB)
  : list (option Z * option Q) :=
  let rows :=
    List.filter (λ r,
      bool_decide (MetricsT.metric_name r = metricName)
      && bool_decide (Go.UnixMicro startTime ≤ MetricsT.timestamp r)
      && bool_decide (MetricsT.timestamp r ≤ Go.UnixMicro endTime)
      && match serviceName with
         | Some s => bool_decide (MetricsT.service_name r = s)
         | None => true
         end) (duckdb.metrics d) in
  let keys := merge_sort bucket_le (remove_dups (map (bucket_of bucket) rows)) in
  map (λ k,
    (k, apply aggFunc
          (omap MetricsT.value
             (List.filter (λ r, bool_decide (bucket_of bucket r = k)) rows))))
    keys.

End agg.

(** The [rows.Scan(&result.TimeBucket, &result.Value)] loop: a NULL cannot
    be scanned into a [time.Time] or a [float64]. *)
Fixpoint scanAggregation (req : aggregation.AggregationRequest)
    (rows : list (option Z * option Q))
  : Result (list aggregation.AggregationResult) :=
  match rows with
  | [] => Success []
  | (Some us, Some v) :: rest =>
      match scanAggregation req rest with
      | Success results =>
          Success ({| aggregation.TimeBucket := us * 1000;
                      aggregation.RMetricName := aggregation.MetricName req;
                      aggregation.AggregationType := aggregation.Aggregation req;
                      aggregation.Value := v;
                      aggregation.Unit := "" |} :: results)
      | Failure err => Failure err
      end
  | _ => Failure "failed to scan aggregation result: converting NULL"
  end.

(** AggregateMetrics computes aggregations over a time range. *)
Definition AggregateMetrics `{Engine} (d : duckdb.DB)
    (req : aggregation.AggregationRequest)
  : Result (list aggregation.AggregationResult) :=
  let a := aggregation.Aggregation req in
  let aggFunc :=
    if bool_decide (a = "sum") then "SUM"
    else if bool_decide (a = "min") then "MIN"
    else if bool_decide (a = "max") then "MAX"
    else if bool_decide (a = "count") then "COUNT"
    else "AVG" in
  let bucketSeconds := parseBucketSizeToSeconds (aggregation.BucketSize req) in
  let bucket := bucketExpr bucketSeconds in
  let serviceName :=
    if bool_decide (aggregation.ServiceName req ≠ "")
    then Some (aggregation.ServiceName req) else None in
  let stmt :=
    duckdb.Aggregate bucket aggFunc (aggregation.MetricName req)
      (aggregation.StartTime req) (aggregation.EndTime req) serviceName in
  match fault stmt with
  | Some err => Failure ("failed to aggregate metrics: " +:+ err)
  | None =>
      scanAggregation req
        (agg.select bucket aggFunc (aggregation.MetricName req)
           (aggregation.StartTime req) (aggregation.EndTime req) serviceName d)
  end.

(** The bucket the design document describes: the row's epoch second
    floor-divided by the bucket width and multiplied back (as a TIMESTAMP,
    in microseconds). *)
Definition floor_bucket (bucketSeconds : Z) (ts : Z) : Z :=
  (ts `div` 1000000) `div` bucketSeconds * bucketSeconds * 1000000.

(* ===================================================================== *)
(** * Concrete payloads and database states used below *)
(* ===================================================================== *)

Module scenario.

(** An engine that never reports a fault. *)
Definition no_faults : Engine := {| fault := λ _, None |}.

(** An engine that refuses to insert log records whose body is
    ["rejected"] (standing for any per-statement error) and is otherwise
    healthy. *)
Definition rejecting : Engine :=
  {| fault := λ s,
       match s with
       | duckdb.InsertLog r =>
           if bool_decide (LogsT.body r = "rejected")
           then Some "engine error" else None
       | _ => None
       end |}.

(** [fmt] stand-ins for payloads that hold neither floats nor maps. *)
Definition plain_fmt : Fmt :=
  {| Sprintf_f := λ _, ""; Sprintf_v := λ _, "" |}.

Definition trace1 : list byte :=
  [x01; x02; x03; x04; x05; x06; x07; x08;
   x09; x0a; x0b; x0c; x0d; x0e; x0f; x10].

Definition span (sid : byte) (startNs endNs code : Z) : ptrace.Span :=
  {| ptrace.TraceID := trace1;
     ptrace.SpanID := [x00; x00; x00; x00; x00; x00; x00; sid];
     ptrace.ParentSpanID := [x00; x00; x00; x00; x00; x00; x00; x00];
     ptrace.Name := "GET /api/test";
     ptrace.Kind := ptrace.SpanKindServer;
     ptrace.StartTimestamp := startNs;
     ptrace.EndTimestamp := endNs;
     ptrace.StatusCode := code;
     ptrace.StatusMessage := "";
     ptrace.Attributes := [];
     ptrace.Events := [];
     ptrace.Links := [] |}.

Definition batch (spans : list ptrace.Span) : ptrace.Traces :=
  [ {| ptrace.ResourceAttributes := [("service.name", PStr "svc1")];
       ptrace.ScopeSpans := [spans] |} ].

(** One trace whose only span has status Error. *)
Definition error_first : ptrace.Traces :=
  batch [span x01 1000000000 1100000000 ptrace.StatusCodeError].

(** A span from 1.0 s to 1.1 s followed by one from 0.9 s to 1.05 s: the
    second widens the start of the trace and leaves its end alone. *)
Definition start_widened : ptrace.Traces :=
  batch [span x01 1000000000 1100000000 ptrace.StatusCodeUnset;
         span x02 900000000 1050000000 ptrace.StatusCodeUnset].

(** A histogram with a single data point that carries no attributes. *)
Definition bare_histogram_point : pmetric.HistogramDataPoint :=
  {| pmetric.HAttributes := [];
     pmetric.HTimestamp := 1000000000;
     pmetric.HCount := 3;
     pmetric.HSum := 6;
     pmetric.BucketCounts := [1; 2];
     pmetric.ExplicitBounds := [5%Q];
     pmetric.HExemplars := [] |}.

Definition bare_histogram : pmetric.Metrics :=
  [ {| pmetric.ResourceAttributes := [("service.name", PStr "svc1")];
       pmetric.ScopeMetrics :=
         [[ {| pmetric.MetricName := "http.server.duration";
               pmetric.Data :=
                 pmetric.MetricTypeHistogram [bare_histogram_point] |} ]] |} ].

Definition log_record (body : string) : plog.LogRecord :=
  {| plog.Timestamp := 1000000000;
     plog.SeverityText := "INFO";
     plog.SeverityNumber := 9;
     plog.Body := PStr body;
     plog.Attributes := [];
     plog.TraceID := [];
     plog.SpanID := [] |}.

(** One export request with two log records; the engine of [rejecting]
    fails on the second. *)
Definition two_logs : plog.Logs :=
  [ {| plog.ResourceAttributes := [("service.name", PStr "svc1")];
       plog.ScopeLogs := [[log_record "first"; log_record "rejected"]] |} ].

(** The records TransformLogs makes of [two_logs], and the heap that
    holds their attribute maps. *)
Definition two_records : list logs.LogRecord :=
  match @TransformLogs plain_fmt two_logs ∅ with
  | Ok records _ => records
  | Panic _ => []
  end.

Definition two_records_heap : Heap :=
  match @TransformLogs plain_fmt two_logs ∅ with
  | Ok _ h => h
  | Panic _ => ∅
  end.

Definition log_row (id : Z) (traceID : string) : LogsT.Row :=
  {| LogsT.id := id;
     LogsT.timestamp := 1000000 * id;
     LogsT.trace_id := Some traceID;
     LogsT.span_id := None;
     LogsT.severity_text := "INFO";
     LogsT.severity_number := 9;
     LogsT.body := "request served";
     LogsT.service_name := "svc1";
     LogsT.attributes := None;
     LogsT.resource_attributes := None;
     LogsT.created_at := 0 |}.

(** Two stored logs that belong to different traces. *)
Definition two_traces_logs : duckdb.DB :=
  engine.set_logs [log_row 1 "aaaa"; log_row 2 "bbbb"] 3 (duckdb.migrated 0).

Definition by_trace (traceID : string) : logs.LogFilters :=
  {| logs.StartTime := Go.zeroTime;
     logs.EndTime := Go.zeroTime;
     logs.FServiceName := "";
     logs.FTraceID := traceID;
     logs.MinSeverity := 0;
     logs.SearchText := "";
     logs.Limit := 100;
     logs.Offset := 0 |}.

(** Ten points one minute apart, the first at a multiple of 300 s. *)
Definition T : Z := 1700000100.

Definition point (i : Z) : MetricsT.Row :=
  {| MetricsT.id := i + 1;
     MetricsT.timestamp := (T + 60 * i) * 1000000;
     MetricsT.metric_name := "http.server.requests";
     MetricsT.metric_type := "sum";
     MetricsT.service_name := "test-service";
     MetricsT.value := Some (inject_Z (100 + 10 * i));
     MetricsT.attributes := None;
     MetricsT.created_at := 0 |}.

Definition ten_points : duckdb.DB :=
  {| duckdb.traces := ∅; duckdb.spans := ∅; duckdb.logs := [];
     duckdb.metrics := map point [0; 1; 2; 3; 4; 5; 6; 7; 8; 9];
     duckdb.logs_id_seq := 1; duckdb.current_timestamp := 0 |}.

Definition five_minutes (aggregation : string)
  : aggregation.AggregationRequest :=
  {| aggregation.MetricName := "http.server.requests";
     aggregation.ServiceName := "";
     aggregation.StartTime := (T - 60) * 1000000000;
     aggregation.EndTime := (T + 660) * 1000000000;
     aggregation.Aggregation := aggregation;
     aggregation.BucketSize := "5 minutes" |}.

(** A stored trace and one of its spans, and a later batch for the same
    trace id that carries different values in every column. *)
Definition stored_trace : TracesT.Row :=
  {| TracesT.trace_id := "0102";
     TracesT.service_name := "svc1";
     TracesT.operation_name := "GET /old";
     TracesT.start_time := 1000000;
     TracesT.end_time := 1100000;
     TracesT.duration_ms := 100;
     TracesT.span_count := 1;
     TracesT.error_count := 0;
     TracesT.status_code := 0;
     TracesT.attributes := Some {[ "batch" := VInt 1 ]};
     TracesT.created_at := 5 |}.

Definition stored_span : SpansT.Row :=
  {| SpansT.span_id := "0a";
     SpansT.trace_id := "0102";
     SpansT.parent_span_id := None;
     SpansT.service_name := "svc1";
     SpansT.operation_name := "GET /old";
     SpansT.span_kind := "server";
     SpansT.start_time := 1000000;
     SpansT.end_time := 1100000;
     SpansT.duration_ms := 100;
     SpansT.status_code := 0;
     SpansT.status_message := None;
     SpansT.attributes := None;
     SpansT.events := [];
     SpansT.links := [];
     SpansT.created_at := 5 |}.

Definition one_trace : duckdb.DB :=
  {| duckdb.traces := {[ "0102" := stored_trace ]};
     duckdb.spans := {[ "0a" := stored_span ]};
     duckdb.logs := []; duckdb.metrics := [];
     duckdb.logs_id_seq := 1; duckdb.current_timestamp := 9 |}.

Definition resent_span : store.Span :=
  {| store.SpanID := "0a";
     store.SpanTraceID := "0102";
     store.ParentSpanID := Some "0b";
     store.SpanServiceName := "svc2";
     store.SpanOperationName := "GET /new";
     store.SpanKind := "client";
     store.SpanStartTime := 2000000000;
     store.SpanEndTime := 2500000000;
     store.SpanDurationMs := 500;
     store.SpanStatusCode := 2;
     store.StatusMessage := Some "boom";
     store.SpanAttributes := None;
     store.Events := [];
     store.Links := [] |}.

Definition later_batch : store.Trace :=
  {| store.TraceID := "0102";
     store.ServiceName := "svc2";
     store.OperationName := "GET /new";
     store.StartTime := 2000000000;
     store.EndTime := 2500000000;
     store.DurationMs := 500;
     store.SpanCount := 3;
     store.ErrorCount := 1;
     store.StatusCode := 2;
     store.Attributes := None;
     store.Spans := [resent_span] |}.

End scenario.

(* ===================================================================== *)
(** * Specification vocabulary for the transformers and stores *)
(* ===================================================================== *)
(* ===================================================================== *)
(** * Reading the results of the transformers *)
(* ===================================================================== *)

(** The value of the last entry of [attrs] with key [k]. *)
Definition last_value (k : string) (attrs : list (string * PValue))
  : option PValue :=
  snd <$> last (filter (λ kv, kv.1 = k) attrs).

(** The service name the transformers derive from resource attributes
    [attrs]: the last [service.name] entry when it converts to a string. *)
Definition serviceNameOf (attrs : list (string * PValue)) : string :=
  match valueToInterface <$> last_value "service.name" attrs with
  | Some (VStr name) => name
  | _ => "unknown"
  end.

(** The scalar fields of the [store.Span] that convertSpan builds from
    [span] under the service name [serviceName]. *)
Definition converted (serviceName : string) (span : ptrace.Span)
    (cs : store.Span) : Prop :=
  store.SpanID cs = ID_String (ptrace.SpanID span)
  ∧ store.SpanTraceID cs = ID_String (ptrace.TraceID span)
  ∧ store.SpanServiceName cs = serviceName
  ∧ store.SpanOperationName cs = ptrace.Name span
  ∧ store.SpanKind cs = spanKindToString (ptrace.Kind span)
  ∧ store.SpanStartTime cs = Go.int64 (ptrace.StartTimestamp span)
  ∧ store.SpanEndTime cs = Go.int64 (ptrace.EndTimestamp span)
  ∧ store.SpanDurationMs cs
    = Go.int64 (Go.uint64 (ptrace.EndTimestamp span
                           - ptrace.StartTimestamp span)) `quot` 1000000
  ∧ store.SpanStatusCode cs = ptrace.StatusCode span.

(** The spans of a batch in source iteration order (resource-major, then
    scope, then span index), each with the service name of its resource. *)
Definition batch_spans (td : ptrace.Traces) : list (string * ptrace.Span) :=
  rs ← td;
  ss ← ptrace.ScopeSpans rs;
  span ← ss;
  [(serviceNameOf (ptrace.ResourceAttributes rs), span)].

(** The spans of [spans] that carry the trace id [id], in order. *)
Definition with_trace_id (id : string) (spans : list (string * ptrace.Span))
  : list (string * ptrace.Span) :=
  filter (λ p, ID_String (ptrace.TraceID p.2) = id) spans.

Definition start_of (p : string * ptrace.Span) : Go.Time :=
  Go.int64 (ptrace.StartTimestamp p.2).

Definition end_of (p : string * ptrace.Span) : Go.Time :=
  Go.int64 (ptrace.EndTimestamp p.2).

(** [x] is the least (greatest) element of [l]. *)
Definition least (x : Z) (l : list Z) : Prop := x ∈ l ∧ Forall (λ y, x ≤ y) l.
Definition greatest (x : Z) (l : list Z) : Prop := x ∈ l ∧ Forall (λ y, y ≤ x) l.

(** The trace aggregate [t] and span list [spans] that TransformTraces holds
    for the trace id [id] once it has gone through the spans [ss] of that
    trace. *)
Definition summarises (id : string) (ss : list (string * ptrace.Span))
    (t : store.Trace) (spans : list store.Span) : Prop :=
  Forall2 (λ p cs, converted p.1 p.2 cs) ss spans
  ∧ store.TraceID t = id
  ∧ store.SpanCount t = Z.of_nat (length ss)
  ∧ (∃ p rest, ss = p :: rest
       ∧ store.ServiceName t = p.1
       ∧ store.OperationName t = ptrace.Name p.2
       ∧ store.StatusCode t = ptrace.StatusCode p.2)
  ∧ least (store.StartTime t) (map start_of ss)
  ∧ greatest (store.EndTime t) (map end_of ss).

Definition trace_inv (acc : TraceAcc) (seen : list (string * ptrace.Span))
  : Prop :=
  ∀ id, match traces acc !! id with
        | None => with_trace_id id seen = [] ∧ allSpans acc !! id = None
        | Some t =>
            ∃ spans, allSpans acc !! id = Some spans
                     ∧ summarises id (with_trace_id id seen) t spans
        end.

(** Every timestamp of the batch is below 2^63 ns (the year 2262). *)
Definition timestamps_in_range (spans : list (string * ptrace.Span)) : Prop :=
  Forall (λ p, 0 ≤ ptrace.StartTimestamp p.2 < 2^63
               ∧ 0 ≤ ptrace.EndTimestamp p.2 < 2^63) spans.

(** No span of a trace starts before the first-seen span of that trace. *)
Definition first_span_earliest (spans : list (string * ptrace.Span)) : Prop :=
  ∀ id, match with_trace_id id spans with
        | [] => True
        | p :: rest => Forall (λ q, start_of p ≤ start_of q) rest
        end.

(** The duration of every aggregate is its end time minus its start time. *)
Definition durations_ok (acc : TraceAcc) : Prop :=
  ∀ id t, traces acc !! id = Some t →
    store.DurationMs t
    = Go.Milliseconds (Go.Sub (store.EndTime t) (store.StartTime t)).

(** The log records of an export in source iteration order, each with the
    service name of its resource. *)
Definition batch_logs (ld : plog.Logs) : list (string * plog.LogRecord) :=
  rl ← ld;
  sl ← plog.ScopeLogs rl;
  lr ← sl;
  [(serviceNameOf (plog.ResourceAttributes rl), lr)].

(** The scalar fields of the [store.LogRecord] TransformLogs builds from an
    OTLP record [p.2] of a resource named [p.1]. *)
Definition log_converted `{Fmt} (p : string * plog.LogRecord)
    (rec : logs.LogRecord) : Prop :=
  logs.Timestamp rec = Go.int64 (plog.Timestamp p.2)
  ∧ logs.SeverityText rec = plog.SeverityText p.2
  ∧ logs.SeverityNumber rec = plog.SeverityNumber p.2
  ∧ logs.Body rec = logBodyToString (plog.Body p.2)
  ∧ logs.ServiceName rec = p.1
  ∧ logs.TraceID rec
    = (if ID_IsEmpty (plog.TraceID p.2) then None
       else Some (Go.EncodeToString (plog.TraceID p.2)))
  ∧ logs.SpanID rec
    = (if ID_IsEmpty (plog.SpanID p.2) then None
       else Some (Go.EncodeToString (plog.SpanID p.2)))
  ∧ (logs.Attributes rec = None ↔ plog.Attributes p.2 = []).











(** ** Vocabulary for the logs store *)

(** No log id is stored twice and every stored id was drawn from the
    sequence. *)
Definition log_ids_fresh (d : duckdb.DB) : Prop :=
  NoDup (LogsT.id <$> duckdb.logs d)
  ∧ Forall (λ r, LogsT.id r < duckdb.logs_id_seq d) (duckdb.logs d).

(** The filters [f] with another page. *)
Definition with_page (limit offset : Z) (f : logs.LogFilters)
  : logs.LogFilters :=
  {| logs.StartTime := logs.StartTime f;
     logs.EndTime := logs.EndTime f;
     logs.FServiceName := logs.FServiceName f;
     logs.FTraceID := logs.FTraceID f;
     logs.MinSeverity := logs.MinSeverity f;
     logs.SearchText := logs.SearchText f;
     logs.Limit := limit;
     logs.Offset := offset |}.

(** The filters [f] with another trace id. *)
Definition with_trace_id_filter (traceID : string) (f : logs.LogFilters)
  : logs.LogFilters :=
  {| logs.StartTime := logs.StartTime f;
     logs.EndTime := logs.EndTime f;
     logs.FServiceName := logs.FServiceName f;
     logs.FTraceID := traceID;
     logs.MinSeverity := logs.MinSeverity f;
     logs.SearchText := logs.SearchText f;
     logs.Limit := logs.Limit f;
     logs.Offset := logs.Offset f |}.

(** What the filters of a log query ask of a row, field by field; a zero
    time, an empty string and a severity that is not positive ask nothing. *)
Definition satisfies (f : logs.LogFilters) (r : LogsT.Row) : Prop :=
  (logs.StartTime f ≠ Go.zeroTime →
     Go.UnixMicro (logs.StartTime f) ≤ LogsT.timestamp r)
  ∧ (logs.EndTime f ≠ Go.zeroTime →
     LogsT.timestamp r ≤ Go.UnixMicro (logs.EndTime f))
  ∧ (logs.FServiceName f ≠ "" → LogsT.service_name r = logs.FServiceName f)
  ∧ (logs.FTraceID f ≠ "" → LogsT.trace_id r = Some (logs.FTraceID f))
  ∧ (0 < logs.MinSeverity f → logs.MinSeverity f ≤ LogsT.severity_number r)
  ∧ (logs.SearchText f ≠ "" →
     sql.like (LogsT.body r) ("%" +:+ logs.SearchText f +:+ "%") = true).

(** A text without the two LIKE wildcards. *)
Definition wildcard_free (s : string) : Prop :=
  Forall (λ c : ascii, c ≠ "%"%char ∧ c ≠ "_"%char)
    (String.list_ascii_of_string s).

(** The filters [f] with another search text. *)
Definition with_search (text : string) (f : logs.LogFilters)
  : logs.LogFilters :=
  {| logs.StartTime := logs.StartTime f;
     logs.EndTime := logs.EndTime f;
     logs.FServiceName := logs.FServiceName f;
     logs.FTraceID := logs.FTraceID f;
     logs.MinSeverity := logs.MinSeverity f;
     logs.SearchText := text;
     logs.Limit := logs.Limit f;
     logs.Offset := logs.Offset f |}.

(** [text] occurs in [s]. *)
Definition contains (s text : string) : Prop :=
  ∃ pre post : string, s = pre +:+ text +:+ post.

(** ** Vocabulary for the traces store *)

(** The row the database keeps for a span inserted at time [now]:
    [created_at] takes its DEFAULT. *)
Definition stored_span_row (now : Z) (r : SpansT.Row) : SpansT.Row :=
  {| SpansT.span_id := SpansT.span_id r;
     SpansT.trace_id := SpansT.trace_id r;
     SpansT.parent_span_id := SpansT.parent_span_id r;
     SpansT.service_name := SpansT.service_name r;
     SpansT.operation_name := SpansT.operation_name r;
     SpansT.span_kind := SpansT.span_kind r;
     SpansT.start_time := SpansT.start_time r;
     SpansT.end_time := SpansT.end_time r;
     SpansT.duration_ms := SpansT.duration_ms r;
     SpansT.status_code := SpansT.status_code r;
     SpansT.status_message := SpansT.status_message r;
     SpansT.attributes := SpansT.attributes r;
     SpansT.events := SpansT.events r;
     SpansT.links := SpansT.links r;
     SpansT.created_at := now |}.

(** The row the database keeps for a trace first inserted at time [now]. *)
Definition stored_trace_row (now : Z) (r : TracesT.Row) : TracesT.Row :=
  {| TracesT.trace_id := TracesT.trace_id r;
     TracesT.service_name := TracesT.service_name r;
     TracesT.operation_name := TracesT.operation_name r;
     TracesT.start_time := TracesT.start_time r;
     TracesT.end_time := TracesT.end_time r;
     TracesT.duration_ms := TracesT.duration_ms r;
     TracesT.span_count := TracesT.span_count r;
     TracesT.error_count := TracesT.error_count r;
     TracesT.status_code := TracesT.status_code r;
     TracesT.attributes := TracesT.attributes r;
     TracesT.created_at := now |}.

(** The row the upsert of InsertTrace leaves under a trace id: a new trace
    is stored as bound; for a known trace only end_time, duration_ms,
    span_count and error_count are taken from the bound values. *)
Definition upserted_row (now : Z) (r : TracesT.Row) (old : option TracesT.Row)
  : TracesT.Row :=
  match old with
  | Some old =>
      {| TracesT.trace_id := TracesT.trace_id old;
         TracesT.service_name := TracesT.service_name old;
         TracesT.operation_name := TracesT.operation_name old;
         TracesT.start_time := TracesT.start_time old;
         TracesT.end_time := TracesT.end_time r;
         TracesT.duration_ms := TracesT.duration_ms r;
         TracesT.span_count := TracesT.span_count r;
         TracesT.error_count := TracesT.error_count r;
         TracesT.status_code := TracesT.status_code old;
         TracesT.attributes := TracesT.attributes old;
         TracesT.created_at := TracesT.created_at old |}
  | None => stored_trace_row now r
  end.

(** The database [d] when its clock shows [now]. *)
Definition at_time (now : Z) (d : duckdb.DB) : duckdb.DB :=
  {| duckdb.traces := duckdb.traces d;
     duckdb.spans := duckdb.spans d;
     duckdb.logs := duckdb.logs d;
     duckdb.metrics := duckdb.metrics d;
     duckdb.logs_id_seq := duckdb.logs_id_seq d;
     duckdb.current_timestamp := now |}.

(** ** Vocabulary for the comparison endpoint *)

Definition Zsum (l : list Z) : Z := foldr Z.add 0 l.

(** [x] is the least (greatest) value of the column [g] over [rows]. *)
Definition least_of {A} (g : A → Z) (x : Z) (rows : list A) : Prop :=
  x ∈ map g rows ∧ Forall (λ t, x ≤ g t) rows.

Definition greatest_of {A} (g : A → Z) (x : Z) (rows : list A) : Prop :=
  x ∈ map g rows ∧ Forall (λ t, g t ≤ x) rows.

(** ** Vocabulary for the metric aggregation *)




(* ===================================================================== *)
(** * The OTLP receiver: traces *)
(* ===================================================================== *)

(** The [for _, trace := range traces] loop of processTraces. *)
Fixpoint processTracesLoop `{Engine} (h : Heap) (d : duckdb.DB)
    (traces : list store.Trace) : duckdb.DB * Result unit :=
  match traces with
  | [] => (d, Success tt)
  | trace :: rest =>
      match InsertTrace h d trace with
      | (d', Failure err) => (d', Failure err)
      | (d', Success _) => processTracesLoop h d' rest
      end
  end.

(** processTraces transforms and stores traces. *)
Definition processTraces `{Engine} (d : duckdb.DB) (td : ptrace.Traces)
  : M (duckdb.DB * Result unit) :=
  traces ← TransformTraces td;
  h ← get_heap;
  mret (processTracesLoop h d traces).

(* ===================================================================== *)
(** * internal/store: further queries *)
(* ===================================================================== *)

Module query.

(** Predicates of the WHERE clause over [traces]. *)
Inductive TraceCond :=
  | ServiceNameEq (s : string)      (* service_name = ? *)
  | DurationGe (n : Z)              (* duration_ms >= ? *)
  | DurationLe (n : Z)              (* duration_ms <= ? *)
  | HasErrors                       (* error_count > 0 *)
  | SearchLike (pattern : string)   (* (operation_name LIKE ? OR trace_id LIKE ?) *)
  | StartTimeGe (t : Go.Time)       (* start_time >= ? *)
  | StartTimeLe (t : Go.Time).      (* start_time <= ? *)

(** The read-only statements of GetLogsByTraceID, GetTraces and
    GetServices. *)
Inductive Query :=
  | SelectLogsByTraceID (traceID : string)
  | SelectTraces (conds : list TraceCond) (limit offset : Z)
  | SelectServices.

Definition eval_cond (r : TracesT.Row) (c : TraceCond) : bool :=
  match c with
  | ServiceNameEq s => bool_decide (TracesT.service_name r = s)
  | DurationGe n => bool_decide (n ≤ TracesT.duration_ms r)
  | DurationLe n => bool_decide (TracesT.duration_ms r ≤ n)
  | HasErrors => bool_decide (0 < TracesT.error_count r)
  | SearchLike p =>
      sql.like (TracesT.operation_name r) p || sql.like (TracesT.trace_id r) p
  | StartTimeGe t => bool_decide (Go.UnixMicro t ≤ TracesT.start_time r)
  | StartTimeLe t => bool_decide (TracesT.start_time r ≤ Go.UnixMicro t)
  end.

(** ORDER BY timestamp ASC. *)
Definition older_first (a b : LogsT.Row) : Prop :=
  LogsT.timestamp a ≤ LogsT.timestamp b.

(** ORDER BY start_time DESC. *)
Definition later_first (a b : TracesT.Row) : Prop :=
  TracesT.start_time b ≤ TracesT.start_time a.

(** ORDER BY service_name, in the binary collation. *)
Definition name_le (a b : string) : Prop := String.leb a b = true.

#[global] Instance older_first_dec a b : Decision (older_first a b).
Proof. unfold older_first. apply _. Defined.

#[global] Instance later_first_dec a b : Decision (later_first a b).
Proof. unfold later_first. apply _. Defined.

#[global] Instance name_le_dec a b : Decision (name_le a b).
Proof. unfold name_le. apply _. Defined.

End query.

(** Errors the database reports for the read-only statements, as [fault]
    does for the statements of [duckdb.Stmt]. *)
Class QueryEngine := {
  query_fault : query.Query → option string;
}.

(** GetLogsByTraceID retrieves all logs associated with a trace. *)
Definition GetLogsByTraceID `{QueryEngine} (d : duckdb.DB) (traceID : string)
  : Result (list LogsT.Row) :=
  match query_fault (query.SelectLogsByTraceID traceID) with
  | Some err => Failure ("failed to query logs: " +:+ err)
  | None =>
      Success (merge_sort query.older_first
                 (List.filter
                    (λ r, match LogsT.trace_id r with
                          | Some t => bool_decide (t = traceID)
                          | None => false
                          end) (duckdb.logs d)))
  end.

Module filters.


End filters.



(** GetServices returns a list of unique service names. *)
Definition GetServices `{QueryEngine} (d : duckdb.DB) : Result (list string) :=
  match query_fault query.SelectServices with
  | Some err => Failure ("failed to query services: " +:+ err)
  | None =>
      Success
        (merge_sort query.name_le
           (remove_dups (TracesT.service_name <$> (map_to_list (duckdb.traces d)).*2)))
  end.


Module queries.

(** A query engine that never reports a fault. *)
Definition no_faults : QueryEngine := {| query_fault := λ _, None |}.


End queries.

(* ===================================================================== *)
(** * More concrete inputs *)
(* ===================================================================== *)

Module examples.

(** A root span from 1.0 s to 1.1 s followed by a child from 1.05 s to
    1.3 s that outlives it. *)
Definition root_first : ptrace.Traces :=
  scenario.batch [scenario.span x01 1000000000 1100000000 ptrace.StatusCodeUnset;
                  scenario.span x02 1050000000 1300000000 ptrace.StatusCodeUnset].




(** A log record without attributes, and a request for two of them. *)
Definition info_log : logs.LogRecord :=
  {| logs.ID := 0;
     logs.Timestamp := 1000000000;
     logs.TraceID := Some "0102030405060708090a0b0c0d0e0f10";
     logs.SpanID := None;
     logs.SeverityText := "INFO";
     logs.SeverityNumber := 9;
     logs.Body := "request served";
     logs.ServiceName := "svc1";
     logs.Attributes := None;
     logs.ResourceAttributes := None |}.

End examples.

(* ===================================================================== *)
(** * Properties *)
(* ===================================================================== *)

(** ** The heap monad *)

Lemma bind_Ok {A B} (m : M A) (f : A → M B) h a h' :
  m h = Ok a h' → (m ≫= f) h = f a h'.
Proof. intros E. unfold mbind, M_bind. by rewrite E. Qed.

Lemma bind_Panic {A B} (m : M A) (f : A → M B) h msg :
  m h = Panic msg → (m ≫= f) h = Panic msg.
Proof. intros E. unfold mbind, M_bind. by rewrite E. Qed.

(** Storing a list of entries through a non-nil reference never panics and
    writes only the map behind that reference. *)
Lemma for_each_store {A} (key : A → string) (val : A → Val) l xs (h : Heap) :
  for_each xs (λ x, map_store (Some l) (key x) (val x)) h
  = Ok tt (match xs with
           | [] => h
           | _ => <[l := store_all (map (λ x, (key x, val x)) xs)
                           (default ∅ (h !! l))]> h
           end).
Proof.
  revert h. induction xs as [|x xs IH]; intros h; [done|].
  cbn. unfold mbind, M_bind. cbn. rewrite IH. f_equal.
  destruct xs as [|x' xs]; [done|].
  rewrite lookup_insert_eq. cbn. by rewrite insert_insert_eq.
Qed.

Lemma store_all_lookup kvs (b : gmap string Val) k :
  NoDup kvs.*1 →
  store_all kvs b !! k
  = match (list_to_map kvs : gmap string Val) !! k with
    | Some v => Some v
    | None => b !! k
    end.
Proof.
  revert b. induction kvs as [|[k' v'] kvs IH]; intros b Hnd; cbn.
  - by rewrite lookup_empty.
  - apply NoDup_cons in Hnd as [Hk' Hnd]. unfold store_all in *.
    rewrite IH by done.
    destruct (decide (k' = k)) as [->|Hne].
    + rewrite lookup_insert_eq, (not_elem_of_list_to_map_1 _ k Hk').
      by rewrite lookup_insert_eq.
    + by rewrite !(lookup_insert_ne _ k' k).
Qed.

(** Storing every entry of a map [m] into [b] gives [m ∪ b]. *)
Lemma store_all_map_to_list (m b : gmap string Val) :
  store_all (map_to_list m) b = m ∪ b.
Proof.
  apply map_eq. intros k.
  rewrite store_all_lookup by apply NoDup_fst_map_to_list.
  rewrite list_to_map_to_list, lookup_union.
  destruct (m !! k), (b !! k); done.
Qed.

Lemma for_each_store_alloc {A} (key : A → string) (val : A → Val) l xs
    (h : Heap) (m : gmap string Val) :
  h !! l = Some m →
  for_each xs (λ x, map_store (Some l) (key x) (val x)) h
  = Ok tt (<[l := store_all (map (λ x, (key x, val x)) xs) m]> h).
Proof.
  intros Hl. rewrite for_each_store. destruct xs as [|x xs].
  - cbn. by rewrite insert_id.
  - by rewrite Hl.
Qed.

Lemma deref_insert_fresh (h : Heap) l m r :
  h !! l = None → deref (<[l := m]> h) r = if decide (r = Some l) then m else deref h r.
Proof.
  intros Hl. destruct r as [l'|]; cbn; [|done].
  destruct (decide (l = l')) as [->|Hne].
  - rewrite lookup_insert_eq. by rewrite decide_True.
  - rewrite lookup_insert_ne by done. rewrite decide_False by congruence. done.
Qed.

Lemma deref_dangling (h : Heap) l : h !! l = None → deref h (Some l) = ∅.
Proof. intros Hl. cbn. by rewrite Hl. Qed.

(** mergeAttributes allocates one new map holding [m2 ∪ m1] (left-biased:
    the entries of [m2] win) and changes nothing else. *)
Lemma mergeAttributes_spec (m1 m2 : mapref) (h : Heap) :
  mergeAttributes m1 m2 h
  = Ok (Some (fresh (dom h)))
       (<[fresh (dom h) := deref h m2 ∪ deref h m1]> h).
Proof.
  set (l := fresh (dom h)).
  assert (Hl : h !! l = None) by (apply not_elem_of_dom, is_fresh).
  assert (Hd : ∀ r, deref (<[l := ∅]> h) r = deref h r).
  { intros r. rewrite deref_insert_fresh by done. case_decide as E; [|done].
    subst r. by rewrite deref_dangling. }
  unfold mergeAttributes.
  rewrite (bind_Ok _ _ h (Some l) (<[l := ∅]> h)) by done.
  erewrite (bind_Ok (map_range m1)) by reflexivity.
  erewrite bind_Ok; [|apply (for_each_store_alloc fst snd), lookup_insert_eq].
  rewrite insert_insert_eq.
  erewrite (bind_Ok (map_range m2)) by reflexivity.
  erewrite bind_Ok; [|apply (for_each_store_alloc fst snd), lookup_insert_eq].
  rewrite insert_insert_eq. cbn. unfold mret, M_ret. f_equal. f_equal.
  assert (Hid : ∀ kvs : list (string * Val), map (λ x, (x.1, x.2)) kvs = kvs).
  { intros kvs. induction kvs as [|[??] ? IH]; cbn; by f_equal. }
  rewrite !Hid.
  rewrite deref_insert_fresh by done.
  rewrite (deref_insert_fresh h l _ m1) by done.
  rewrite !store_all_map_to_list.
  repeat case_decide; subst; rewrite ?deref_dangling by done;
    rewrite ?(left_id_L ∅ (∪)), ?(right_id_L ∅ (∪)); try done.
  apply (idemp (∪)).
Qed.

(** ** C9: merging attribute maps *)

(** C9.  For any two attribute mappings [m1] and [m2] (nil or not),
    mergeAttributes returns a mapping that did not exist before, whose
    keys are those of [m1] and [m2] with the value of [m2] on every key
    they share, and every mapping of the heap it started from, [m1] and
    [m2] included, is left as it was. *)
Theorem mergeAttributes_merges_without_mutation (m1 m2 : mapref) (h : Heap) :
  ∃ (r : positive) (h' : Heap),
    mergeAttributes m1 m2 h = Ok (Some r) h'
    ∧ h !! r = None
    ∧ (∀ k, deref h' (Some r) !! k
            = match deref h m2 !! k with
              | Some v => Some v
              | None => deref h m1 !! k
              end)
    ∧ (∀ l m, h !! l = Some m → h' !! l = Some m).
Proof.
  exists (fresh (dom h)), (<[fresh (dom h) := deref h m2 ∪ deref h m1]> h).
  assert (Hl : h !! fresh (dom h) = None) by (apply not_elem_of_dom, is_fresh).
  split; [apply mergeAttributes_spec|]. split; [done|]. split.
  - intros k. cbn. rewrite lookup_insert_eq. cbn. rewrite lookup_union.
    destruct (deref h m2 !! k), (deref h m1 !! k); done.
  - intros l m Hm. rewrite lookup_insert_ne; [done|]. congruence.
Qed.

(** ** Code that cannot panic *)

Lemma returns_ret {A} (P : A → Prop) a : P a → returns P (mret a).
Proof. intros HP h. by exists a, h. Qed.

Lemma returns_bind {A B} (Q : A → Prop) (P : B → Prop) (m : M A) (f : A → M B) :
  returns Q m → (∀ a, Q a → returns P (f a)) → returns P (m ≫= f).
Proof.
  intros Hm Hf h. destruct (Hm h) as (a & h1 & E & HQ).
  destruct (Hf a HQ h1) as (b & h2 & E' & HP).
  exists b, h2. split; [|done]. by rewrite (bind_Ok _ _ _ _ _ E).
Qed.

Lemma returns_weaken {A} (P Q : A → Prop) (m : M A) :
  returns P m → (∀ a, P a → Q a) → returns Q m.
Proof.
  intros Hm HPQ h. destruct (Hm h) as (a & h' & E & HP). exists a, h'. auto.
Qed.

Lemma returns_foldM {S A} (I : S → Prop) (body : S → A → M S) s xs :
  I s → (∀ s x, I s → returns I (body s x)) → returns I (foldM body s xs).
Proof.
  intros Hs Hbody. revert s Hs. induction xs as [|x xs IH]; intros s Hs; cbn.
  - by apply returns_ret.
  - eapply returns_bind; [by apply Hbody|]. intros s' Hs'. by apply IH.
Qed.

Lemma returns_mapM {A B} (body : A → M B) xs :
  (∀ x, returns (λ _, True) (body x)) → returns (λ _, True) (mapM body xs).
Proof.
  intros Hbody. induction xs as [|x xs IH]; cbn.
  - by apply returns_ret.
  - eapply returns_bind; [apply Hbody|]. intros y _.
    eapply returns_bind; [apply IH|]. intros ys _. by apply returns_ret.
Qed.

Lemma returns_attributesToMap attrs : returns (λ _, True) (attributesToMap attrs).
Proof.
  intros h. unfold attributesToMap. case_bool_decide.
  - by exists None, h.
  - eexists _, _. split; [|done].
    rewrite (bind_Ok _ _ h (Some (fresh (dom h))) (<[fresh (dom h) := ∅]> h)) by done.
    erewrite bind_Ok; [reflexivity|].
    apply (for_each_store_alloc fst (λ kv, valueToInterface kv.2)), lookup_insert_eq.
Qed.

Lemma returns_mergeAttributes m1 m2 : returns (λ _, True) (mergeAttributes m1 m2).
Proof. intros h. eexists _, _. split; [apply mergeAttributes_spec|done]. Qed.

Lemma returns_extractServiceName attrs : returns (λ _, True) (extractServiceName attrs).
Proof.
  intros h. unfold extractServiceName.
  destruct (deref h attrs !! "service.name") as [[]|]; eauto.
Qed.

Lemma returns_convertEvents events : returns (λ _, True) (convertEvents events).
Proof.
  unfold convertEvents. case_bool_decide; [by apply returns_ret|].
  apply returns_mapM. intros e.
  eapply returns_bind; [apply returns_attributesToMap|].
  intros ? _. by apply returns_ret.
Qed.

Lemma returns_convertLinks links : returns (λ _, True) (convertLinks links).
Proof.
  unfold convertLinks. case_bool_decide; [by apply returns_ret|].
  apply returns_mapM. intros e.
  eapply returns_bind; [apply returns_attributesToMap|].
  intros ? _. by apply returns_ret.
Qed.

(** convertSpan copies the trace id and the status code of the span. *)
Lemma returns_convertSpan serviceName span :
  returns (λ cs, store.SpanTraceID cs = ID_String (ptrace.TraceID span)
                 ∧ store.SpanStatusCode cs = ptrace.StatusCode span)
    (convertSpan serviceName span).
Proof.
  unfold convertSpan.
  eapply returns_bind; [apply returns_attributesToMap|]. intros attrs _.
  eapply returns_bind; [apply returns_convertEvents|]. intros events _.
  eapply returns_bind; [apply returns_convertLinks|]. intros links _.
  by apply returns_ret.
Qed.

(** ** C1, C2: what the trace transformer maintains *)

Lemma count_errors_app xs ys :
  count_errors (xs ++ ys) = count_errors xs + count_errors ys.
Proof. unfold count_errors. rewrite filter_app, length_app. lia. Qed.

Ltac trace_fields :=
  unfold updateTrace, Go.Before, Go.After,
    store.set_SpanCount, store.set_StartTime, store.set_EndTime,
    store.set_DurationMs, store.set_ErrorCount, store.set_Spans, Go.Time in *;
  repeat case_bool_decide; cbn in *.

Lemma updateTrace_SpanCount cs t :
  store.SpanCount (updateTrace cs t) = store.SpanCount t + 1.
Proof. trace_fields; reflexivity. Qed.

Lemma updateTrace_ErrorCount cs t :
  store.ErrorCount (updateTrace cs t)
  = store.ErrorCount t + count_errors [cs].
Proof.
  unfold count_errors. cbn. case_decide as E.
  - trace_fields; try done; lia.
  - trace_fields; try done; lia.
Qed.

Lemma updateTrace_StartTime cs t :
  store.StartTime (updateTrace cs t)
  = Z.min (store.SpanStartTime cs) (store.StartTime t).
Proof.
  trace_fields; lia.
Qed.

Lemma updateTrace_EndTime cs t :
  store.EndTime (updateTrace cs t)
  = Z.max (store.SpanEndTime cs) (store.EndTime t).
Proof.
  trace_fields; lia.
Qed.

(** The duration is recomputed only in the branch that moves the end. *)
Lemma updateTrace_DurationMs cs t :
  store.DurationMs (updateTrace cs t)
  = if Go.After (store.SpanEndTime cs) (store.EndTime t)
    then Go.Milliseconds
           (Go.Sub (store.SpanEndTime cs)
              (Z.min (store.SpanStartTime cs) (store.StartTime t)))
    else store.DurationMs t.
Proof.
  trace_fields; try reflexivity; try lia; do 2 f_equal; lia.
Qed.

Lemma aggregates_first cs t :
  store.SpanCount t = 1 → store.ErrorCount t = 0 →
  store.StartTime t = store.SpanStartTime cs →
  store.EndTime t = store.SpanEndTime cs →
  aggregates t [cs].
Proof.
  intros Hc He Hs Hn. repeat split; [done|done|done|].
  constructor; [lia|constructor].
Qed.

Lemma aggregates_update cs t spans :
  aggregates t spans → aggregates (updateTrace cs t) (spans ++ [cs]).
Proof.
  intros (Hne & Hc & He & Hw). repeat split.
  - by destruct spans.
  - rewrite updateTrace_SpanCount, length_app, Hc. cbn. lia.
  - rewrite updateTrace_ErrorCount, He.
    destruct spans as [|s spans]; [done|]. cbn. by rewrite count_errors_app.
  - rewrite updateTrace_StartTime, updateTrace_EndTime.
    apply Forall_app. split.
    + eapply Forall_impl; [exact Hw|]. cbn. lia.
    + constructor; [lia|constructor].
Qed.

Lemma acc_inv_addSpan resourceAttrs serviceName acc span :
  acc_inv acc → returns acc_inv (addSpan resourceAttrs serviceName acc span).
Proof.
  intros Hacc. unfold addSpan.
  eapply returns_bind; [apply returns_convertSpan|]. intros cs _.
  pose proof (Hacc (store.SpanTraceID cs)) as Hid.
  destruct (traces acc !! store.SpanTraceID cs) as [t|] eqn:Et.
  - destruct Hid as (spans & Es & Hag).
    apply returns_ret. intros id. cbn.
    destruct (decide (store.SpanTraceID cs = id)) as [<-|Hne].
    + rewrite !lookup_insert_eq, Es. eexists. split; [done|].
      by apply aggregates_update.
    + rewrite !lookup_insert_ne by done. apply Hacc.
  - eapply returns_bind; [apply returns_mergeAttributes|]. intros attrs _.
    apply returns_ret. intros id. cbn.
    destruct (decide (store.SpanTraceID cs = id)) as [<-|Hne].
    + rewrite !lookup_insert_eq, Hid. eexists. split; [done|].
      by apply aggregates_first.
    + rewrite !lookup_insert_ne by done. apply Hacc.
Qed.

(** TransformTraces never panics, and every trace it emits carries the
    spans collected for it, counts all of them, counts the Error spans
    after the first, and spans a window that covers them all. *)
Lemma TransformTraces_aggregates td :
  returns (Forall (λ t, aggregates t (store.Spans t))) (TransformTraces td).
Proof.
  unfold TransformTraces.
  eapply (returns_bind acc_inv).
  - apply returns_foldM.
    + intros id. cbn. by rewrite !lookup_empty.
    + intros acc rs Hacc.
      eapply returns_bind; [apply returns_attributesToMap|]. intros ra _.
      eapply returns_bind; [apply returns_extractServiceName|]. intros sn _.
      apply returns_foldM; [done|]. intros acc' ss Hacc'.
      apply returns_foldM; [done|]. intros acc'' span Hacc''.
      by apply acc_inv_addSpan.
  - intros acc Hacc. apply returns_ret.
    apply Forall_fmap, Forall_forall. intros [id t] Hin. cbn.
    apply elem_of_map_to_list in Hin. specialize (Hacc id).
    rewrite Hin in Hacc. destruct Hacc as (spans & -> & Hag). cbn.
    destruct Hag as (? & ? & ? & ?). by repeat split.
Qed.

(** C1.  The design document asks that the error count of an emitted trace
    equal the number of its spans with status Error.  On a batch whose
    trace has a single span, of status Error, TransformTraces emits the
    trace with that span attached and an error count of 0: the aggregate
    is seeded with [ErrorCount: 0] whatever the status of the first span
    (see [TransformTraces_aggregates] for the general form). *)
Theorem TransformTraces_first_error_span_not_counted :
  ∃ (t : store.Trace) (h : Heap),
    TransformTraces scenario.error_first ∅ = Ok [t] h
    ∧ count_errors (store.Spans t) = 1
    ∧ store.ErrorCount t = 0.
Proof.
  eexists _, _. split; [vm_compute; reflexivity|]. by vm_compute.
Qed.

(** C2.  The design document asks that the duration of an emitted trace be
    its end time minus its start time.  When a later span starts before the
    trace and ends inside it, TransformTraces moves the start of the trace
    and keeps the old duration: here the window is 0.9 s to 1.1 s (200 ms)
    and the duration stays at the 100 ms of the first span. *)
Theorem TransformTraces_duration_stale_after_start_widens :
  ∃ (t : store.Trace) (h : Heap),
    TransformTraces scenario.start_widened ∅ = Ok [t] h
    ∧ store.StartTime t = 900000000
    ∧ store.EndTime t = 1100000000
    ∧ Go.Milliseconds (Go.Sub (store.EndTime t) (store.StartTime t)) = 200
    ∧ store.DurationMs t = 100.
Proof.
  eexists _, _. split; [vm_compute; reflexivity|]. by vm_compute.
Qed.

(** ** C6: shape metadata written into the attribute map *)

Lemma attributesToMap_empty h : attributesToMap [] h = Ok None h.
Proof. reflexivity. Qed.

(** A histogram data point without attributes makes transformHistogram write
    through the nil map, whatever else the batch holds. *)
Lemma transformHistogram_no_attributes_panics dp dps name svc ra h :
  pmetric.HAttributes dp = [] →
  transformHistogram (dp :: dps) name svc ra h = Panic nil_map_write.
Proof.
  intros E. unfold transformHistogram. cbn. rewrite E.
  apply bind_Panic. by erewrite bind_Ok by apply attributesToMap_empty.
Qed.

Lemma transformExponentialHistogram_no_attributes_panics dp dps name svc ra h :
  pmetric.EAttributes dp = [] →
  transformExponentialHistogram (dp :: dps) name svc ra h = Panic nil_map_write.
Proof.
  intros E. unfold transformExponentialHistogram. cbn. rewrite E.
  apply bind_Panic. by erewrite bind_Ok by apply attributesToMap_empty.
Qed.

Lemma transformSummary_no_attributes_panics dp dps name svc ra h :
  pmetric.SAttributes dp = [] →
  transformSummary (dp :: dps) name svc ra h = Panic nil_map_write.
Proof.
  intros E. unfold transformSummary. cbn. rewrite E.
  apply bind_Panic. by erewrite bind_Ok by apply attributesToMap_empty.
Qed.

(** attributesToMap gives a non-nil map for a non-empty collection. *)
Lemma returns_attributesToMap_nonempty attrs :
  attrs ≠ [] → returns (λ r, r ≠ None) (attributesToMap attrs).
Proof.
  intros Hne h. unfold attributesToMap.
  rewrite bool_decide_false by (by destruct attrs).
  eexists _, _. split.
  - rewrite (bind_Ok _ _ h (Some (fresh (dom h))) (<[fresh (dom h) := ∅]> h)) by done.
    erewrite bind_Ok; [reflexivity|].
    apply (for_each_store_alloc fst (λ kv, valueToInterface kv.2)), lookup_insert_eq.
  - done.
Qed.

Lemma returns_map_store r k v : r ≠ None → returns (λ _, True) (map_store r k v).
Proof. intros Hr h. destruct r; [|done]. by eexists _, _. Qed.

Lemma returns_mapM_Forall {A B} (P : A → Prop) (body : A → M B) xs :
  Forall P xs → (∀ x, P x → returns (λ _, True) (body x)) →
  returns (λ _, True) (mapM body xs).
Proof.
  intros Hxs Hbody. induction Hxs as [|x xs Hx _ IH]; cbn.
  - by apply returns_ret.
  - eapply returns_bind; [by apply Hbody|]. intros y _.
    eapply returns_bind; [apply IH|]. intros ys _. by apply returns_ret.
Qed.

Lemma returns_convertExemplars exs : returns (λ _, True) (convertExemplars exs).
Proof.
  unfold convertExemplars. case_bool_decide; [by apply returns_ret|].
  apply returns_mapM. intros ex.
  eapply returns_bind; [apply returns_attributesToMap|].
  intros ? _. by apply returns_ret.
Qed.

(** Gauge and sum data points never make the transformer panic. *)
Lemma returns_transformNumber ty dps name svc ra :
  returns (λ _, True) (transformNumber ty dps name svc ra).
Proof.
  apply returns_mapM. intros dp.
  eapply returns_bind; [apply returns_attributesToMap|]. intros a _.
  eapply returns_bind; [apply returns_mergeAttributes|]. intros m _.
  eapply returns_bind; [apply returns_convertExemplars|]. intros e _.
  by apply returns_ret.
Qed.

(** Histogram data points that all carry at least one attribute are
    transformed without a panic. *)
Lemma returns_transformHistogram dps name svc ra :
  Forall (λ dp, pmetric.HAttributes dp ≠ []) dps →
  returns (λ _, True) (transformHistogram dps name svc ra).
Proof.
  intros Hdps. eapply returns_mapM_Forall; [exact Hdps|]. intros dp Hdp. cbn beta.
  eapply returns_bind; [by apply returns_attributesToMap_nonempty|].
  intros attrs Hattrs.
  do 3 (eapply returns_bind; [by apply returns_map_store|]; intros _ _).
  eapply returns_bind; [apply returns_mergeAttributes|]. intros m _.
  eapply returns_bind; [apply returns_convertExemplars|]. intros e _.
  by apply returns_ret.
Qed.

Lemma allocates_ret {A} (a : A) : allocates (mret a).
Proof. intros h. by exists a, h. Qed.

Lemma allocates_bind {A B} (m : M A) (f : A → M B) :
  allocates m → (∀ a, allocates (f a)) → allocates (m ≫= f).
Proof.
  intros Hm Hf h. destruct (Hm h) as (a & h1 & E & Hsub).
  destruct (Hf a h1) as (b & h2 & E' & Hsub').
  exists b, h2. split; [by rewrite (bind_Ok _ _ _ _ _ E)|].
  by transitivity h1.
Qed.

Lemma allocates_mapM {A B} (body : A → M B) xs :
  (∀ x, allocates (body x)) → allocates (mapM body xs).
Proof.
  intros Hbody. induction xs as [|x xs IH]; cbn.
  - apply allocates_ret.
  - apply allocates_bind; [apply Hbody|]. intros y.
    apply allocates_bind; [apply IH|]. intros ys. apply allocates_ret.
Qed.

Lemma attributesToMap_nonempty attrs (h : Heap) :
  attrs ≠ [] →
  attributesToMap attrs h
  = Ok (Some (fresh (dom h)))
       (<[fresh (dom h) :=
            store_all (map (λ kv, (kv.1, valueToInterface kv.2)) attrs) ∅]> h).
Proof.
  intros Hne. unfold attributesToMap.
  rewrite bool_decide_false by (by destruct attrs).
  rewrite (bind_Ok _ _ h (Some (fresh (dom h))) (<[fresh (dom h) := ∅]> h)) by done.
  erewrite bind_Ok;
    [|apply (for_each_store_alloc fst (λ kv, valueToInterface kv.2)),
        lookup_insert_eq].
  by rewrite insert_insert_eq.
Qed.

Lemma allocates_attributesToMap attrs : allocates (attributesToMap attrs).
Proof.
  intros h. destruct attrs as [|kv attrs].
  - by exists None, h.
  - eexists _, _. split; [by apply attributesToMap_nonempty|].
    apply insert_subseteq, not_elem_of_dom, is_fresh.
Qed.

Lemma allocates_convertExemplars exs : allocates (convertExemplars exs).
Proof.
  unfold convertExemplars. case_bool_decide; [apply allocates_ret|].
  apply allocates_mapM. intros ex.
  apply allocates_bind; [apply allocates_attributesToMap|].
  intros ?. apply allocates_ret.
Qed.

Lemma map_store_insert l k v m (h : Heap) :
  map_store (Some l) k v (<[l := m]> h) = Ok tt (<[l := <[k := v]> m]> h).
Proof. unfold map_store. by rewrite lookup_insert_eq, insert_insert_eq. Qed.

(** For a histogram data point with at least one attribute the record is
    produced, its value is the sum, and its attribute map holds [count],
    [sum] and [buckets], whatever the resource attributes are. *)
Lemma transformHistogram_shape dp name svc ra (h : Heap) :
  pmetric.HAttributes dp ≠ [] →
  ∃ record (h' : Heap),
    transformHistogram [dp] name svc ra h = Ok [record] h'
    ∧ metrics.Value record = Some (pmetric.HSum dp)
    ∧ deref h' (metrics.Attributes record) !! "count"
      = Some (VInt (pmetric.HCount dp))
    ∧ deref h' (metrics.Attributes record) !! "sum"
      = Some (VDouble (pmetric.HSum dp))
    ∧ deref h' (metrics.Attributes record) !! "buckets"
      = Some (VSlice (histogramBuckets (pmetric.BucketCounts dp)
                        (pmetric.ExplicitBounds dp))).
Proof.
  intros Hne.
  set (l1 := fresh (dom h)).
  set (c0 := store_all (map (λ kv, (kv.1, valueToInterface kv.2))
                          (pmetric.HAttributes dp)) ∅).
  set (buckets := VSlice (histogramBuckets (pmetric.BucketCounts dp)
                            (pmetric.ExplicitBounds dp))).
  set (c3 := <["buckets" := buckets]>
               (<["sum" := VDouble (pmetric.HSum dp)]>
                  (<["count" := VInt (pmetric.HCount dp)]> c0))).
  set (h2 := <[l1 := c3]> h).
  set (l2 := fresh (dom h2)).
  set (h3 := <[l2 := deref h2 (Some l1) ∪ deref h2 ra]> h2).
  destruct (allocates_convertExemplars (pmetric.HExemplars dp) h3)
    as (exs & h4 & E4 & Hsub).
  eexists _, h4. split.
  { unfold transformHistogram. cbn [mapM].
    erewrite bind_Ok; [reflexivity|].
    rewrite (bind_Ok _ _ _ _ _ (attributesToMap_nonempty _ h Hne)).
    do 3 rewrite (bind_Ok _ _ _ _ _ (map_store_insert _ _ _ _ _)).
    rewrite (bind_Ok _ _ _ _ _ (mergeAttributes_spec ra (Some l1) h2)).
    rewrite (bind_Ok _ _ _ _ _ E4). reflexivity. }
  split; [reflexivity|].
  - assert (Hl2 : h4 !! l2 = Some (c3 ∪ deref h2 ra)).
    { eapply lookup_weaken; [|exact Hsub]. unfold h3.
      rewrite lookup_insert_eq. do 2 f_equal. unfold h2. cbn.
      by rewrite lookup_insert_eq. }
    cbn. unfold l2 in Hl2. rewrite Hl2. cbn.
    repeat split; (apply lookup_union_Some_l; unfold c3);
      repeat first [ rewrite lookup_insert_eq | rewrite lookup_insert_ne by done ];
      reflexivity.
Qed.

(** C6.  TransformMetrics is expected to return for every payload.  On a
    payload with one histogram data point that carries no attributes,
    attributesToMap returns the nil map and the statement
    [attrs["count"] = dp.Count()] panics: no record is produced. *)
Theorem TransformMetrics_histogram_without_attributes_panics :
  TransformMetrics scenario.bare_histogram ∅ = Panic nil_map_write.
Proof. vm_compute. reflexivity. Qed.

(** ** C3: batches of log records *)

Lemma exec_InsertLog_logs `{Engine} r d d' res :
  engine.exec (duckdb.InsertLog r) d = (d', res) →
  match res with
  | Success _ => ∃ row, duckdb.logs d' = duckdb.logs d ++ [row]
                        ∧ log_columns row = log_columns r
                        ∧ fault (duckdb.InsertLog r) = None
  | Failure _ => d' = d ∧ fault (duckdb.InsertLog r) ≠ None
  end.
Proof.
  unfold engine.exec. destruct (fault _); intros [= <- <-]; [done|].
  cbn. eexists. repeat split; reflexivity.
Qed.

(** The loop of InsertLogs appends one row per record it gets through. *)
Lemma insertLogsLoop_appends `{Engine} h tx logs tx' res :
  insertLogsLoop h tx logs = (tx', res) →
  ∃ rows, duckdb.logs tx' = duckdb.logs tx ++ rows
          ∧ (res = Success tt →
             map log_columns rows = map (λ l, log_columns (logValues h l)) logs).
Proof.
  revert tx. induction logs as [|log rest IH]; intros tx; cbn.
  - intros [= <- <-]. exists []. by rewrite app_nil_r.
  - destruct (engine.exec _ tx) as [tx1 [[]|err]] eqn:E; cbn.
    + apply exec_InsertLog_logs in E as (row & Erow & Ecols & _).
      intros (rows & Erows & Hres)%IH. exists (row :: rows). split.
      * by rewrite Erows, Erow, <- app_assoc.
      * intros ?. cbn. rewrite Hres by done. by rewrite Ecols.
    + apply exec_InsertLog_logs in E as [-> _]. intros [= <- <-].
      exists []. by rewrite app_nil_r.
Qed.

(** InsertLogs is all-or-nothing: when it reports an error, no table of
    the database has changed. *)
Lemma InsertLogs_failure_leaves_tables `{Engine} h d logs d' err :
  InsertLogs h d logs = (d', Failure err) →
  duckdb.logs d' = duckdb.logs d
  ∧ duckdb.traces d' = duckdb.traces d
  ∧ duckdb.spans d' = duckdb.spans d
  ∧ duckdb.metrics d' = duckdb.metrics d.
Proof.
  unfold InsertLogs. case_bool_decide; [done|].
  destruct (fault duckdb.Begin); [by intros [= <- _]|].
  destruct (insertLogsLoop h d logs) as [tx [[]|err']].
  - destruct (fault duckdb.Commit); [by intros [= <- _]|done].
  - by intros [= <- _].
Qed.

(** When InsertLogs succeeds, every record of the batch has been added. *)
Lemma InsertLogs_success_inserts_all `{Engine} h d logs d' :
  InsertLogs h d logs = (d', Success tt) →
  ∃ rows, duckdb.logs d' = duckdb.logs d ++ rows
          ∧ map log_columns rows = map (λ l, log_columns (logValues h l)) logs.
Proof.
  unfold InsertLogs. case_bool_decide as Hlen.
  - intros [= <-]. exists []. rewrite app_nil_r.
    destruct logs; [done|]. cbn in Hlen. lia.
  - destruct (fault duckdb.Begin); [done|].
    destruct (insertLogsLoop h d logs) as [tx [[]|err']] eqn:E; [|done].
    destruct (fault duckdb.Commit); [done|]. intros [= <-].
    apply insertLogsLoop_appends in E as (rows & ? & Hres). exists rows. auto.
Qed.

(** The loop of processLogs stores the records in order up to the first one
    the engine fails on; that prefix stays stored when the loop stops. *)
Lemma processLogsLoop_stores_prefix `{Engine} h d logs d' res :
  processLogsLoop h d logs = (d', res) →
  ∃ stored rows,
    stored `prefix_of` logs
    ∧ duckdb.logs d' = duckdb.logs d ++ rows
    ∧ map log_columns rows = map (λ l, log_columns (logValues h l)) stored
    ∧ (res = Success tt → stored = logs)
    ∧ (∀ err, res = Failure err →
         ∃ log, (stored ++ [log]) `prefix_of` logs
                ∧ fault (duckdb.InsertLog (logValues h log)) ≠ None).
Proof.
  revert d. induction logs as [|log rest IH]; intros d; cbn.
  - intros [= <- <-]. exists [], []. rewrite app_nil_r. by repeat split.
  - unfold InsertLog.
    destruct (engine.exec _ d) as [d1 [[]|err]] eqn:E; cbn.
    + apply exec_InsertLog_logs in E as (row & Erow & Ecols & _).
      intros (stored & rows & Hpre & Erows & Hcols & Hok & Hfail)%IH.
      exists (log :: stored), (row :: rows). repeat split.
      * by apply prefix_cons.
      * by rewrite Erows, Erow, <- app_assoc.
      * cbn. by rewrite Hcols, Ecols.
      * intros ?. by rewrite Hok.
      * intros err Herr. destruct (Hfail err Herr) as (bad & Hbad & Hfault).
        exists bad. split; [by apply prefix_cons|done].
    + apply exec_InsertLog_logs in E as [-> Hfault]. intros [= <- <-].
      exists [], []. rewrite app_nil_r. repeat split; [apply prefix_nil|done|].
      intros ? _. exists log. split; [apply prefix_cons, prefix_nil|done].
Qed.

Lemma returns_collect {A B} (body : A → M (list B)) xs :
  (∀ x, returns (λ _, True) (body x)) → returns (λ _, True) (collect xs body).
Proof.
  intros Hbody. induction xs as [|x xs IH]; cbn.
  - by apply returns_ret.
  - eapply returns_bind; [apply Hbody|]. intros y _.
    eapply returns_bind; [apply IH|]. intros ys _. by apply returns_ret.
Qed.

Lemma returns_TransformLogs `{Fmt} ld : returns (λ _, True) (TransformLogs ld).
Proof.
  unfold TransformLogs. apply returns_collect. intros rl.
  eapply returns_bind; [apply returns_attributesToMap|]. intros ra _.
  eapply returns_bind; [apply returns_extractServiceName|]. intros sn _.
  apply returns_collect. intros sl. apply returns_mapM. intros lr.
  eapply returns_bind; [apply returns_attributesToMap|]. intros attrs _.
  by apply returns_ret.
Qed.

(** With an engine that fails on the second of two records, processLogs
    returns the error and the first record is in the [logs] table. *)
Lemma processLogs_two_logs_rejecting :
  ∃ (d' : duckdb.DB) (h : Heap),
    @processLogs scenario.plain_fmt scenario.rejecting
      (duckdb.migrated 0) scenario.two_logs ∅
    = Ok (d', Failure "failed to insert log: engine error") h
    ∧ map LogsT.body (duckdb.logs d') = ["first"].
Proof.
  eexists _, _. split; [vm_compute; reflexivity|]. by vm_compute.
Qed.

(** C3, as stated, does not hold: an OTLP log export that fails part-way
    can leave the [logs] table changed. *)
Lemma processLogs_not_all_or_nothing :
  ¬ (∀ (F : Fmt) (E : Engine) (d : duckdb.DB) (ld : plog.Logs) (h : Heap)
       d' err h',
       @processLogs F E d ld h = Ok (d', Failure err) h' →
       duckdb.logs d' = duckdb.logs d).
Proof.
  intros Hclaim. destruct processLogs_two_logs_rejecting as (d' & h & E & Hlogs).
  apply Hclaim in E. rewrite E in Hlogs. discriminate Hlogs.
Qed.

(** C3, amended.  The batch insert of the store, InsertLogs, is
    all-or-nothing: when it fails the [logs] table is as before.  An OTLP
    log export does not go through it: processLogs inserts the records
    TransformLogs produced one by one, each statement committed on its own,
    so the rows added are those of the records before the first one the
    engine fails on; they stay stored, no later record is inserted, and the
    error is returned. *)
Theorem processLogs_stores_records_before_failure `{Fmt} `{Engine}
    (d : duckdb.DB) (ld : plog.Logs) (h : Heap) :
  (∀ h0 batch d' err,
     InsertLogs h0 d batch = (d', Failure err) → duckdb.logs d' = duckdb.logs d)
  ∧ ∃ records h' d' res stored rows,
      TransformLogs ld h = Ok records h'
      ∧ processLogs d ld h = Ok (d', res) h'
      ∧ stored `prefix_of` records
      ∧ duckdb.logs d' = duckdb.logs d ++ rows
      ∧ map log_columns rows = map (λ l, log_columns (logValues h' l)) stored
      ∧ (res = Success tt → stored = records)
      ∧ (∀ err, res = Failure err →
           ∃ log, (stored ++ [log]) `prefix_of` records
                  ∧ fault (duckdb.InsertLog (logValues h' log)) ≠ None).
Proof.
  split.
  - intros h0 batch d' err Hfail.
    by apply InsertLogs_failure_leaves_tables in Hfail as [? _].
  - destruct (returns_TransformLogs ld h) as (records & h' & Et & _).
    destruct (processLogsLoop h' d records) as [d' res] eqn:El.
    destruct (processLogsLoop_stores_prefix _ _ _ _ _ El)
      as (stored & rows & ? & ? & ? & ? & ?).
    exists records, h', d', res, stored, rows. split; [done|].
    split; [|done]. unfold processLogs.
    rewrite (bind_Ok _ _ _ _ _ Et).
    rewrite (bind_Ok get_heap _ h' h' h') by done.
    unfold mret, M_ret. by rewrite El.
Qed.

(** The same two records through both paths, with an engine that fails on
    the second one. *)
Lemma processLogs_stores_records_before_failure_witness :
  (@InsertLogs scenario.rejecting scenario.two_records_heap
     (duckdb.migrated 0) scenario.two_records
   = (engine.rollback (duckdb.migrated 0)
        (engine.set_logs [] 2 (duckdb.migrated 0)),
      Failure "failed to insert log: engine error")
   ∧ duckdb.logs
       (@InsertLogs scenario.rejecting scenario.two_records_heap
          (duckdb.migrated 0) scenario.two_records).1
     = duckdb.logs (duckdb.migrated 0))
  ∧ ∃ records h' d' res stored rows,
      @TransformLogs scenario.plain_fmt scenario.two_logs ∅ = Ok records h'
      ∧ @processLogs scenario.plain_fmt scenario.rejecting
          (duckdb.migrated 0) scenario.two_logs ∅ = Ok (d', res) h'
      ∧ stored `prefix_of` records
      ∧ duckdb.logs d' = duckdb.logs (duckdb.migrated 0) ++ rows
      ∧ map log_columns rows = map (λ l, log_columns (logValues h' l)) stored
      ∧ (res = Success tt → stored = records)
      ∧ (∀ err, res = Failure err →
           ∃ log, (stored ++ [log]) `prefix_of` records
                  ∧ @fault scenario.rejecting
                      (duckdb.InsertLog (logValues h' log)) ≠ None).
Proof.
  pose proof (@processLogs_stores_records_before_failure scenario.plain_fmt
                scenario.rejecting (duckdb.migrated 0) scenario.two_logs ∅)
    as [Hbatch Hexport].
  split; [|exact Hexport].
  assert (E : @InsertLogs scenario.rejecting scenario.two_records_heap
                (duckdb.migrated 0) scenario.two_records
              = (engine.rollback (duckdb.migrated 0)
                   (engine.set_logs [] 2 (duckdb.migrated 0)),
                 Failure "failed to insert log: engine error"))
    by (vm_compute; reflexivity).
  split; [exact E|]. rewrite E. exact (Hbatch _ _ _ _ E).
Defined.

(** ** C4: counting the logs a query matches *)

(** ORDER BY does not change how many rows a query returns. *)
Lemma select_logs_length conds d :
  length (select_logs conds d) = length (sql.matching conds (duckdb.logs d)).
Proof. unfold select_logs. apply Permutation_length, merge_sort_Permutation. Qed.

(** CountLogs builds the WHERE clause of GetLogs without the trace-id
    predicate. *)
Lemma CountLogs_where_drops_trace_id filters :
  CountLogs_where filters
  = List.filter (λ c, match c with duckdb.TraceIdEq _ => false | _ => true end)
      (GetLogs_where filters).
Proof.
  unfold CountLogs_where, GetLogs_where.
  rewrite !List.filter_app. repeat case_match; reflexivity.
Qed.

(** Without a trace-id filter the two operations agree. *)
Lemma CountLogs_agrees_without_trace_id `{Engine} d filters n :
  logs.FTraceID filters = "" →
  CountLogs d filters = Success n →
  n = Z.of_nat (length (select_logs (GetLogs_where filters) d)).
Proof.
  intros E. unfold CountLogs. destruct (fault _); [done|]. intros [= <-].
  rewrite select_logs_length. do 3 f_equal.
  unfold CountLogs_where, GetLogs_where. rewrite E. reflexivity.
Qed.

(** C4.  CountLogs is expected to return the number of rows GetLogs returns
    under the same filters once pagination is removed.  With two stored
    logs of different traces and a filter on the trace id of the first,
    GetLogs returns the one log of that trace (the page of 100 rows is not
    full) and CountLogs returns 2: its WHERE clause has no trace-id
    predicate. *)
Theorem CountLogs_ignores_trace_id_filter :
  ∃ row,
    @GetLogs scenario.no_faults scenario.two_traces_logs (scenario.by_trace "aaaa")
    = Success [row]
    ∧ LogsT.trace_id row = Some "aaaa"
    ∧ length (select_logs (GetLogs_where (scenario.by_trace "aaaa"))
                scenario.two_traces_logs) = 1%nat
    ∧ @CountLogs scenario.no_faults scenario.two_traces_logs
        (scenario.by_trace "aaaa") = Success 2.
Proof.
  eexists. split; [vm_compute; reflexivity|]. by vm_compute.
Qed.

(** ** C5: time buckets of the aggregation query *)

Lemma round_double_Qeq (q q' : Q) : (q == q')%Q → sql.round_double q = sql.round_double q'.
Proof.
  intros E. unfold sql.round_double.
  assert (E2 : (2 * q == 2 * q')%Q) by (by rewrite E).
  rewrite (Qfloor_comp _ _ E), (Qfloor_comp _ _ E2).
  case_bool_decide; [done|].
  replace (Qeq_bool (2 * q) (inject_Z (2 * Qfloor q' + 1)))
    with (Qeq_bool (2 * q') (inject_Z (2 * Qfloor q' + 1))); [done|].
  apply eq_true_iff_eq. rewrite !Qeq_bool_iff. by rewrite E2.
Qed.

Lemma round_double_Z (n : Z) : sql.round_double (inject_Z n) = n.
Proof.
  unfold sql.round_double. rewrite Qfloor_Z.
  assert (E : (2 * inject_Z n == inject_Z (2 * n))%Q).
  { rewrite inject_Z_mult. reflexivity. }
  rewrite (Qfloor_comp _ _ E), Qfloor_Z.
  rewrite bool_decide_true by lia. done.
Qed.

(** Whatever the (non-zero) bucket width, the bucket expression gives back
    the row's own epoch second: [/] divides as DOUBLE, so multiplying by the
    width again undoes it. *)
Lemma bucketExpr_ignores_width (w ts : Z) :
  w ≠ 0 →
  sql.eval (bucketExpr w) ts
  = Some (duckdb.Timestamp
            (sql.round_double (inject_Z ts / 1000000) * 1000000)).
Proof.
  intros Hw. cbn.
  set (e := sql.round_double (Qred (inject_Z ts / 1000000))).
  assert (Hz : Qeq_bool (inject_Z w) 0 = false).
  { apply not_true_iff_false. rewrite Qeq_bool_iff. unfold Qeq. cbn. lia. }
  rewrite Hz. cbn. do 2 f_equal.
  assert (He : e = sql.round_double (inject_Z ts / 1000000)).
  { apply round_double_Qeq, Qred_correct. }
  rewrite <- He. rewrite <- (round_double_Z (e * 1000000)).
  apply round_double_Qeq.
  rewrite !Qred_correct, inject_Z_mult.
  assert (Hw' : ¬ (inject_Z w == 0)%Q) by (unfold Qeq; cbn; lia).
  field. exact Hw'.
Qed.

Lemma bucketExpr_whole_second (w s : Z) :
  w ≠ 0 → sql.eval (bucketExpr w) (s * 1000000) = Some (duckdb.Timestamp (s * 1000000)).
Proof.
  intros Hw. rewrite bucketExpr_ignores_width by done. do 3 f_equal.
  rewrite <- (round_double_Z s) at 2. apply round_double_Qeq.
  rewrite inject_Z_mult. field.
Qed.

(** C5.  AggregateMetrics is expected to put each row into the bucket
    floor(epoch / width) * width, so that ten points one minute apart from a
    5-minute-aligned time fall into two buckets of five.  The query divides
    with [/], which in the embedded database is floating-point division:
    the ten points come back as ten buckets, one per point, each holding the
    value of its single point, under avg and under sum alike. *)
Theorem AggregateMetrics_one_bucket_per_point :
  scenario.T `mod` 300 = 0
  ∧ remove_dups (map (λ r, floor_bucket 300 (MetricsT.timestamp r))
                   (duckdb.metrics scenario.ten_points))
    = [scenario.T * 1000000; (scenario.T + 300) * 1000000]
  ∧ (∃ results,
       @AggregateMetrics scenario.no_faults scenario.ten_points
         (scenario.five_minutes "avg") = Success results
       ∧ map (λ r, (aggregation.TimeBucket r, aggregation.Value r)) results
         = map (λ i, ((scenario.T + 60 * i) * 1000000000,
                      inject_Z (100 + 10 * i)))
             [0; 1; 2; 3; 4; 5; 6; 7; 8; 9])
  ∧ (∃ results,
       @AggregateMetrics scenario.no_faults scenario.ten_points
         (scenario.five_minutes "sum") = Success results
       ∧ map (λ r, (aggregation.TimeBucket r, aggregation.Value r)) results
         = map (λ i, ((scenario.T + 60 * i) * 1000000000,
                      inject_Z (100 + 10 * i)))
             [0; 1; 2; 3; 4; 5; 6; 7; 8; 9]).
Proof.
  split; [reflexivity|]. split; [by vm_compute|].
  split; eexists; (split; [vm_compute; reflexivity|]); by vm_compute.
Qed.

(** ** C7, C8: repeated ingestion of a trace *)

Lemma exec_InsertSpanIgnore_frame `{Engine} r tx tx' res :
  engine.exec (duckdb.InsertSpanIgnore r) tx = (tx', res) →
  duckdb.traces tx' = duckdb.traces tx
  ∧ duckdb.logs tx' = duckdb.logs tx
  ∧ duckdb.metrics tx' = duckdb.metrics tx
  ∧ (∀ id old, duckdb.spans tx !! id = Some old →
               duckdb.spans tx' !! id = Some old).
Proof.
  unfold engine.exec. destruct (fault _); intros [= <- _]; [done|].
  unfold engine.insert_span_ignore.
  destruct (duckdb.spans tx !! SpansT.span_id r) eqn:E; [done|].
  cbn. repeat split. intros id old Hid.
  rewrite lookup_insert_ne; [done|]. congruence.
Qed.

(** The span loop of InsertTrace touches only the [spans] table and never
    changes a span row that is already stored. *)
Lemma insertSpansLoop_frame `{Engine} h tx spans tx' res :
  insertSpansLoop h tx spans = (tx', res) →
  duckdb.traces tx' = duckdb.traces tx
  ∧ (∀ id old, duckdb.spans tx !! id = Some old →
               duckdb.spans tx' !! id = Some old).
Proof.
  revert tx. induction spans as [|span rest IH]; intros tx; cbn.
  - by intros [= <- _].
  - unfold insertSpan.
    destruct (engine.exec _ tx) as [tx1 [[]|err]] eqn:E;
      apply exec_InsertSpanIgnore_frame in E as (Et & _ & _ & Es).
    + intros (Et' & Es')%IH. split; [congruence|]. auto.
    + by intros [= <- _].
Qed.

(** Span rows already stored survive InsertTrace unchanged, whether the
    call succeeds or not. *)
Lemma InsertTrace_keeps_stored_spans `{Engine} h d trace id old :
  duckdb.spans d !! id = Some old →
  duckdb.spans (InsertTrace h d trace).1 !! id = Some old.
Proof.
  intros Hold. unfold InsertTrace.
  destruct (fault duckdb.Begin); [done|].
  unfold engine.exec.
  destruct (fault (duckdb.UpsertTrace _)); [done|].
  destruct (insertSpansLoop _ _ _) as [tx' [[]|err]] eqn:E; [|done].
  destruct (fault duckdb.Commit); [done|]. cbn.
  apply insertSpansLoop_frame in E as [_ Es]. by apply Es.
Qed.



(** C8.  Inserting a span whose span id is already in the [spans] table
    leaves the database, and with it every column of the stored span row,
    as it was, and reports no error (the engine permitting): the conflict
    on [span_id] is ignored. *)
Theorem insertSpan_duplicate_ignored `{Engine}
    (h : Heap) (tx : duckdb.DB) (span : store.Span) (old : SpansT.Row) :
  duckdb.spans tx !! store.SpanID span = Some old →
  (insertSpan h tx span).1 = tx
  ∧ duckdb.spans (insertSpan h tx span).1 !! store.SpanID span = Some old
  ∧ (fault (duckdb.InsertSpanIgnore (spanValues h span)) = None →
     (insertSpan h tx span).2 = Success tt).
Proof.
  intros Hold. unfold insertSpan, engine.exec.
  destruct (fault _); cbn.
  - by repeat split.
  - unfold engine.insert_span_ignore. cbn. by rewrite Hold.
Qed.

(** Re-sending span ["0a"] with other values in every column. *)
Lemma insertSpan_duplicate_witness :
  duckdb.spans scenario.one_trace !! store.SpanID scenario.resent_span
  = Some scenario.stored_span
  ∧ (@insertSpan scenario.no_faults ∅ scenario.one_trace
       scenario.resent_span).1 = scenario.one_trace
  ∧ duckdb.spans
      (@insertSpan scenario.no_faults ∅ scenario.one_trace
         scenario.resent_span).1 !! store.SpanID scenario.resent_span
    = Some scenario.stored_span
  ∧ (@fault scenario.no_faults
       (duckdb.InsertSpanIgnore (spanValues ∅ scenario.resent_span)) = None →
     (@insertSpan scenario.no_faults ∅ scenario.one_trace
        scenario.resent_span).2 = Success tt).
Proof.
  split; [vm_compute; reflexivity|].
  apply (@insertSpan_duplicate_ignored scenario.no_faults ∅
           scenario.one_trace scenario.resent_span scenario.stored_span).
  vm_compute; reflexivity.
Defined.

(** ** C10: the compare endpoint *)

(** The fetch loop starts with a lookup of the first trace id, and looks up
    ids of the request only, in the order of the request. *)
Lemma fetchTraces_calls `{Engine} d ids :
  (handlers.fetchTraces d ids).2 `prefix_of` ids
  ∧ (ids ≠ [] → head (handlers.fetchTraces d ids).2 = head ids).
Proof.
  induction ids as [|id rest [IH _]]; cbn; [done|].
  destruct (GetTraceByID d id).
  - destruct (handlers.fetchTraces d rest) as [[r failed] calls]. cbn in *.
    split; [by apply prefix_cons|done].
  - cbn. split; [|done]. apply prefix_cons, prefix_nil.
Qed.

(** C10.  POST /api/traces/compare answers a payload whose [trace_ids] list
    has fewer than 2 or more than 4 entries with status 400 without having
    looked up any trace in the store; for a payload with 2 to 4 entries it
    goes on to fetch the traces, starting with the first id of the list,
    and answers 200 or, when a lookup fails, 404. *)
Theorem CompareTraces_count_boundary `{Engine}
    (d : duckdb.DB) (ids : list string) :
  ((length ids < 2 ∨ 4 < length ids)%nat →
     ∃ msg,
       handlers.CompareTraces d (handlers.Json (Some ids))
       = ({| handlers.status := handlers.StatusBadRequest;
             handlers.payload := handlers.ErrorBody msg None |}, []))
  ∧ ((2 ≤ length ids ≤ 4)%nat →
     ∃ resp id calls,
       handlers.CompareTraces d (handlers.Json (Some ids)) = (resp, id :: calls)
       ∧ head ids = Some id
       ∧ (id :: calls) `prefix_of` ids
       ∧ (handlers.status resp = handlers.StatusOK
          ∨ handlers.status resp = handlers.StatusNotFound)).
Proof.
  unfold handlers.CompareTraces, handlers.ShouldBindJSON. split.
  - intros Hlen. repeat case_bool_decide; try lia; eauto.
  - intros Hlen. rewrite !bool_decide_false by lia.
    destruct (fetchTraces_calls d ids) as [Hpre Hhead].
    destruct ids as [|id0 rest]; [cbn in Hlen; lia|].
    specialize (Hhead ltac:(done)).
    destruct (handlers.fetchTraces d (id0 :: rest)) as [[r failed] calls].
    cbn in Hpre, Hhead. destruct calls as [|id calls]; [done|].
    cbn in Hhead. injection Hhead as ->.
    destruct r; eexists _, id0, calls; cbn; eauto.
Qed.

(** One trace id is refused; the stored trace compared with itself is
    fetched. *)
Lemma CompareTraces_count_boundary_witness :
  ((length ["0102"] < 2 ∨ 4 < length ["0102"])%nat
   ∧ ∃ msg,
       @handlers.CompareTraces scenario.no_faults scenario.one_trace
         (handlers.Json (Some ["0102"]))
       = ({| handlers.status := handlers.StatusBadRequest;
             handlers.payload := handlers.ErrorBody msg None |}, []))
  ∧ ((2 ≤ length ["0102"; "0102"] ≤ 4)%nat
     ∧ ∃ resp id calls,
         @handlers.CompareTraces scenario.no_faults scenario.one_trace
           (handlers.Json (Some ["0102"; "0102"])) = (resp, id :: calls)
         ∧ head ["0102"; "0102"] = Some id
         ∧ (id :: calls) `prefix_of` ["0102"; "0102"]
         ∧ (handlers.status resp = handlers.StatusOK
            ∨ handlers.status resp = handlers.StatusNotFound)).
Proof.
  split.
  - split; [cbn; lia|].
    apply (@CompareTraces_count_boundary scenario.no_faults
             scenario.one_trace ["0102"]). cbn; lia.
  - split; [cbn; lia|].
    apply (@CompareTraces_count_boundary scenario.no_faults
             scenario.one_trace ["0102"; "0102"]). cbn; lia.
Defined.

(* ===================================================================== *)
(** * Further properties of the code *)
(* ===================================================================== *)

(* ===================================================================== *)
(** * Further properties of the transformers *)
(* ===================================================================== *)

(** ** Attribute maps *)

Lemma store_all_snoc kvs kv (b : gmap string Val) :
  store_all (kvs ++ [kv]) b = <[kv.1 := kv.2]> (store_all kvs b).
Proof. unfold store_all. by rewrite foldl_app. Qed.

Lemma last_value_snoc k attrs kv :
  last_value k (attrs ++ [kv])
  = if decide (kv.1 = k) then Some kv.2 else last_value k attrs.
Proof.
  unfold last_value. rewrite filter_app, filter_cons, filter_nil.
  case_decide.
  - by rewrite last_snoc.
  - by rewrite app_nil_r.
Qed.

Lemma store_all_converted_lookup attrs k :
  store_all (map (λ kv, (kv.1, valueToInterface kv.2)) attrs) ∅ !! k
  = valueToInterface <$> last_value k attrs.
Proof.
  induction attrs as [|kv attrs IH] using rev_ind; [done|].
  rewrite map_app.
  change (map _ [kv]) with [(kv.1, valueToInterface kv.2)].
  rewrite store_all_snoc, last_value_snoc. cbn.
  case_decide as E.
  - rewrite E. by rewrite lookup_insert_eq.
  - by rewrite lookup_insert_ne.
Qed.

(** What attributesToMap returns, in one statement. *)
Lemma attributesToMap_lookup (attrs : list (string * PValue)) (h : Heap) :
  ∃ (r : mapref) (h' : Heap),
    attributesToMap attrs h = Ok r h'
    ∧ (r = None ↔ attrs = [])
    ∧ h ⊆ h'
    ∧ ∀ k, deref h' r !! k = valueToInterface <$> last_value k attrs.
Proof.
  destruct attrs as [|kv attrs].
  - exists None, h. repeat split; try done.
  - set (l := kv :: attrs).
    eexists _, _. split; [by apply attributesToMap_nonempty|].
    split; [done|]. split.
    + apply insert_subseteq, not_elem_of_dom, is_fresh.
    + intros k. cbn -[l]. rewrite lookup_insert_eq. cbn -[l].
      apply store_all_converted_lookup.
Qed.

(** X1.  attributesToMap returns the nil map exactly for the empty
    collection; otherwise it returns a new map in which every key reads the
    converted value of the last entry with that key (later duplicates win).
    No map that existed before is changed. *)
Theorem attributesToMap_last_entry_wins
    (attrs : list (string * PValue)) (h : Heap) :
  ∃ (r : mapref) (h' : Heap),
    attributesToMap attrs h = Ok r h'
    ∧ (r = None ↔ attrs = [])
    ∧ h ⊆ h'
    ∧ ∀ k, deref h' r !! k = valueToInterface <$> last_value k attrs.
Proof. apply attributesToMap_lookup. Qed.

(** The service name read from the map attributesToMap built. *)
Lemma attributesToMap_extractServiceName attrs (h : Heap) :
  ∃ (r : mapref) (h' : Heap),
    attributesToMap attrs h = Ok r h'
    ∧ extractServiceName r h' = Ok (serviceNameOf attrs) h'
    ∧ h ⊆ h'.
Proof.
  destruct (attributesToMap_lookup attrs h) as (r & h' & E & _ & Hsub & Hk).
  exists r, h'. split; [done|]. split; [|done].
  unfold extractServiceName, serviceNameOf.
  rewrite Hk. by destruct (valueToInterface <$> _) as [[]|].
Qed.

(** X2.  The service name of a resource is the value of its last
    [service.name] attribute when that is a string, its lower-case hex
    rendering when it is a byte sequence, and ["unknown"] when the
    attribute is missing or of any other type. *)
Theorem extractServiceName_of_resource
    (attrs : list (string * PValue)) (h : Heap) :
  ∃ (r : mapref) (h' : Heap),
    attributesToMap attrs h = Ok r h'
    ∧ extractServiceName r h'
      = Ok (match last_value "service.name" attrs with
            | Some (PStr name) => name
            | Some (PBytes bs) => Go.EncodeToString bs
            | _ => "unknown"
            end) h'.
Proof.
  destruct (attributesToMap_extractServiceName attrs h) as (r & h' & E & En & _).
  exists r, h'. split; [done|]. rewrite En. f_equal.
  unfold serviceNameOf. by destruct (last_value _ attrs) as [[]|].
Qed.

(** ** Spans *)

Lemma returns_convertSpan_converted serviceName span :
  returns (converted serviceName span) (convertSpan serviceName span).
Proof.
  unfold convertSpan.
  eapply returns_bind; [apply returns_attributesToMap|]. intros attrs _.
  eapply returns_bind; [apply returns_convertEvents|]. intros events _.
  eapply returns_bind; [apply returns_convertLinks|]. intros links _.
  apply returns_ret. unfold converted, Go.Unix. cbn. by repeat split.
Qed.

Lemma int64_small (x : Z) : - 2^63 ≤ x < 2^63 → Go.int64 x = x.
Proof.
  intros Hx. unfold Go.int64.
  change (2^63) with 9223372036854775808 in *.
  change (2^64) with 18446744073709551616.
  rewrite Z.mod_small by lia. lia.
Qed.

Lemma int64_uint64_diff (a b : Z) :
  0 ≤ a < 2^63 → 0 ≤ b < 2^63 → Go.int64 (Go.uint64 (a - b)) = a - b.
Proof.
  intros Ha Hb. unfold Go.int64, Go.uint64.
  change (2^63) with 9223372036854775808 in *.
  change (2^64) with 18446744073709551616.
  destruct (decide (b ≤ a)).
  - rewrite (Z.mod_small (a - b)) by lia. rewrite Z.mod_small by lia. lia.
  - replace ((a - b) `mod` 18446744073709551616)
      with (a - b + 18446744073709551616).
    2:{ apply Z.mod_unique with (q := -1); lia. }
    replace ((a - b + 18446744073709551616 + 9223372036854775808)
               `mod` 18446744073709551616)
      with (a - b + 9223372036854775808).
    2:{ apply Z.mod_unique with (q := 1); lia. }
    lia.
Qed.

Lemma Sub_small (t u : Z) :
  0 ≤ t < 2^63 → 0 ≤ u < 2^63 → Go.Sub t u = t - u.
Proof.
  intros Ht Hu. unfold Go.Sub, Go.MaxInt64, Go.MinInt64.
  change (2^63) with 9223372036854775808 in *.
  rewrite !bool_decide_false by lia. done.
Qed.

(** X3.  For a span whose start and end timestamps are below 2^63 ns,
    convertSpan records the duration (end − start) / 10^6 truncated toward
    zero, which is the millisecond count of end time minus start time; when
    the end precedes the start the duration is negative, not wrapped. *)
Theorem convertSpan_duration (serviceName : string) (span : ptrace.Span)
    (h : Heap) :
  0 ≤ ptrace.StartTimestamp span < 2^63 →
  0 ≤ ptrace.EndTimestamp span < 2^63 →
  ∃ (cs : store.Span) (h' : Heap),
    convertSpan serviceName span h = Ok cs h'
    ∧ store.SpanDurationMs cs
      = (ptrace.EndTimestamp span - ptrace.StartTimestamp span) `quot` 1000000
    ∧ store.SpanDurationMs cs
      = Go.Milliseconds (Go.Sub (store.SpanEndTime cs) (store.SpanStartTime cs)).
Proof.
  intros Hs He.
  destruct (returns_convertSpan_converted serviceName span h)
    as (cs & h' & E & Hc).
  destruct Hc as (_ & _ & _ & _ & _ & Hst & Hen & Hd & _).
  exists cs, h'. split; [done|].
  rewrite Hd, Hst, Hen, int64_uint64_diff by done.
  rewrite !int64_small by lia. rewrite Sub_small by done. done.
Qed.

(** A span that ends 250 ms before it starts. *)
Lemma convertSpan_duration_witness :
  (0 ≤ ptrace.StartTimestamp (scenario.span x01 1000000000 750000000 0) < 2^63)
  ∧ (0 ≤ ptrace.EndTimestamp (scenario.span x01 1000000000 750000000 0) < 2^63)
  ∧ ∃ (cs : store.Span) (h' : Heap),
      convertSpan "svc1" (scenario.span x01 1000000000 750000000 0) ∅ = Ok cs h'
      ∧ store.SpanDurationMs cs = (750000000 - 1000000000) `quot` 1000000
      ∧ store.SpanDurationMs cs
        = Go.Milliseconds (Go.Sub (store.SpanEndTime cs) (store.SpanStartTime cs)).
Proof.
  split; [cbn; lia|]. split; [cbn; lia|].
  apply (convertSpan_duration "svc1"
           (scenario.span x01 1000000000 750000000 0) ∅); cbn; lia.
Defined.

(** ** The trace transformer and the spans it has seen *)

Lemma returns_foldM_ghost {S A G} (I : S → list G → Prop) (gl : A → list G)
    (body : S → A → M S) xs :
  (∀ s x seen, I s seen → returns (λ s', I s' (seen ++ gl x)) (body s x)) →
  ∀ s seen, I s seen →
    returns (λ s', I s' (seen ++ (xs ≫= gl))) (foldM body s xs).
Proof.
  intros Hbody. induction xs as [|x xs IH]; intros s seen Hs.
  - apply returns_ret. change ([] ≫= gl) with (@nil G). by rewrite app_nil_r.
  - change ((x :: xs) ≫= gl) with (gl x ++ (xs ≫= gl)). cbn [foldM].
    eapply returns_bind; [by apply Hbody|]. intros s' Hs'.
    eapply returns_weaken; [apply (IH s' (seen ++ gl x) Hs')|].
    intros s''. cbn beta. by rewrite <- app_assoc.
Qed.

Lemma returns_resource_service {B} attrs (P : B → Prop)
    (k : mapref → string → M B) :
  (∀ r, returns P (k r (serviceNameOf attrs))) →
  returns P (ra ← attributesToMap attrs; sn ← extractServiceName ra; k ra sn).
Proof.
  intros Hk h.
  destruct (attributesToMap_extractServiceName attrs h) as (r & h' & E & En & _).
  destruct (Hk r h') as (b & h'' & Eb & HP). exists b, h''. split; [|done].
  rewrite (bind_Ok _ _ _ _ _ E). by rewrite (bind_Ok _ _ _ _ _ En).
Qed.

Lemma with_trace_id_snoc id seen p :
  with_trace_id id (seen ++ [p])
  = with_trace_id id seen
    ++ (if decide (ID_String (ptrace.TraceID p.2) = id) then [p] else []).
Proof.
  unfold with_trace_id. rewrite filter_app, filter_cons, filter_nil.
  by case_decide.
Qed.

Lemma least_snoc x y l : least x l → least (Z.min y x) (l ++ [y]).
Proof.
  intros [Hin Hle]. split.
  - destruct (Z.min_spec y x) as [[_ ->]|[_ ->]]; set_solver.
  - apply Forall_app. split.
    + eapply Forall_impl; [exact Hle|]. cbn. lia.
    + constructor; [lia|constructor].
Qed.

Lemma greatest_snoc x y l : greatest x l → greatest (Z.max y x) (l ++ [y]).
Proof.
  intros [Hin Hle]. split.
  - destruct (Z.max_spec y x) as [[_ ->]|[_ ->]]; set_solver.
  - apply Forall_app. split.
    + eapply Forall_impl; [exact Hle|]. cbn. lia.
    + constructor; [lia|constructor].
Qed.

Lemma updateTrace_identity cs t :
  store.TraceID (updateTrace cs t) = store.TraceID t
  ∧ store.ServiceName (updateTrace cs t) = store.ServiceName t
  ∧ store.OperationName (updateTrace cs t) = store.OperationName t
  ∧ store.StatusCode (updateTrace cs t) = store.StatusCode t.
Proof.
  unfold updateTrace.
  repeat match goal with |- context [if ?b then _ else _] => destruct b end;
    lazy beta iota zeta delta
      [store.set_SpanCount store.set_StartTime store.set_EndTime
       store.set_DurationMs store.set_ErrorCount store.TraceID
       store.ServiceName store.OperationName store.StatusCode];
    repeat split; reflexivity.
Qed.

Lemma summarises_update id ss t spans p cs :
  converted p.1 p.2 cs →
  summarises id ss t spans →
  summarises id (ss ++ [p]) (updateTrace cs t) (spans ++ [cs]).
Proof.
  intros Hc (Hf & Hid & Hn & (p0 & rest & -> & Hsvc & Hop & Hst) & Hlo & Hhi).
  destruct (updateTrace_identity cs t) as (Ei & Es & Eo & Ec).
  pose proof Hc as (_ & _ & _ & _ & _ & Hstart & Hend & _).
  repeat split.
  - apply Forall2_app; [done|]. by constructor.
  - congruence.
  - rewrite updateTrace_SpanCount, Hn, length_app. cbn. lia.
  - exists p0, (rest ++ [p]). repeat split; congruence.
  - rewrite updateTrace_StartTime, Hstart, map_app. by apply least_snoc.
  - rewrite updateTrace_StartTime, Hstart, map_app.
    by apply (least_snoc _ _ _ Hlo).
  - rewrite updateTrace_EndTime, Hend, map_app. by apply greatest_snoc.
  - rewrite updateTrace_EndTime, Hend, map_app.
    by apply (greatest_snoc _ _ _ Hhi).
Qed.

Lemma trace_inv_addSpan ra svc acc span seen :
  trace_inv acc seen →
  returns (λ acc', trace_inv acc' (seen ++ [(svc, span)]))
    (addSpan ra svc acc span).
Proof.
  intros Hacc. unfold addSpan.
  eapply returns_bind; [apply returns_convertSpan_converted|]. intros cs Hc.
  pose proof Hc as (_ & Hcid & _ & _ & _ & Hstart & Hend & _ & Hcode).
  pose proof (Hacc (store.SpanTraceID cs)) as Hid.
  assert (Hother : ∀ id, store.SpanTraceID cs ≠ id →
            with_trace_id id (seen ++ [(svc, span)]) = with_trace_id id seen).
  { intros id Hne. rewrite with_trace_id_snoc. cbn.
    rewrite decide_False by congruence. by rewrite app_nil_r. }
  assert (Hsame : with_trace_id (store.SpanTraceID cs) (seen ++ [(svc, span)])
                  = with_trace_id (store.SpanTraceID cs) seen ++ [(svc, span)]).
  { rewrite with_trace_id_snoc. cbn. by rewrite decide_True. }
  destruct (traces acc !! store.SpanTraceID cs) as [t|] eqn:Et.
  - destruct Hid as (spans & Es & Hsum).
    apply returns_ret. intros id. cbn.
    destruct (decide (store.SpanTraceID cs = id)) as [<-|Hne].
    + rewrite !lookup_insert_eq, Es, Hsame. eexists. split; [done|].
      by apply (summarises_update _ _ _ _ (svc, span)).
    + rewrite !lookup_insert_ne, Hother by done. apply Hacc.
  - destruct Hid as [Hnil Hnone].
    eapply returns_bind; [apply returns_mergeAttributes|]. intros attrs _.
    apply returns_ret. intros id. cbn.
    destruct (decide (store.SpanTraceID cs = id)) as [<-|Hne].
    + rewrite !lookup_insert_eq, Hnone, Hsame, Hnil. cbn.
      eexists. split; [done|]. repeat split; cbn.
      * constructor; [done|constructor].
      * by exists (svc, span), [].
      * set_solver.
      * constructor; [unfold start_of; cbn; lia|constructor].
      * set_solver.
      * constructor; [unfold end_of; cbn; lia|constructor].
    + rewrite !lookup_insert_ne, Hother by done. apply Hacc.
Qed.

(** An invariant of the loop body that follows the spans seen holds of the
    accumulator and the whole batch once the three loops are done. *)
Lemma returns_fold_spans (I : TraceAcc → list (string * ptrace.Span) → Prop) td :
  (∀ ra svc acc span seen,
     I acc seen →
     returns (λ acc', I acc' (seen ++ [(svc, span)])) (addSpan ra svc acc span)) →
  I {| traces := ∅; allSpans := ∅ |} [] →
  returns (λ acc, I acc (batch_spans td))
    (foldM (λ acc rs,
         resourceAttrs ← attributesToMap (ptrace.ResourceAttributes rs);
         serviceName ← extractServiceName resourceAttrs;
         foldM (λ acc ss, foldM (addSpan resourceAttrs serviceName) acc ss)
           acc (ptrace.ScopeSpans rs))
       {| traces := ∅; allSpans := ∅ |} td).
Proof.
  intros Hstep Hinit.
  change (batch_spans td) with ([] ++ batch_spans td).
  apply (returns_foldM_ghost I
           (λ rs, ss ← ptrace.ScopeSpans rs; span ← ss;
                  [(serviceNameOf (ptrace.ResourceAttributes rs), span)]));
    [|done].
  intros acc rs seen Hacc.
  apply (returns_resource_service (ptrace.ResourceAttributes rs)
           (λ acc', I acc' _)
           (λ ra sn, foldM (λ acc ss, foldM (addSpan ra sn) acc ss)
                       acc (ptrace.ScopeSpans rs))).
  intros ra.
  apply (returns_foldM_ghost I
           (λ ss, span ← ss;
                  [(serviceNameOf (ptrace.ResourceAttributes rs), span)]));
    [|done].
  intros acc1 ss seen1 Hacc1.
  apply (returns_foldM_ghost I
           (λ span, [(serviceNameOf (ptrace.ResourceAttributes rs), span)]));
    [|done].
  intros acc2 span seen2 Hacc2. by apply Hstep.
Qed.

Lemma trace_inv_empty : trace_inv {| traces := ∅; allSpans := ∅ |} [].
Proof. intros id. cbn. by rewrite !lookup_empty. Qed.

(** What TransformTraces emits, in terms of the spans of the batch. *)
Lemma TransformTraces_summarises td :
  returns (λ ts,
      NoDup (map store.TraceID ts)
      ∧ Forall (λ t, summarises (store.TraceID t)
                       (with_trace_id (store.TraceID t) (batch_spans td))
                       t (store.Spans t)) ts
      ∧ ∀ p, p ∈ batch_spans td →
             ID_String (ptrace.TraceID p.2) ∈ map store.TraceID ts)
    (TransformTraces td).
Proof.
  unfold TransformTraces.
  eapply returns_bind;
    [apply (returns_fold_spans trace_inv td);
       [intros; by apply trace_inv_addSpan|apply trace_inv_empty]|].
  intros acc Hacc. apply returns_ret.
  set (emit := λ kv : string * store.Trace,
         store.set_Spans (default [] (allSpans acc !! kv.1)) kv.2).
  assert (Hkey : ∀ kv, kv ∈ map_to_list (traces acc) →
            store.TraceID (emit kv) = kv.1
            ∧ summarises kv.1 (with_trace_id kv.1 (batch_spans td))
                (emit kv) (store.Spans (emit kv))).
  { intros [id t] Hin%elem_of_map_to_list. specialize (Hacc id).
    rewrite Hin in Hacc. destruct Hacc as (spans & Es & Hsum).
    unfold emit. cbn. rewrite Es. cbn. split; [|done]. by destruct Hsum as (_ & ? & _). }
  assert (Hids : map store.TraceID (emit <$> map_to_list (traces acc))
                 = (map_to_list (traces acc)).*1).
  { rewrite <- list_fmap_compose. apply Forall_fmap_ext_1, Forall_forall.
    intros kv Hin. by apply Hkey. }
  split; [|split].
  - rewrite Hids. apply NoDup_fst_map_to_list.
  - apply Forall_fmap, Forall_forall. intros kv Hin. unfold compose.
    destruct (Hkey kv Hin) as [-> Hsum]. exact Hsum.
  - intros p Hp. rewrite Hids.
    set (id := ID_String (ptrace.TraceID p.2)).
    specialize (Hacc id). destruct (traces acc !! id) as [t|] eqn:Et.
    + apply list_elem_of_fmap. exists (id, t). split; [done|].
      by apply elem_of_map_to_list.
    + destruct Hacc as [Hnil _]. exfalso.
      assert (Hin : p ∈ with_trace_id id (batch_spans td)).
      { unfold with_trace_id. by apply list_elem_of_filter. }
      rewrite Hnil in Hin. by apply not_elem_of_nil in Hin.
Qed.

(** X4.  TransformTraces never panics and groups the spans of a batch by
    trace id: the emitted traces have pairwise different trace ids, every
    span of the batch has its trace among them, and the span list of an
    emitted trace is never empty and holds, in source order, exactly the
    batch's spans with that trace id, each converted field by field. *)
Theorem TransformTraces_groups_spans_by_trace_id (td : ptrace.Traces) (h : Heap) :
  ∃ (ts : list store.Trace) (h' : Heap),
    TransformTraces td h = Ok ts h'
    ∧ NoDup (map store.TraceID ts)
    ∧ (∀ p, p ∈ batch_spans td →
            ID_String (ptrace.TraceID p.2) ∈ map store.TraceID ts)
    ∧ Forall (λ t,
        store.Spans t ≠ []
        ∧ Forall2 (λ p cs, converted p.1 p.2 cs)
            (with_trace_id (store.TraceID t) (batch_spans td))
            (store.Spans t)) ts.
Proof.
  destruct (TransformTraces_summarises td h) as (ts & h' & E & Hnd & Hall & Hin).
  exists ts, h'. repeat split; try done.
  eapply Forall_impl; [exact Hall|]. cbn.
  intros t (Hf & _ & _ & (p & rest & Hss & _) & _). split; [|done].
  rewrite Hss in Hf. by inversion Hf.
Qed.

(** X5.  For every trace TransformTraces emits: the span count is the
    number of spans of the batch with its trace id; service name, operation
    name and status code are those of the first such span in source order
    (not of the root span); the start time is the earliest start and the
    end time the latest end among them. *)
Theorem TransformTraces_aggregate_fields (td : ptrace.Traces) (h : Heap) :
  ∃ (ts : list store.Trace) (h' : Heap),
    TransformTraces td h = Ok ts h'
    ∧ Forall (λ t,
        let ss := with_trace_id (store.TraceID t) (batch_spans td) in
        store.SpanCount t = Z.of_nat (length ss)
        ∧ (∃ p rest, ss = p :: rest
             ∧ store.ServiceName t = p.1
             ∧ store.OperationName t = ptrace.Name p.2
             ∧ store.StatusCode t = ptrace.StatusCode p.2)
        ∧ least (store.StartTime t) (map start_of ss)
        ∧ greatest (store.EndTime t) (map end_of ss)) ts.
Proof.
  destruct (TransformTraces_summarises td h) as (ts & h' & E & _ & Hall & _).
  exists ts, h'. split; [done|].
  eapply Forall_impl; [exact Hall|]. cbn.
  by intros t (_ & _ & ? & ? & ? & ?).
Qed.

(** ** Durations when the first span of a trace starts first *)

Lemma returns_and {A} (P Q : A → Prop) (m : M A) :
  returns P m → returns Q m → returns (λ a, P a ∧ Q a) m.
Proof.
  intros HP HQ h. destruct (HP h) as (a & h' & E & Ha).
  destruct (HQ h) as (a' & h'' & E' & Ha'). rewrite E in E'.
  injection E' as <- <-. by exists a, h'.
Qed.

Lemma timestamps_in_range_snoc seen p :
  timestamps_in_range (seen ++ [p]) →
  timestamps_in_range seen
  ∧ 0 ≤ ptrace.StartTimestamp p.2 < 2^63
  ∧ 0 ≤ ptrace.EndTimestamp p.2 < 2^63.
Proof.
  unfold timestamps_in_range. rewrite Forall_app, Forall_singleton. tauto.
Qed.

Lemma first_span_earliest_snoc seen p :
  first_span_earliest (seen ++ [p]) → first_span_earliest seen.
Proof.
  intros H id. specialize (H id). rewrite with_trace_id_snoc in H.
  destruct (with_trace_id id seen) as [|p0 rest]; [done|].
  cbn in H. by apply Forall_app in H as [? _].
Qed.

(** Under the two conditions the start of an aggregate is the start of the
    first span of its trace, and no later span of the trace precedes it. *)
Lemma first_span_earliest_start id ss t spans (q : string * ptrace.Span) :
  summarises id ss t spans →
  (match ss ++ [q] with
   | [] => True
   | p0 :: rest => Forall (λ r, start_of p0 ≤ start_of r) rest
   end) →
  store.StartTime t ≤ start_of q.
Proof.
  intros (_ & _ & _ & (p0 & rest & -> & _) & [Hin Hle] & _) Hfirst.
  rewrite <- app_comm_cons in Hfirst.
  rewrite Forall_app, Forall_singleton in Hfirst. destruct Hfirst as [_ Hq].
  change (map start_of (p0 :: rest))
    with (start_of p0 :: map start_of rest) in Hle.
  apply Forall_cons in Hle as [Hle0 _].
  unfold Go.Time in *. lia.
Qed.

Lemma durations_addSpan ra svc acc span seen :
  trace_inv acc seen →
  (timestamps_in_range seen → first_span_earliest seen → durations_ok acc) →
  returns (λ acc',
      timestamps_in_range (seen ++ [(svc, span)]) →
      first_span_earliest (seen ++ [(svc, span)]) →
      durations_ok acc')
    (addSpan ra svc acc span).
Proof.
  intros Hinv Hdur. unfold addSpan.
  eapply returns_bind; [apply returns_convertSpan_converted|]. intros cs Hc.
  pose proof Hc as (_ & Hcid & _ & _ & _ & Hstart & Hend & Hd & _).
  pose proof (Hinv (store.SpanTraceID cs)) as Hid.
  destruct (traces acc !! store.SpanTraceID cs) as [t|] eqn:Et.
  - destruct Hid as (spans & _ & Hsum).
    apply returns_ret. cbn.
    intros (Hr & _ & _)%timestamps_in_range_snoc Hfirst id t'.
    pose proof (first_span_earliest_snoc _ _ Hfirst) as Hfirst'.
    specialize (Hdur Hr Hfirst').
    destruct (decide (store.SpanTraceID cs = id)) as [<-|Hne].
    + cbn. rewrite lookup_insert_eq. intros [= <-].
      assert (Hle : store.StartTime t ≤ store.SpanStartTime cs).
      { rewrite Hstart.
        apply (first_span_earliest_start _ _ _ _ (svc, span) Hsum).
        specialize (Hfirst (store.SpanTraceID cs)).
        rewrite with_trace_id_snoc in Hfirst. cbn in Hfirst.
        by rewrite decide_True in Hfirst. }
      rewrite updateTrace_DurationMs, updateTrace_StartTime, updateTrace_EndTime.
      rewrite Z.min_r by done. unfold Go.After. case_bool_decide.
      * rewrite Z.max_l by lia. done.
      * rewrite Z.max_r by lia. by apply (Hdur _ _ Et).
    + cbn. rewrite lookup_insert_ne by done. apply Hdur.
  - eapply returns_bind; [apply returns_mergeAttributes|]. intros attrs _.
    apply returns_ret. cbn.
    intros (Hr & Hs & He)%timestamps_in_range_snoc Hfirst id t'.
    pose proof (first_span_earliest_snoc _ _ Hfirst) as Hfirst'.
    specialize (Hdur Hr Hfirst').
    destruct (decide (store.SpanTraceID cs = id)) as [<-|Hne].
    + cbn. rewrite lookup_insert_eq. intros [= <-]. cbn. cbn in Hs, He.
      rewrite Hd, Hstart, Hend, int64_uint64_diff by done.
      rewrite !int64_small by lia. by rewrite Sub_small.
    + cbn. rewrite lookup_insert_ne by done. apply Hdur.
Qed.

Lemma TransformTraces_durations td :
  returns (λ ts,
      timestamps_in_range (batch_spans td) →
      first_span_earliest (batch_spans td) →
      Forall (λ t, store.DurationMs t
                   = Go.Milliseconds
                       (Go.Sub (store.EndTime t) (store.StartTime t))) ts)
    (TransformTraces td).
Proof.
  unfold TransformTraces.
  eapply returns_bind;
    [apply (returns_fold_spans
              (λ acc seen,
                 trace_inv acc seen
                 ∧ (timestamps_in_range seen → first_span_earliest seen →
                    durations_ok acc)) td)|].
  - intros ra svc acc span seen [Hinv Hdur].
    apply returns_and; [by apply trace_inv_addSpan|by apply durations_addSpan].
  - split; [apply trace_inv_empty|]. intros _ _ id t. cbn. by rewrite lookup_empty.
  - intros acc [_ Hdur]. apply returns_ret. intros Hr Hfirst.
    apply Forall_fmap, Forall_forall. intros [id t] Hin%elem_of_map_to_list.
    cbn. by apply (Hdur Hr Hfirst id).
Qed.

(** X6.  When every timestamp of the batch is below 2^63 ns and no span of
    a trace starts before the first-seen span of that trace, every trace
    TransformTraces emits has a duration equal to the milliseconds between
    its start and end time. *)
Theorem TransformTraces_duration_consistent (td : ptrace.Traces) (h : Heap) :
  timestamps_in_range (batch_spans td) →
  first_span_earliest (batch_spans td) →
  ∃ (ts : list store.Trace) (h' : Heap),
    TransformTraces td h = Ok ts h'
    ∧ Forall (λ t, store.DurationMs t
                   = Go.Milliseconds
                       (Go.Sub (store.EndTime t) (store.StartTime t))) ts.
Proof.
  intros Hr Hfirst.
  destruct (TransformTraces_durations td h) as (ts & h' & E & Hd).
  exists ts, h'. auto.
Qed.

(** A root span followed by a child that starts later and ends later. *)
Lemma TransformTraces_duration_consistent_witness :
  timestamps_in_range (batch_spans examples.root_first)
  ∧ first_span_earliest (batch_spans examples.root_first)
  ∧ ∃ (ts : list store.Trace) (h' : Heap),
      TransformTraces examples.root_first ∅ = Ok ts h'
      ∧ Forall (λ t, store.DurationMs t
                     = Go.Milliseconds
                         (Go.Sub (store.EndTime t) (store.StartTime t))) ts.
Proof.
  assert (Hr : timestamps_in_range (batch_spans examples.root_first)).
  { repeat constructor; cbn; lia. }
  assert (Hf : first_span_earliest (batch_spans examples.root_first)).
  { intros id. unfold with_trace_id.
    let l := eval vm_compute in (batch_spans examples.root_first) in
    change (batch_spans examples.root_first) with l.
    rewrite !filter_cons, filter_nil. cbn [fst snd].
    repeat case_decide; repeat constructor; by vm_compute. }
  split; [exact Hr|]. split; [exact Hf|].
  exact (TransformTraces_duration_consistent examples.root_first ∅ Hr Hf).
Defined.

(** ** The log transformer *)

Lemma returns_mapM_Forall2 {A B} (R : A → B → Prop) (body : A → M B) xs :
  (∀ x, returns (R x) (body x)) → returns (Forall2 R xs) (mapM body xs).
Proof.
  intros Hbody. induction xs as [|x xs IH]; cbn.
  - apply returns_ret. constructor.
  - eapply returns_bind; [apply Hbody|]. intros y Hy.
    eapply returns_bind; [apply IH|]. intros ys Hys.
    apply returns_ret. by constructor.
Qed.

Lemma returns_collect_Forall2 {A B G} (R : G → B → Prop) (gl : A → list G)
    (body : A → M (list B)) xs :
  (∀ x, returns (Forall2 R (gl x)) (body x)) →
  returns (Forall2 R (xs ≫= gl)) (collect xs body).
Proof.
  intros Hbody. induction xs as [|x xs IH].
  - apply returns_ret. constructor.
  - change ((x :: xs) ≫= gl) with (gl x ++ (xs ≫= gl)). cbn [collect].
    eapply returns_bind; [apply Hbody|]. intros y Hy.
    eapply returns_bind; [apply IH|]. intros ys Hys.
    apply returns_ret. by apply Forall2_app.
Qed.

Lemma returns_attributesToMap_nil attrs :
  returns (λ r, r = None ↔ attrs = []) (attributesToMap attrs).
Proof.
  intros h. destruct (attributesToMap_lookup attrs h) as (r & h' & E & Hn & _).
  by exists r, h'.
Qed.

Lemma TransformLogs_converted `{Fmt} ld :
  returns (Forall2 log_converted (batch_logs ld)) (TransformLogs ld).
Proof.
  unfold TransformLogs, batch_logs.
  apply (returns_collect_Forall2 log_converted
           (λ rl, sl ← plog.ScopeLogs rl; lr ← sl;
                  [(serviceNameOf (plog.ResourceAttributes rl), lr)])).
  intros rl.
  apply (returns_resource_service (plog.ResourceAttributes rl) _
           (λ ra sn, collect (plog.ScopeLogs rl) _)).
  intros ra.
  apply (returns_collect_Forall2 log_converted
           (λ sl, lr ← sl; [(serviceNameOf (plog.ResourceAttributes rl), lr)])).
  intros sl.
  assert (Hflat : ∀ l : list plog.LogRecord,
            (lr ← l; [(serviceNameOf (plog.ResourceAttributes rl), lr)])
            = map (pair (serviceNameOf (plog.ResourceAttributes rl))) l).
  { intros l. induction l as [|x l IH]; [done|]. cbn. by f_equal. }
  rewrite Hflat.
  eapply returns_weaken;
    [apply (returns_mapM_Forall2
              (λ lr, log_converted
                       (serviceNameOf (plog.ResourceAttributes rl), lr)))|].
  - intros lr.
    eapply returns_bind; [apply returns_attributesToMap_nil|]. intros attrs Hattrs.
    apply returns_ret. unfold log_converted, ID_String, Go.Unix. cbn.
    destruct (ID_IsEmpty (plog.TraceID lr)), (ID_IsEmpty (plog.SpanID lr));
      repeat split; try done; apply Hattrs.
  - intros recs Hrecs. by apply Forall2_fmap_l.
Qed.

(** X7.  TransformLogs never panics and produces one record per OTLP log
    record, in source order: timestamp, severity and service name are
    carried over, the body is its string rendering, a trace or span id is
    attached (as hex) only when it is not all zeros, and the attribute map
    is nil exactly when the record has no attributes. *)
Theorem TransformLogs_one_record_per_log `{Fmt} (ld : plog.Logs) (h : Heap) :
  ∃ (records : list logs.LogRecord) (h' : Heap),
    TransformLogs ld h = Ok records h'
    ∧ length records = length (batch_logs ld)
    ∧ Forall2 log_converted (batch_logs ld) records.
Proof.
  destruct (TransformLogs_converted ld h) as (records & h' & E & Hf).
  exists records, h'. split; [done|]. split; [|done].
  symmetry. by eapply Forall2_length.
Qed.

(** ** The metric transformer *)



















(** ** The logs store *)


Lemma insertLogsLoop_rows `{Engine} h logs : ∀ tx,
  let tx' := (insertLogsLoop h tx logs).1 in
  duckdb.traces tx' = duckdb.traces tx
  ∧ duckdb.spans tx' = duckdb.spans tx
  ∧ duckdb.metrics tx' = duckdb.metrics tx
  ∧ duckdb.current_timestamp tx' = duckdb.current_timestamp tx
  ∧ ∃ stored rows,
      stored `prefix_of` logs
      ∧ duckdb.logs tx' = duckdb.logs tx ++ rows
      ∧ Forall2 (λ log row,
           log_columns row = log_columns (logValues h log)
           ∧ LogsT.created_at row = duckdb.current_timestamp tx) stored rows
      ∧ LogsT.id <$> rows
        = seqZ (duckdb.logs_id_seq tx) (Z.of_nat (length stored))
      ∧ duckdb.logs_id_seq tx'
        = duckdb.logs_id_seq tx + Z.of_nat (length stored)
      ∧ match (insertLogsLoop h tx logs).2 with
        | Success _ => stored = logs
        | Failure _ => ∃ log, (stored ++ [log]) `prefix_of` logs
                              ∧ fault (duckdb.InsertLog (logValues h log)) ≠ None
        end.
Proof.
  induction logs as [|log rest IH]; intros tx; cbn.
  - repeat split; try done. exists [], []. rewrite app_nil_r.
    repeat split; try done. cbn; lia.
  - unfold engine.exec.
    destruct (fault (duckdb.InsertLog (logValues h log))) as [msg|] eqn:Ef; cbn.
    + repeat split; try done. exists [], []. rewrite app_nil_r.
      repeat split; try done; [apply prefix_nil|cbn; lia|].
      exists log. split; [apply prefix_cons, prefix_nil|congruence].
    + match goal with
      | |- context [insertLogsLoop h ?d rest] => specialize (IH d); set (tx1 := d) in *
      end.
      cbn in IH.
      destruct IH as (Ht & Hs & Hm & Hc & stored & rows & Hp & Hl & HF & Hid & Hseq & Hres).
      repeat split; try done.
      eexists (log :: stored), (_ :: rows).
      split; [by apply prefix_cons|].
      split; [by rewrite Hl, <- app_assoc|].
      split; [constructor; [done|exact HF]|].
      split.
      { cbn [fmap list_fmap length]. fold (fmap (M:=list) LogsT.id rows).
        rewrite Hid, Nat2Z.inj_succ.
        rewrite (seqZ_cons (duckdb.logs_id_seq tx)) by lia.
        by rewrite Z.pred_succ. }
      split; [rewrite Hseq; cbn [length]; lia|].
      destruct (insertLogsLoop h tx1 rest).2.
      * by subst.
      * destruct Hres as (l & Hpre & Hf). exists l. split; [|done].
        by apply prefix_cons.
Qed.

(** The loop of processLogs is the loop of InsertLogs run outside a
    transaction. *)
Lemma processLogsLoop_insertLogsLoop `{Engine} h logs : ∀ d,
  processLogsLoop h d logs = insertLogsLoop h d logs.
Proof.
  induction logs as [|log rest IH]; intros d; [done|].
  cbn. unfold InsertLog.
  destruct (engine.exec _ d) as [d' [[]|err]]; [apply IH|done].
Qed.

Lemma InsertLog_insertLogsLoop `{Engine} h d log :
  (InsertLog h d log).1 = (insertLogsLoop h d [log]).1.
Proof.
  unfold InsertLog. cbn.
  by destruct (engine.exec _ d) as [d' [[]|err]].
Qed.

Lemma log_ids_fresh_insertLogsLoop `{Engine} h logs tx :
  log_ids_fresh tx → log_ids_fresh (insertLogsLoop h tx logs).1.
Proof.
  intros [Hnd Hlt].
  destruct (insertLogsLoop_rows h logs tx)
    as (_ & _ & _ & _ & stored & rows & _ & Hl & _ & Hid & Hseq & _).
  unfold log_ids_fresh. rewrite Hl, Hseq, fmap_app, Hid. split.
  - apply NoDup_app. split; [done|]. split; [|apply NoDup_seqZ].
    intros x [r [-> Hr]]%list_elem_of_fmap [Hx _]%elem_of_seqZ.
    rewrite Forall_forall in Hlt. specialize (Hlt r Hr). lia.
  - apply Forall_app. split.
    + eapply Forall_impl; [exact Hlt|]. cbn. lia.
    + assert (HH : Forall (λ x, x < duckdb.logs_id_seq tx
                                    + Z.of_nat (length stored))
                          (LogsT.id <$> rows)).
      { rewrite Hid. apply Forall_seqZ. intros; lia. }
      by apply Forall_fmap in HH.
Qed.

Lemma log_ids_fresh_rollback d tx :
  log_ids_fresh d → duckdb.logs_id_seq d ≤ duckdb.logs_id_seq tx →
  log_ids_fresh (engine.rollback d tx).
Proof.
  intros [Hnd Hlt] Hle. split; [done|]. cbn.
  eapply Forall_impl; [exact Hlt|]. cbn. lia.
Qed.

(** X10.  InsertLogs is all-or-nothing on the tables: whatever the engine
    does, it never touches traces, spans or metrics; when it reports an
    error the logs table is what it was before the call, and when it
    succeeds the table has gained exactly one row per record, in order, with
    the bound columns of that record, the database's current timestamp as
    created_at and consecutive ids starting at the next value of the
    sequence. *)
Theorem InsertLogs_all_or_nothing `{Engine}
    (h : Heap) (d : duckdb.DB) (logs : list logs.LogRecord) :
  duckdb.traces (InsertLogs h d logs).1 = duckdb.traces d
  ∧ duckdb.spans (InsertLogs h d logs).1 = duckdb.spans d
  ∧ duckdb.metrics (InsertLogs h d logs).1 = duckdb.metrics d
  ∧ match (InsertLogs h d logs).2 with
    | Failure _ => duckdb.logs (InsertLogs h d logs).1 = duckdb.logs d
    | Success _ =>
        ∃ rows,
          duckdb.logs (InsertLogs h d logs).1 = duckdb.logs d ++ rows
          ∧ Forall2 (λ log row,
               log_columns row = log_columns (logValues h log)
               ∧ LogsT.created_at row = duckdb.current_timestamp d) logs rows
          ∧ LogsT.id <$> rows
            = seqZ (duckdb.logs_id_seq d) (Z.of_nat (length logs))
    end.
Proof.
  unfold InsertLogs. case_bool_decide as Hlen.
  { cbn. repeat split; try done. exists []. rewrite app_nil_r.
    apply length_zero_iff_nil in Hlen as ->. by repeat split. }
  destruct (fault duckdb.Begin) as [err|]; [by cbn|].
  destruct (insertLogsLoop_rows h logs d)
    as (Ht & Hs & Hm & _ & stored & rows & _ & Hl & HF & Hid & _ & Hres).
  destruct (insertLogsLoop h d logs) as [tx [[]|err]]; cbn in *.
  - subst stored. destruct (fault duckdb.Commit); cbn; [done|].
    repeat split; try done. by exists rows.
  - done.
Qed.

(** X11.  Log ids stay unique.  If no id is stored twice and every stored
    id is below the next value of the sequence, the same holds after
    InsertLog, after InsertLogs (also when it rolls back, since a rollback
    does not rewind the sequence) and after the loop of processLogs; and the
    id InsertLog returns on success is the id of a stored row that no row
    had before. *)
Theorem log_ids_stay_unique `{Engine} (h : Heap) (d : duckdb.DB)
    (log : logs.LogRecord) (logs : list logs.LogRecord) :
  log_ids_fresh d →
  log_ids_fresh (InsertLog h d log).1
  ∧ log_ids_fresh (InsertLogs h d logs).1
  ∧ log_ids_fresh (processLogsLoop h d logs).1
  ∧ ∀ id, (InsertLog h d log).2 = Success id →
      (∃ row, row ∈ duckdb.logs (InsertLog h d log).1 ∧ LogsT.id row = id)
      ∧ Forall (λ r, LogsT.id r ≠ id) (duckdb.logs d).
Proof.
  intros Hd. split; [|split; [|split]].
  - rewrite InsertLog_insertLogsLoop. by apply log_ids_fresh_insertLogsLoop.
  - unfold InsertLogs. case_bool_decide; [done|].
    destruct (fault duckdb.Begin); [done|].
    pose proof (log_ids_fresh_insertLogsLoop h logs d Hd) as Htx.
    destruct (insertLogsLoop_rows h logs d)
      as (_ & _ & _ & _ & stored & rows & _ & _ & _ & _ & Hseq & _).
    destruct (insertLogsLoop h d logs) as [tx [[]|err]]; cbn in *.
    + destruct (fault duckdb.Commit); cbn; [|done].
      apply log_ids_fresh_rollback; [done|lia].
    + apply log_ids_fresh_rollback; [done|lia].
  - rewrite processLogsLoop_insertLogsLoop.
    by apply log_ids_fresh_insertLogsLoop.
  - intros id. unfold InsertLog, engine.exec.
    destruct (fault _); cbn; [done|]. intros [= <-]. split.
    + eexists. split; [apply elem_of_app; right; by apply list_elem_of_singleton|done].
    + destruct Hd as [_ Hlt]. eapply Forall_impl; [exact Hlt|]. cbn. lia.
Qed.

(** Two records offered to an empty database whose engine rejects some
    bodies. *)
Lemma log_ids_stay_unique_witness :
  log_ids_fresh (duckdb.migrated 0)
  ∧ log_ids_fresh
      (@InsertLogs scenario.rejecting ∅ (duckdb.migrated 0)
         [examples.info_log; examples.info_log]).1.
Proof.
  assert (H0 : log_ids_fresh (duckdb.migrated 0)).
  { split; cbn; constructor. }
  split; [exact H0|].
  exact (proj1 (proj2 (@log_ids_stay_unique scenario.rejecting ∅
           (duckdb.migrated 0) examples.info_log
           [examples.info_log; examples.info_log] H0))).
Defined.




Lemma elem_of_select_logs conds d r :
  r ∈ select_logs conds d
  ↔ r ∈ duckdb.logs d ∧ forallb (sql.eval_cond r) conds = true.
Proof.
  unfold select_logs, sql.matching.
  rewrite merge_sort_Permutation, !list_elem_of_In, filter_In. done.
Qed.

Lemma and_iff_both (A B C D : Prop) : (A ↔ C) → (B ↔ D) → (A ∧ B ↔ C ∧ D).
Proof. tauto. Qed.

(** The WHERE clause of GetLogs holds of a row exactly when the row
    satisfies the filters. *)
Lemma GetLogs_where_satisfies f r :
  forallb (sql.eval_cond r) (GetLogs_where f) = true ↔ satisfies f r.
Proof.
  unfold GetLogs_where, satisfies, Go.IsZero.
  rewrite !forallb_app, !andb_true_iff.
  repeat apply and_iff_both;
    case_bool_decide as E; cbn;
    rewrite ?andb_true_r, ?bool_decide_eq_true; try tauto.
  destruct (LogsT.trace_id r) as [t|]; [|naive_solver].
  rewrite bool_decide_eq_true. naive_solver.
Qed.

Lemma GetLogs_Success `{Engine} d f rows :
  GetLogs d f = Success rows →
  0 ≤ logs.Limit f ∧ 0 ≤ logs.Offset f
  ∧ rows = sql.paginate (logs.Limit f) (logs.Offset f)
             (select_logs (GetLogs_where f) d).
Proof.
  unfold GetLogs. destruct (fault _); [done|].
  case_bool_decide as E; [done|]. intros [= <-].
  repeat split; lia.
Qed.





(** ** Searching log bodies *)

Lemma like_chars_percent p s :
  sql.like_chars ("%"%char :: p) s
  = sql.like_chars p s
    || match s with [] => false | _ :: s' => sql.like_chars ("%"%char :: p) s' end.
Proof. by destruct s. Qed.

Lemma like_chars_skip p s :
  sql.like_chars ("%"%char :: p) s = true
  ↔ ∃ pre post, s = pre ++ post ∧ sql.like_chars p post = true.
Proof.
  induction s as [|c s IH]; rewrite like_chars_percent.
  - rewrite orb_false_r. split.
    + intros Hp. by exists [], [].
    + intros (pre & post & Hs & Hp).
      symmetry in Hs. apply app_eq_nil in Hs as [-> ->]. done.
  - rewrite orb_true_iff, IH. split.
    + intros [Hp|(pre & post & -> & Hp)].
      * by exists [], (c :: s).
      * by exists (c :: pre), post.
    + intros (pre & post & Hs & Hp). destruct pre as [|c' pre].
      * left. cbn in Hs. by subst.
      * right. injection Hs as -> ->. by exists pre, post.
Qed.

Lemma like_chars_literal c p s :
  c ≠ "%"%char → c ≠ "_"%char →
  sql.like_chars (c :: p) s = true
  ↔ ∃ s', s = c :: s' ∧ sql.like_chars p s' = true.
Proof.
  intros Hp Hu. cbn.
  rewrite (proj2 (Ascii.eqb_neq c "%") Hp), (proj2 (Ascii.eqb_neq c "_") Hu).
  destruct s as [|d s]; cbn.
  - split; [done|]. by intros (s' & ? & _).
  - rewrite andb_true_iff, Ascii.eqb_eq. split.
    + intros [-> Hl]. by exists s.
    + intros (s' & [= -> ->] & Hl). done.
Qed.

Lemma like_chars_literals t p s :
  Forall (λ c : ascii, c ≠ "%"%char ∧ c ≠ "_"%char) t →
  sql.like_chars (t ++ p) s = true
  ↔ ∃ s', s = t ++ s' ∧ sql.like_chars p s' = true.
Proof.
  intros Ht. revert s. induction Ht as [|c t [Hp Hu] Ht IH]; intros s.
  - cbn. split; [by exists s|]. by intros (s' & -> & Hl).
  - cbn [app]. rewrite like_chars_literal by done. split.
    + intros (s1 & -> & (s' & -> & Hl)%IH). by exists s'.
    + intros (s' & -> & Hl). exists (t ++ s'). split; [done|].
      apply IH. by exists s'.
Qed.

Lemma like_chars_anything s : sql.like_chars ["%"%char] s = true.
Proof. apply like_chars_skip. exists s, []. by rewrite app_nil_r. Qed.

Lemma list_ascii_of_string_app (a b : string) :
  String.list_ascii_of_string (a +:+ b)
  = String.list_ascii_of_string a ++ String.list_ascii_of_string b.
Proof. induction a as [|c a IH]; [done|]. simpl. by rewrite IH. Qed.

Lemma string_of_list_ascii_app (a b : list ascii) :
  String.string_of_list_ascii (a ++ b)
  = String.string_of_list_ascii a +:+ String.string_of_list_ascii b.
Proof. induction a as [|c a IH]; [done|]. simpl. by rewrite IH. Qed.

(** With a text free of wildcards, the pattern GetLogs builds matches
    exactly the bodies that contain the text. *)
Lemma like_contains (body text : string) :
  wildcard_free text →
  sql.like body ("%" +:+ text +:+ "%") = true ↔ contains body text.
Proof.
  intros Hfree. unfold sql.like, contains.
  rewrite !list_ascii_of_string_app.
  change (String.list_ascii_of_string "%") with ["%"%char].
  cbn [app]. rewrite like_chars_skip. split.
  - intros (pre & rest & Hb & (post & -> & _)%like_chars_literals); [|done].
    exists (String.string_of_list_ascii pre), (String.string_of_list_ascii post).
    rewrite <- (String.string_of_list_ascii_of_string body), Hb.
    rewrite !string_of_list_ascii_app.
    by rewrite String.string_of_list_ascii_of_string.
  - intros (pre & post & ->).
    exists (String.list_ascii_of_string pre),
      (String.list_ascii_of_string text ++ String.list_ascii_of_string post).
    split; [by rewrite !list_ascii_of_string_app|].
    apply like_chars_literals; [done|].
    eexists. split; [done|]. apply like_chars_anything.
Qed.

(** A pattern of wildcards alone matches every body. *)
Lemma like_percents (body : list ascii) (p : list ascii) :
  Forall (λ c : ascii, c = "%"%char) p → p ≠ [] →
  sql.like_chars p body = true.
Proof.
  intros Hp. revert body. induction Hp as [|c p -> Hp IH]; [done|].
  intros body _. apply like_chars_skip. destruct p as [|c' p].
  - exists body, []. by rewrite app_nil_r.
  - exists [], body. split; [done|]. by apply IH.
Qed.

Lemma paginate_all {A} (limit : Z) (l : list A) :
  Z.of_nat (length l) ≤ limit → sql.paginate limit 0 l = l.
Proof.
  intros Hl. unfold sql.paginate. change (Z.to_nat 0) with 0%nat.
  rewrite drop_0, take_ge; [done|lia].
Qed.

Lemma GetLogs_rows_satisfy `{Engine} d f rows :
  GetLogs d f = Success rows →
  Forall (λ r, r ∈ duckdb.logs d ∧ satisfies f r) rows.
Proof.
  intros (_ & _ & ->)%GetLogs_Success.
  apply Forall_take, Forall_drop, Forall_forall. intros r Hr.
  apply elem_of_select_logs in Hr as [Hin Hc].
  split; [done|]. by apply GetLogs_where_satisfies.
Qed.

Lemma GetLogs_full_page `{Engine} d f rows r :
  GetLogs d f = Success rows →
  logs.Offset f = 0 →
  Z.of_nat (length (duckdb.logs d)) ≤ logs.Limit f →
  r ∈ duckdb.logs d → satisfies f r → r ∈ rows.
Proof.
  intros (_ & _ & ->)%GetLogs_Success -> Hlen Hin Hsat.
  rewrite paginate_all.
  - apply elem_of_select_logs. split; [done|].
    by apply GetLogs_where_satisfies.
  - rewrite select_logs_length. unfold sql.matching.
    etrans; [|exact Hlen]. apply inj_le, filter_length_le.
Qed.

(** X14.  The search text of GetLogs is a substring search as long as the
    text holds neither [%] nor [_]: every returned row has a body that
    contains the text, and (with Offset 0 and a Limit of at least the size
    of the table) every stored log that satisfies the other filters and
    whose body contains the text is returned. *)
Theorem GetLogs_search_finds_substrings `{Engine}
    (d : duckdb.DB) (f : logs.LogFilters) (rows : list LogsT.Row) :
  GetLogs d f = Success rows →
  logs.SearchText f ≠ "" →
  wildcard_free (logs.SearchText f) →
  Forall (λ r, contains (LogsT.body r) (logs.SearchText f)) rows
  ∧ (logs.Offset f = 0 →
     Z.of_nat (length (duckdb.logs d)) ≤ logs.Limit f →
     ∀ r, r ∈ duckdb.logs d →
          satisfies (with_search "" f) r →
          contains (LogsT.body r) (logs.SearchText f) →
          r ∈ rows).
Proof.
  intros HG Hne Hfree. split.
  - eapply Forall_impl; [by apply GetLogs_rows_satisfy|].
    intros r [_ (_ & _ & _ & _ & _ & Hs)]. cbn beta in Hs.
    by apply like_contains, Hs.
  - intros Ho Hlen r Hin (H1 & H2 & H3 & H4 & H5 & _) Hc.
    eapply GetLogs_full_page; [done..|].
    repeat split; try done. intros _. by apply like_contains.
Qed.

(** Searching two stored logs for the word served. *)
Lemma GetLogs_search_finds_substrings_witness :
  @GetLogs scenario.no_faults scenario.two_traces_logs
    (with_search "served" (scenario.by_trace ""))
  = Success [scenario.log_row 2 "bbbb"; scenario.log_row 1 "aaaa"]
  ∧ wildcard_free "served"
  ∧ Forall (λ r, contains (LogsT.body r) "served")
      [scenario.log_row 2 "bbbb"; scenario.log_row 1 "aaaa"].
Proof.
  assert (Hfree : wildcard_free "served") by (repeat constructor; discriminate).
  split; [reflexivity|]. split; [exact Hfree|].
  refine (proj1 (@GetLogs_search_finds_substrings scenario.no_faults
            scenario.two_traces_logs
            (with_search "served" (scenario.by_trace ""))
            [scenario.log_row 2 "bbbb"; scenario.log_row 1 "aaaa"]
            eq_refl _ Hfree)).
  discriminate.
Defined.

(** X15.  The search text is not escaped before it is put between [%]
    signs: for a non-empty text made of [%] characters alone the WHERE
    clause selects the same rows as without a search text, so (with Offset 0
    and a Limit of at least the size of the table) GetLogs returns the same
    rows, up to the order of equal timestamps, as without a search text. *)
Theorem GetLogs_wildcard_search_matches_all `{Engine}
    (d : duckdb.DB) (f : logs.LogFilters) :
  logs.SearchText f ≠ "" →
  Forall (λ c : ascii, c = "%"%char)
    (String.list_ascii_of_string (logs.SearchText f)) →
  (∀ r, satisfies f r ↔ satisfies (with_search "" f) r)
  ∧ (∀ rows rows',
       logs.Offset f = 0 →
       Z.of_nat (length (duckdb.logs d)) ≤ logs.Limit f →
       GetLogs d f = Success rows →
       GetLogs d (with_search "" f) = Success rows' →
       rows ≡ₚ rows').
Proof.
  intros Hne Hpct.
  assert (Hsat : ∀ r, satisfies f r ↔ satisfies (with_search "" f) r).
  { intros r. unfold satisfies.
    cbn [with_search logs.StartTime logs.EndTime logs.FServiceName
         logs.FTraceID logs.MinSeverity logs.SearchText].
    repeat apply and_iff_both; try done. split; [done|]. intros _ _.
    unfold sql.like. apply like_percents.
    - rewrite !list_ascii_of_string_app, !Forall_app. repeat split; try done.
      all: by repeat constructor.
    - rewrite list_ascii_of_string_app. done. }
  split; [exact Hsat|].
  intros rows rows' Ho Hlen (_ & _ & ->)%GetLogs_Success
    (_ & _ & ->)%GetLogs_Success.
  cbn [with_search logs.Limit logs.Offset]. rewrite Ho.
  rewrite !paginate_all.
  - unfold select_logs, sql.matching. rewrite !merge_sort_Permutation.
    erewrite filter_ext; [done|]. intros r.
    apply Bool.eq_iff_eq_true. rewrite !GetLogs_where_satisfies. apply Hsat.
  - rewrite select_logs_length. unfold sql.matching.
    etrans; [|exact Hlen]. apply inj_le, filter_length_le.
  - rewrite select_logs_length. unfold sql.matching.
    etrans; [|exact Hlen]. apply inj_le, filter_length_le.
Qed.

(** A stored log, and a search for a lone percent sign. *)
Lemma GetLogs_wildcard_search_matches_all_witness :
  satisfies (with_search "%" (scenario.by_trace "")) (scenario.log_row 1 "aaaa")
  ↔ satisfies (with_search "" (with_search "%" (scenario.by_trace "")))
      (scenario.log_row 1 "aaaa").
Proof.
  refine (proj1 (@GetLogs_wildcard_search_matches_all scenario.no_faults
            scenario.two_traces_logs
            (with_search "%" (scenario.by_trace "")) _ _)
            (scenario.log_row 1 "aaaa")).
  - discriminate.
  - by repeat constructor.
Defined.

(** ** Counting logs *)

Lemma CountLogs_where_no_trace_id f :
  GetLogs_where (with_trace_id_filter "" f) = CountLogs_where f.
Proof.
  unfold GetLogs_where, CountLogs_where.
  cbn [with_trace_id_filter logs.StartTime logs.EndTime logs.FServiceName
       logs.FTraceID logs.MinSeverity logs.SearchText].
  by rewrite (bool_decide_false ("" ≠ "")) by (by intros []).
Qed.

Lemma matching_CountLogs_where f rows :
  (length (sql.matching (GetLogs_where f) rows)
   ≤ length (sql.matching (CountLogs_where f) rows))%nat.
Proof.
  unfold sql.matching. induction rows as [|r rows IH]; [done|]. cbn.
  destruct (forallb (sql.eval_cond r) (GetLogs_where f)) eqn:EG.
  - assert (forallb (sql.eval_cond r) (CountLogs_where f) = true) as ->.
    { rewrite CountLogs_where_drops_trace_id.
      rewrite forallb_forall in EG |- *. intros c [Hc _]%filter_In.
      by apply EG. }
    cbn. lia.
  - destruct (forallb (sql.eval_cond r) (CountLogs_where f)); cbn; lia.
Qed.

(** X16.  CountLogs counts the stored logs that satisfy the filters other
    than the trace id: its result does not depend on FTraceID, Limit or
    Offset; it is never below the number of rows GetLogs returns for the
    same filters; and it is the number of rows GetLogs returns once the
    trace id filter is cleared and the page is large enough. *)
Theorem CountLogs_counts_without_trace_id `{Engine}
    (d : duckdb.DB) (f : logs.LogFilters) :
  (∀ traceID limit offset,
     CountLogs d (with_page limit offset (with_trace_id_filter traceID f))
     = CountLogs d f)
  ∧ (∀ n rows,
       CountLogs d f = Success n → GetLogs d f = Success rows →
       Z.of_nat (length rows) ≤ n)
  ∧ (∀ n rows,
       CountLogs d f = Success n →
       GetLogs d (with_page n 0 (with_trace_id_filter "" f)) = Success rows →
       Z.of_nat (length rows) = n).
Proof.
  split; [done|]. split.
  - intros n rows Hc (_ & _ & ->)%GetLogs_Success.
    unfold CountLogs in Hc. destruct (fault _); [done|].
    injection Hc as <-. unfold sql.paginate.
    rewrite length_take, length_drop, select_logs_length.
    pose proof (matching_CountLogs_where f (duckdb.logs d)). lia.
  - intros n rows Hc (_ & _ & ->)%GetLogs_Success.
    unfold CountLogs in Hc. destruct (fault _); [done|].
    injection Hc as <-.
    cbn [with_page logs.Limit logs.Offset].
    change (GetLogs_where (with_page _ 0 (with_trace_id_filter "" f)))
      with (GetLogs_where (with_trace_id_filter "" f)).
    rewrite CountLogs_where_no_trace_id, paginate_all.
    + by rewrite select_logs_length.
    + by rewrite select_logs_length.
Qed.

(** ** The traces store *)

Lemma exec_InsertSpanIgnore_spans `{Engine} r tx :
  let tx' := (engine.exec (duckdb.InsertSpanIgnore r) tx).1 in
  duckdb.traces tx' = duckdb.traces tx
  ∧ duckdb.logs tx' = duckdb.logs tx
  ∧ duckdb.metrics tx' = duckdb.metrics tx
  ∧ duckdb.logs_id_seq tx' = duckdb.logs_id_seq tx
  ∧ duckdb.current_timestamp tx' = duckdb.current_timestamp tx
  ∧ match (engine.exec (duckdb.InsertSpanIgnore r) tx).2 with
    | Failure _ => tx' = tx ∧ fault (duckdb.InsertSpanIgnore r) ≠ None
    | Success _ =>
        match duckdb.spans tx !! SpansT.span_id r with
        | Some _ => tx' = tx
        | None =>
            duckdb.spans tx'
            = <[SpansT.span_id r :=
                  stored_span_row (duckdb.current_timestamp tx) r]>
                (duckdb.spans tx)
        end
    end.
Proof.
  unfold engine.exec. destruct (fault _) as [msg|] eqn:Ef; cbn.
  - by repeat split.
  - unfold engine.insert_span_ignore.
    destruct (duckdb.spans tx !! SpansT.span_id r) eqn:El; cbn;
      by rewrite ?El.
Qed.

Lemma insertSpansLoop_spans `{Engine} h spans : ∀ tx,
  let tx' := (insertSpansLoop h tx spans).1 in
  let now := duckdb.current_timestamp tx in
  duckdb.traces tx' = duckdb.traces tx
  ∧ duckdb.logs tx' = duckdb.logs tx
  ∧ duckdb.metrics tx' = duckdb.metrics tx
  ∧ duckdb.logs_id_seq tx' = duckdb.logs_id_seq tx
  ∧ duckdb.current_timestamp tx' = duckdb.current_timestamp tx
  ∧ (∀ id old, duckdb.spans tx !! id = Some old →
               duckdb.spans tx' !! id = Some old)
  ∧ ((∀ s, s ∈ spans → is_Some (duckdb.spans tx !! store.SpanID s)) →
     tx' = tx)
  ∧ ∃ stored,
      stored `prefix_of` spans
      ∧ match (insertSpansLoop h tx spans).2 with
        | Success _ => stored = spans
        | Failure _ =>
            ∃ s, (stored ++ [s]) `prefix_of` spans
                 ∧ fault (duckdb.InsertSpanIgnore (spanValues h s)) ≠ None
        end
      ∧ (∀ s, s ∈ stored → is_Some (duckdb.spans tx' !! store.SpanID s))
      ∧ (∀ id row, duckdb.spans tx' !! id = Some row →
           duckdb.spans tx !! id = Some row
           ∨ ∃ s, s ∈ stored ∧ id = store.SpanID s
                  ∧ row = stored_span_row now (spanValues h s))
      ∧ (NoDup (store.SpanID <$> stored) →
         ∀ s, s ∈ stored → duckdb.spans tx !! store.SpanID s = None →
              duckdb.spans tx' !! store.SpanID s
              = Some (stored_span_row now (spanValues h s))).
Proof.
  induction spans as [|s0 rest IH]; intros tx; cbn zeta.
  - cbn. repeat split; try done. exists []. repeat split; try done.
    + intros s Hs. by apply elem_of_nil in Hs.
    + intros id row Hr. by left.
    + intros _ s Hs. by apply elem_of_nil in Hs.
  - cbn [insertSpansLoop]. unfold insertSpan.
    pose proof (exec_InsertSpanIgnore_spans (spanValues h s0) tx) as Hx.
    cbn zeta in Hx.
    destruct (engine.exec (duckdb.InsertSpanIgnore (spanValues h s0)) tx)
      as [tx1 [[]|err]]; cbn [fst snd] in *.
    + destruct Hx as (Ht & Hl & Hm & Hq & Hc & Hx).
      specialize (IH tx1). cbn zeta in IH.
      destruct IH as (Ht' & Hl' & Hm' & Hq' & Hc' & Hfr & Hsame & stored
                      & Hp & Hres & Hin & Hnew & Hnd).
      assert (Hfr1 : ∀ id old, duckdb.spans tx !! id = Some old →
                               duckdb.spans tx1 !! id = Some old).
      { intros id old Ho. change (SpansT.span_id (spanValues h s0))
          with (store.SpanID s0) in Hx.
        destruct (duckdb.spans tx !! store.SpanID s0) eqn:E0.
        - by subst tx1.
        - rewrite Hx. rewrite lookup_insert_ne; [done|]. congruence. }
      change (SpansT.span_id (spanValues h s0)) with (store.SpanID s0) in Hx.
      split; [congruence|]. split; [congruence|]. split; [congruence|].
      split; [congruence|]. split; [congruence|].
      split; [intros id old Ho; by apply Hfr, Hfr1|].
      split.
      { intros Hall.
        destruct (Hall s0) as [old Hold]; [apply elem_of_cons; by left|].
        rewrite Hold in Hx. subst tx1. apply Hsame.
        intros s Hs. apply Hall, elem_of_cons. by right. }
      exists (s0 :: stored).
      split; [by apply prefix_cons|].
      split.
      { destruct (insertSpansLoop h tx1 rest).2.
        - by subst.
        - destruct Hres as (s & Hpre & Hf). exists s.
          split; [by apply prefix_cons|done]. }
      split.
      { intros s [->|Hs]%elem_of_cons; [|by apply Hin].
        destruct (duckdb.spans tx !! store.SpanID s0) eqn:E0.
        - subst tx1. eexists. by apply Hfr.
        - eexists. apply Hfr. rewrite Hx. apply lookup_insert_eq. }
      split.
      { intros id row Hr. destruct (Hnew id row Hr) as [H1|(s & Hs & -> & ->)].
        - destruct (duckdb.spans tx !! store.SpanID s0) eqn:E0.
          + subst tx1. by left.
          + rewrite Hx in H1.
            destruct (decide (id = store.SpanID s0)) as [->|Hne].
            * rewrite lookup_insert_eq in H1. injection H1 as <-.
              right. exists s0. split; [apply elem_of_cons; by left|done].
            * rewrite lookup_insert_ne in H1 by done. by left.
        - right. exists s. split; [apply elem_of_cons; by right|].
          by rewrite Hc. }
      intros Hnodup s Hs Hnone.
      cbn [fmap list_fmap] in Hnodup.
      apply NoDup_cons in Hnodup as [Hnotin Hnodup].
      apply elem_of_cons in Hs as [->|Hs].
      * rewrite Hnone in Hx. apply Hfr. rewrite Hx. apply lookup_insert_eq.
      * rewrite <- Hc. apply Hnd; [done..|].
        assert (store.SpanID s ≠ store.SpanID s0) as Hne.
        { intros Heq. apply Hnotin. rewrite <- Heq.
          by apply list_elem_of_fmap_2. }
        destruct (duckdb.spans tx !! store.SpanID s0) eqn:E0.
        -- by subst tx1.
        -- rewrite Hx. by rewrite lookup_insert_ne.
    + destruct Hx as (_ & _ & _ & _ & _ & -> & Hf).
      repeat split; try done.
      exists []. split; [apply prefix_nil|].
      split; [exists s0; split; [apply prefix_cons, prefix_nil|done]|].
      split; [intros s Hs; by apply elem_of_nil in Hs|].
      split; [intros id row Hr; by left|].
      intros _ s Hs. by apply elem_of_nil in Hs.
Qed.

Lemma insertSpansLoop_result `{Engine} h spans : ∀ tx tx0,
  (insertSpansLoop h tx spans).2 = (insertSpansLoop h tx0 spans).2.
Proof.
  induction spans as [|s rest IH]; intros tx tx0; [done|].
  cbn. unfold insertSpan, engine.exec.
  destruct (fault _); [done|]. cbn. apply IH.
Qed.

Lemma upsert_trace_row r d :
  engine.upsert_trace r d
  = engine.set_traces
      (<[TracesT.trace_id r :=
           upserted_row (duckdb.current_timestamp d) r
             (duckdb.traces d !! TracesT.trace_id r)]> (duckdb.traces d)) d.
Proof.
  unfold engine.upsert_trace, upserted_row.
  by destruct (duckdb.traces d !! TracesT.trace_id r).
Qed.

(** What a successful InsertTrace leaves behind. *)
Lemma InsertTrace_Success `{Engine} h d trace :
  (InsertTrace h d trace).2 = Success tt →
  let d' := (InsertTrace h d trace).1 in
  let now := duckdb.current_timestamp d in
  d' = (insertSpansLoop h
          (engine.upsert_trace (traceValues h trace) d) (store.Spans trace)).1
  ∧ fault duckdb.Begin = None
  ∧ fault (duckdb.UpsertTrace (traceValues h trace)) = None
  ∧ fault duckdb.Commit = None
  ∧ (insertSpansLoop h (engine.upsert_trace (traceValues h trace) d)
       (store.Spans trace)).2 = Success tt
  ∧ duckdb.traces d'
    = <[store.TraceID trace :=
          upserted_row now (traceValues h trace)
            (duckdb.traces d !! store.TraceID trace)]> (duckdb.traces d)
  ∧ duckdb.logs d' = duckdb.logs d
  ∧ duckdb.metrics d' = duckdb.metrics d
  ∧ duckdb.logs_id_seq d' = duckdb.logs_id_seq d
  ∧ duckdb.current_timestamp d' = now
  ∧ (∀ id old, duckdb.spans d !! id = Some old →
               duckdb.spans d' !! id = Some old)
  ∧ (∀ s, s ∈ store.Spans trace → is_Some (duckdb.spans d' !! store.SpanID s))
  ∧ (∀ id row, duckdb.spans d' !! id = Some row →
       duckdb.spans d !! id = Some row
       ∨ ∃ s, s ∈ store.Spans trace ∧ id = store.SpanID s
              ∧ row = stored_span_row now (spanValues h s))
  ∧ (NoDup (store.SpanID <$> store.Spans trace) →
     ∀ s, s ∈ store.Spans trace → duckdb.spans d !! store.SpanID s = None →
          duckdb.spans d' !! store.SpanID s
          = Some (stored_span_row now (spanValues h s))).
Proof.
  unfold InsertTrace, engine.exec.
  destruct (fault duckdb.Begin); [done|].
  destruct (fault (duckdb.UpsertTrace _)); [done|]. cbn [fst snd].
  pose proof (insertSpansLoop_spans h (store.Spans trace)
                (engine.upsert_trace (traceValues h trace) d)) as Hloop.
  cbn zeta in Hloop.
  destruct (insertSpansLoop h _ (store.Spans trace)) as [tx' [[]|err]];
    [|done].
  destruct (fault duckdb.Commit); [done|]. cbn [fst snd] in *. intros _.
  destruct Hloop as (Ht & Hl & Hm & Hq & Hc & Hfr & _ & stored & _ & ->
                     & Hin & Hnew & Hnd).
  rewrite upsert_trace_row in *. cbn in *.
  repeat split; try done.
Qed.

Lemma InsertTrace_Failure `{Engine} h d trace err :
  (InsertTrace h d trace).2 = Failure err →
  duckdb.traces (InsertTrace h d trace).1 = duckdb.traces d
  ∧ duckdb.spans (InsertTrace h d trace).1 = duckdb.spans d
  ∧ duckdb.logs (InsertTrace h d trace).1 = duckdb.logs d
  ∧ duckdb.metrics (InsertTrace h d trace).1 = duckdb.metrics d.
Proof.
  unfold InsertTrace, engine.exec.
  destruct (fault duckdb.Begin); [done|].
  destruct (fault (duckdb.UpsertTrace _)); [done|]. cbn [fst snd].
  destruct (insertSpansLoop h _ (store.Spans trace)) as [tx' [[]|err']];
    [|done].
  by destruct (fault duckdb.Commit).
Qed.

(** X17.  InsertTrace is all-or-nothing: it never touches logs or metrics;
    when it reports an error (from BEGIN, the upsert, any span insert or
    COMMIT) the traces and spans tables are what they were before the call;
    when it succeeds, exactly the row of its trace id is inserted or
    updated, every span stored before is kept as it was, every span of the
    trace has a row under its span id, and every other new row is the bound
    row of some span of the trace with the database's current timestamp as
    created_at. *)
Theorem InsertTrace_all_or_nothing `{Engine}
    (h : Heap) (d : duckdb.DB) (trace : store.Trace) :
  duckdb.logs (InsertTrace h d trace).1 = duckdb.logs d
  ∧ duckdb.metrics (InsertTrace h d trace).1 = duckdb.metrics d
  ∧ match (InsertTrace h d trace).2 with
    | Failure _ =>
        duckdb.traces (InsertTrace h d trace).1 = duckdb.traces d
        ∧ duckdb.spans (InsertTrace h d trace).1 = duckdb.spans d
    | Success _ =>
        duckdb.traces (InsertTrace h d trace).1
        = <[store.TraceID trace :=
              upserted_row (duckdb.current_timestamp d) (traceValues h trace)
                (duckdb.traces d !! store.TraceID trace)]> (duckdb.traces d)
        ∧ (∀ id old, duckdb.spans d !! id = Some old →
             duckdb.spans (InsertTrace h d trace).1 !! id = Some old)
        ∧ (∀ s, s ∈ store.Spans trace →
             is_Some (duckdb.spans (InsertTrace h d trace).1 !! store.SpanID s))
        ∧ (∀ id row,
             duckdb.spans (InsertTrace h d trace).1 !! id = Some row →
             duckdb.spans d !! id = Some row
             ∨ ∃ s, s ∈ store.Spans trace ∧ id = store.SpanID s
                    ∧ row = stored_span_row (duckdb.current_timestamp d)
                              (spanValues h s))
    end.
Proof.
  destruct (InsertTrace h d trace).2 as [[]|err] eqn:E.
  - destruct (InsertTrace_Success h d trace E)
      as (_ & _ & _ & _ & _ & Ht & Hl & Hm & _ & _ & Hfr & Hin & Hnew & _).
    by repeat split.
  - destruct (InsertTrace_Failure h d trace err E) as (Ht & Hs & Hl & Hm).
    by repeat split.
Qed.

Lemma upserted_row_again now now' r old :
  upserted_row now' r (Some (upserted_row now r old)) = upserted_row now r old.
Proof. by destruct old. Qed.

Lemma set_traces_same d : engine.set_traces (duckdb.traces d) d = d.
Proof. by destruct d. Qed.

(** X18.  InsertTrace is idempotent: once a call has succeeded, repeating
    it with the same trace, at whatever later time, succeeds again and
    leaves every table exactly as the first call left it. *)
Theorem InsertTrace_idempotent `{Engine}
    (h : Heap) (d : duckdb.DB) (trace : store.Trace) (later : Z) :
  (InsertTrace h d trace).2 = Success tt →
  InsertTrace h (at_time later (InsertTrace h d trace).1) trace
  = (at_time later (InsertTrace h d trace).1, Success tt).
Proof.
  intros E.
  destruct (InsertTrace_Success h d trace E)
    as (_ & Hb & Hu & Hc & Hres & Ht & _ & _ & _ & Hnow & _ & Hin & _ & _).
  set (d1 := at_time later (InsertTrace h d trace).1).
  change (duckdb.traces (InsertTrace h d trace).1) with (duckdb.traces d1) in Ht.
  change (∀ s, s ∈ store.Spans trace →
               is_Some (duckdb.spans d1 !! store.SpanID s)) in Hin.
  unfold InsertTrace, engine.exec. rewrite Hb, Hu, Hc. cbn [fst snd].
  assert (Hup : engine.upsert_trace (traceValues h trace) d1 = d1).
  { rewrite upsert_trace_row.
    change (TracesT.trace_id (traceValues h trace)) with (store.TraceID trace).
    rewrite Ht, lookup_insert_eq, upserted_row_again, insert_insert_eq.
    rewrite <- Ht. apply set_traces_same. }
  rewrite Hup.
  destruct (insertSpansLoop_spans h (store.Spans trace) d1)
    as (_ & _ & _ & _ & _ & _ & Hsame & _).
  specialize (Hsame Hin).
  pose proof (insertSpansLoop_result h (store.Spans trace) d1
                (engine.upsert_trace (traceValues h trace) d)) as Hr.
  rewrite Hres in Hr.
  destruct (insertSpansLoop h d1 (store.Spans trace)) as [tx [[]|err]];
    cbn [fst snd] in *; [|done].
  by subst tx.
Qed.

(** A batch sent twice to a database that already holds its trace. *)
Lemma InsertTrace_idempotent_witness :
  (@InsertTrace scenario.no_faults ∅ scenario.one_trace scenario.later_batch).2
  = Success tt
  ∧ @InsertTrace scenario.no_faults ∅
      (at_time 20 (@InsertTrace scenario.no_faults ∅ scenario.one_trace
                     scenario.later_batch).1) scenario.later_batch
    = (at_time 20 (@InsertTrace scenario.no_faults ∅ scenario.one_trace
                     scenario.later_batch).1, Success tt).
Proof.
  split; [reflexivity|].
  exact (@InsertTrace_idempotent scenario.no_faults ∅ scenario.one_trace
           scenario.later_batch 20 eq_refl).
Defined.

Lemma earlier_first_transitive : Transitive earlier_first.
Proof. unfold earlier_first. intros a b c. lia. Qed.

Lemma earlier_first_total : Total earlier_first.
Proof. unfold earlier_first. intros a b. lia. Qed.

Lemma getSpansByTraceID_Success `{Engine} d traceID rows :
  getSpansByTraceID d traceID = Success rows →
  StronglySorted earlier_first rows
  ∧ ∀ row, row ∈ rows
           ↔ SpansT.trace_id row = traceID
             ∧ ∃ id, duckdb.spans d !! id = Some row.
Proof.
  unfold getSpansByTraceID. destruct (fault _); [done|]. intros [= <-].
  split.
  - apply (@StronglySorted_merge_sort _ earlier_first _
             earlier_first_transitive earlier_first_total).
  - intros row. rewrite merge_sort_Permutation, list_elem_of_In, filter_In.
    rewrite <- list_elem_of_In, bool_decide_eq_true, list_elem_of_fmap.
    split.
    + intros [([id r] & -> & Hr%elem_of_map_to_list) Ht]. eauto.
    + intros [Ht [id Hr]]. split; [|done].
      exists (id, row). split; [done|]. by apply elem_of_map_to_list.
Qed.

(** X19.  What GetTraceByID returns.  On success the trace is the row
    stored under the requested id and the spans are exactly the stored
    spans whose trace_id column is that id, ordered by start time; a trace
    id with no row gives the error trace not found whatever spans are
    stored under it, and every other error is an engine fault of one of the
    two queries. *)
Theorem GetTraceByID_returns_stored_trace `{Engine}
    (d : duckdb.DB) (traceID : string) :
  match GetTraceByID d traceID with
  | Success (trace, spans) =>
      duckdb.traces d !! traceID = Some trace
      ∧ StronglySorted earlier_first spans
      ∧ ∀ row, row ∈ spans
               ↔ SpansT.trace_id row = traceID
                 ∧ ∃ id, duckdb.spans d !! id = Some row
  | Failure err =>
      fault (duckdb.SelectTrace traceID) ≠ None
      ∨ (duckdb.traces d !! traceID = None ∧ err = "trace not found")
      ∨ fault (duckdb.SelectSpans traceID) ≠ None
  end.
Proof.
  unfold GetTraceByID.
  destruct (fault (duckdb.SelectTrace traceID)); [by left|].
  destruct (duckdb.traces d !! traceID) as [trace|]; [|right; by left].
  destruct (getSpansByTraceID d traceID) as [spans|err] eqn:Es.
  - by destruct (getSpansByTraceID_Success d traceID spans Es).
  - right; right. unfold getSpansByTraceID in Es.
    by destruct (fault (duckdb.SelectSpans traceID)).
Qed.

(** X20.  A trace that was not stored before can be read back after a
    successful InsertTrace: GetTraceByID returns the bound values of the
    trace with the database's current timestamp as created_at, and the
    spans returned include the bound row of every span of the trace that
    carries the trace's id and whose span id was not stored before
    (provided the span ids of the trace are distinct). *)
Theorem InsertTrace_GetTraceByID_round_trip `{Engine}
    (h : Heap) (d : duckdb.DB) (trace : store.Trace) :
  (InsertTrace h d trace).2 = Success tt →
  duckdb.traces d !! store.TraceID trace = None →
  NoDup (store.SpanID <$> store.Spans trace) →
  fault (duckdb.SelectTrace (store.TraceID trace)) = None →
  fault (duckdb.SelectSpans (store.TraceID trace)) = None →
  ∃ spans,
    GetTraceByID (InsertTrace h d trace).1 (store.TraceID trace)
    = Success (stored_trace_row (duckdb.current_timestamp d)
                 (traceValues h trace), spans)
    ∧ ∀ s, s ∈ store.Spans trace →
           store.SpanTraceID s = store.TraceID trace →
           duckdb.spans d !! store.SpanID s = None →
           stored_span_row (duckdb.current_timestamp d) (spanValues h s)
           ∈ spans.
Proof.
  intros E Hnew Hnd Hft Hfs.
  destruct (InsertTrace_Success h d trace E)
    as (_ & _ & _ & _ & _ & Ht & _ & _ & _ & _ & _ & _ & _ & Hrow).
  set (d1 := (InsertTrace h d trace).1) in *.
  unfold GetTraceByID. rewrite Hft, Ht, lookup_insert_eq, Hnew.
  destruct (getSpansByTraceID d1 (store.TraceID trace)) as [spans|err] eqn:Es.
  - exists spans. split; [done|]. intros s Hs Hid Hnone.
    apply (getSpansByTraceID_Success d1 _ spans Es). split; [done|].
    exists (store.SpanID s). by apply Hrow.
  - unfold getSpansByTraceID in Es. by rewrite Hfs in Es.
Qed.

(** A new trace with one span, stored in an empty database and read back. *)
Lemma InsertTrace_GetTraceByID_round_trip_witness :
  (@InsertTrace scenario.no_faults ∅ (duckdb.migrated 0)
     scenario.later_batch).2 = Success tt
  ∧ ∃ spans,
      @GetTraceByID scenario.no_faults
        (@InsertTrace scenario.no_faults ∅ (duckdb.migrated 0)
           scenario.later_batch).1 (store.TraceID scenario.later_batch)
      = Success (stored_trace_row
                   (duckdb.current_timestamp (duckdb.migrated 0))
                   (traceValues ∅ scenario.later_batch), spans)
      ∧ ∀ s, s ∈ store.Spans scenario.later_batch →
             store.SpanTraceID s = store.TraceID scenario.later_batch →
             duckdb.spans (duckdb.migrated 0) !! store.SpanID s = None →
             stored_span_row (duckdb.current_timestamp (duckdb.migrated 0))
               (spanValues ∅ s) ∈ spans.
Proof.
  split; [reflexivity|].
  apply (@InsertTrace_GetTraceByID_round_trip scenario.no_faults ∅
           (duckdb.migrated 0) scenario.later_batch);
    [reflexivity|reflexivity|apply NoDup_singleton|reflexivity|reflexivity].
Defined.

(** ** The comparison endpoint *)

Lemma foldl_least {A} (g : A → Z) (rows : list A) : ∀ m,
  let r := foldl (λ m t, if bool_decide (g t < m) then g t else m) m rows in
  (r = m ∨ r ∈ map g rows) ∧ r ≤ m ∧ Forall (λ t, r ≤ g t) rows.
Proof.
  induction rows as [|t rows IH]; intros m; cbn.
  - split; [by left|]. split; [lia|constructor].
  - match goal with |- context [foldl _ ?m' rows] => specialize (IH m') end.
    cbn zeta in IH. destruct IH as (Hin & Hle & Hall).
    case_bool_decide as E.
    + split; [right; destruct Hin as [->|Hin]; [by left|by right]|].
      split; [lia|]. constructor; [lia|done].
    + split; [destruct Hin as [Hin|Hin]; [by left|right; by right]|].
      split; [lia|]. constructor; [lia|done].
Qed.

Lemma foldl_greatest {A} (g : A → Z) (rows : list A) : ∀ m,
  let r := foldl (λ m t, if bool_decide (m < g t) then g t else m) m rows in
  (r = m ∨ r ∈ map g rows) ∧ m ≤ r ∧ Forall (λ t, g t ≤ r) rows.
Proof.
  induction rows as [|t rows IH]; intros m; cbn.
  - split; [by left|]. split; [lia|constructor].
  - match goal with |- context [foldl _ ?m' rows] => specialize (IH m') end.
    cbn zeta in IH. destruct IH as (Hin & Hle & Hall).
    case_bool_decide as E.
    + split; [right; destruct Hin as [->|Hin]; [by left|by right]|].
      split; [lia|]. constructor; [lia|done].
    + split; [destruct Hin as [Hin|Hin]; [by left|right; by right]|].
      split; [lia|]. constructor; [lia|done].
Qed.

Lemma foldl_least_of {A} (g : A → Z) (first : A) (rest : list A) :
  least_of g
    (foldl (λ m t, if bool_decide (g t < m) then g t else m) (g first)
       (first :: rest))
    (first :: rest).
Proof.
  destruct (foldl_least g (first :: rest) (g first)) as ([E|Hin] & _ & Hall).
  - split; [|done]. rewrite E. by left.
  - by split.
Qed.

Lemma foldl_greatest_of {A} (g : A → Z) (first : A) (rest : list A) :
  greatest_of g
    (foldl (λ m t, if bool_decide (m < g t) then g t else m) (g first)
       (first :: rest))
    (first :: rest).
Proof.
  destruct (foldl_greatest g (first :: rest) (g first)) as ([E|Hin] & _ & Hall).
  - split; [|done]. rewrite E. by left.
  - by split.
Qed.

Lemma compareTracesStats_fields
    (traces : list (TracesT.Row * list SpansT.Row)) (c : handlers.Comparison) :
  handlers.compareTracesStats traces = Some c →
  traces ≠ []
  ∧ handlers.count c = Z.of_nat (length traces)
  ∧ least_of TracesT.duration_ms (handlers.duration_min c) traces.*1
  ∧ greatest_of TracesT.duration_ms (handlers.duration_max c) traces.*1
  ∧ least_of TracesT.span_count (handlers.span_count_min c) traces.*1
  ∧ greatest_of TracesT.span_count (handlers.span_count_max c) traces.*1
  ∧ handlers.duration_avg c
    = foldl (λ s t, Go.int64 (s + TracesT.duration_ms t)) 0 traces.*1
      `quot` Z.of_nat (length traces)
  ∧ handlers.total_errors c
    = foldl (λ s t, Go.int64 (s + TracesT.error_count t)) 0 traces.*1.
Proof.
  destruct traces as [|[first spans] rest]; [done|].
  cbn [handlers.compareTracesStats]. intros [= <-].
  cbn [handlers.count handlers.duration_min handlers.duration_max
       handlers.span_count_min handlers.span_count_max handlers.duration_avg
       handlers.total_errors].
  split; [done|]. split; [done|].
  change (((first, spans) :: rest).*1) with (first :: rest.*1).
  split; [apply (foldl_least_of TracesT.duration_ms)|].
  split; [apply (foldl_greatest_of TracesT.duration_ms)|].
  split; [apply (foldl_least_of TracesT.span_count)|].
  split; [apply (foldl_greatest_of TracesT.span_count)|].
  done.
Qed.

(** X21.  The statistics of compareTracesStats are absent exactly for an
    empty list of traces; otherwise count is the number of traces, and the
    minimum and maximum of the durations and of the span counts are values
    of some trace of the list that bound the values of all of them. *)
Theorem compareTracesStats_extremes
    (traces : list (TracesT.Row * list SpansT.Row)) :
  match handlers.compareTracesStats traces with
  | None => traces = []
  | Some c =>
      traces ≠ []
      ∧ handlers.count c = Z.of_nat (length traces)
      ∧ least_of TracesT.duration_ms (handlers.duration_min c) traces.*1
      ∧ greatest_of TracesT.duration_ms (handlers.duration_max c) traces.*1
      ∧ least_of TracesT.span_count (handlers.span_count_min c) traces.*1
      ∧ greatest_of TracesT.span_count (handlers.span_count_max c) traces.*1
  end.
Proof.
  destruct (handlers.compareTracesStats traces) as [c|] eqn:E.
  - destruct (compareTracesStats_fields traces c E)
      as (H1 & H2 & H3 & H4 & H5 & H6 & _).
    exact (conj H1 (conj H2 (conj H3 (conj H4 (conj H5 H6))))).
  - by destruct traces as [|[first spans] rest].
Qed.

Lemma foldl_int64_sum {A} (g : A → Z) (rows : list A) : ∀ acc,
  0 ≤ acc → Forall (λ t, 0 ≤ g t) rows →
  acc + Zsum (map g rows) < 2^63 →
  foldl (λ s t, Go.int64 (s + g t)) acc rows = acc + Zsum (map g rows).
Proof.
  unfold Zsum.
  induction rows as [|t rows IH]; intros acc Hacc Hpos Hlt;
    cbn [foldl map foldr] in *.
  - lia.
  - apply Forall_cons in Hpos as [Ht Hpos].
    assert (0 ≤ foldr Z.add 0 (map g rows)).
    { clear -Hpos. induction Hpos; cbn [map foldr]; lia. }
    rewrite int64_small by lia.
    rewrite IH; [lia|lia|done|lia].
Qed.

Lemma Zsum_bounds {A} (g : A → Z) (lo hi : Z) (rows : list A) :
  Forall (λ t, lo ≤ g t) rows → Forall (λ t, g t ≤ hi) rows →
  lo * Z.of_nat (length rows) ≤ Zsum (map g rows) ≤ hi * Z.of_nat (length rows).
Proof.
  unfold Zsum.
  induction rows as [|t rows IH]; intros Hlo Hhi; cbn [length map foldr].
  - lia.
  - apply Forall_cons in Hlo as [? Hlo]. apply Forall_cons in Hhi as [? Hhi].
    specialize (IH Hlo Hhi). lia.
Qed.

(** X22.  As long as no duration is negative and the durations add up to
    less than 2^63, the average duration of compareTracesStats is the sum
    of the durations divided by their number, and it lies between the
    minimum and the maximum reported; under the same conditions on the
    error counts, total_errors is their sum. *)
Theorem compareTracesStats_average_between_extremes
    (traces : list (TracesT.Row * list SpansT.Row)) (c : handlers.Comparison) :
  handlers.compareTracesStats traces = Some c →
  Forall (λ t, 0 ≤ TracesT.duration_ms t) traces.*1 →
  Zsum (map TracesT.duration_ms traces.*1) < 2^63 →
  handlers.duration_avg c
  = Zsum (map TracesT.duration_ms traces.*1) `div` Z.of_nat (length traces)
  ∧ handlers.duration_min c ≤ handlers.duration_avg c
    ≤ handlers.duration_max c
  ∧ (Forall (λ t, 0 ≤ TracesT.error_count t) traces.*1 →
     Zsum (map TracesT.error_count traces.*1) < 2^63 →
     handlers.total_errors c = Zsum (map TracesT.error_count traces.*1)).
Proof.
  intros Hc Hpos Hsum.
  destruct (compareTracesStats_fields traces c Hc)
    as (Hne & _ & [_ Hmin] & [_ Hmax] & _ & _ & Havg & Herr).
  assert (Hn : 0 < Z.of_nat (length traces)) by (destruct traces; [done|cbn; lia]).
  rewrite foldl_int64_sum in Havg by (done || lia). rewrite Z.add_0_l in Havg.
  assert (H0 : 0 ≤ Zsum (map TracesT.duration_ms traces.*1)).
  { clear -Hpos. unfold Zsum. induction Hpos; cbn [map foldr]; lia. }
  rewrite Z.quot_div_nonneg in Havg by lia.
  split; [done|]. split.
  - pose proof (Zsum_bounds TracesT.duration_ms (handlers.duration_min c)
                  (handlers.duration_max c) traces.*1 Hmin Hmax) as Hb.
    rewrite length_fmap in Hb. rewrite Havg. split.
    + apply Z.div_le_lower_bound; lia.
    + apply Z.div_le_upper_bound; lia.
  - intros Hpos' Hsum'. rewrite Herr.
    rewrite foldl_int64_sum by (done || lia). lia.
Qed.

(** Traces of 100 ms and 500 ms. *)
Lemma compareTracesStats_average_between_extremes_witness :
  ∃ c, handlers.compareTracesStats
         [(scenario.stored_trace, []);
          (traceValues ∅ scenario.later_batch, [])] = Some c
       ∧ handlers.duration_avg c = (100 + (500 + 0)) `div` 2
       ∧ handlers.duration_min c ≤ handlers.duration_avg c
         ≤ handlers.duration_max c.
Proof.
  eexists. split; [reflexivity|].
  refine (let H := compareTracesStats_average_between_extremes
            [(scenario.stored_trace, []);
             (traceValues ∅ scenario.later_batch, [])] _ eq_refl _ _ in
          conj (proj1 H) (proj1 (proj2 H))).
  - repeat constructor; by vm_compute.
  - by vm_compute.
Defined.

Lemma fetchTraces_all_found `{Engine} d ids :
  (∀ s, fault s = None) →
  Forall (λ id, is_Some (duckdb.traces d !! id)) ids →
  ∃ traces,
    handlers.fetchTraces d ids = (Success traces, None, ids)
    ∧ Forall2 (λ id t, duckdb.traces d !! id = Some t.1
                       ∧ getSpansByTraceID d id = Success t.2) ids traces.
Proof.
  intros Hnf Hall. induction Hall as [|id ids [t Ht] Hall IH].
  - exists []. by split.
  - destruct IH as (traces & Ef & HF).
    cbn [handlers.fetchTraces]. unfold GetTraceByID, getSpansByTraceID.
    rewrite !Hnf, Ht, Ef. eexists (_ :: traces). split; [done|].
    constructor; [|done]. cbn. split; [done|].
    unfold getSpansByTraceID. by rewrite Hnf.
Qed.

Lemma fetchTraces_first_missing `{Engine} d pre id post :
  (∀ s, fault s = None) →
  Forall (λ id, is_Some (duckdb.traces d !! id)) pre →
  duckdb.traces d !! id = None →
  handlers.fetchTraces d (pre ++ id :: post)
  = (Failure "trace not found", Some id, pre ++ [id]).
Proof.
  intros Hnf Hall Hnone. induction Hall as [|id' pre [t Ht] Hall IH].
  - cbn. unfold GetTraceByID. by rewrite Hnf, Hnone.
  - cbn [app handlers.fetchTraces]. unfold GetTraceByID, getSpansByTraceID.
    by rewrite !Hnf, Ht, IH.
Qed.

(** X23.  With a healthy engine and two to four requested ids,
    CompareTraces answers 200 when every id is stored, with the traces in
    request order (an id requested twice appears twice), their statistics
    and one store lookup per id; otherwise it answers 404 naming the first
    requested id that is not stored, and stops looking up ids there. *)
Theorem CompareTraces_found_or_first_missing `{Engine}
    (d : duckdb.DB) (ids : list string) :
  (∀ s, fault s = None) →
  (2 ≤ length ids ≤ 4)%nat →
  (Forall (λ id, is_Some (duckdb.traces d !! id)) ids →
   ∃ traces c,
     handlers.CompareTraces d (handlers.Json (Some ids))
     = ({| handlers.status := handlers.StatusOK;
           handlers.payload := handlers.CompareBody traces (Some c) |}, ids)
     ∧ Forall2 (λ id t, duckdb.traces d !! id = Some t.1) ids traces
     ∧ handlers.count c = Z.of_nat (length ids))
  ∧ (∀ pre id post,
       ids = pre ++ id :: post →
       Forall (λ id, is_Some (duckdb.traces d !! id)) pre →
       duckdb.traces d !! id = None →
       handlers.CompareTraces d (handlers.Json (Some ids))
       = ({| handlers.status := handlers.StatusNotFound;
             handlers.payload :=
               handlers.ErrorBody "One or more traces not found" (Some id) |},
          pre ++ [id])).
Proof.
  intros Hnf Hlen.
  assert (Hbind : handlers.ShouldBindJSON (handlers.Json (Some ids))
                  = Success ids).
  { cbn. by rewrite !bool_decide_false by lia. }
  split.
  - intros Hall. destruct (fetchTraces_all_found d ids Hnf Hall)
      as (traces & Ef & HF).
    unfold handlers.CompareTraces. rewrite Hbind.
    rewrite bool_decide_false by lia. rewrite Ef.
    destruct (handlers.compareTracesStats traces) as [c|] eqn:Ec.
    + exists traces, c. split; [done|]. split.
      * eapply Forall2_impl; [exact HF|]. by intros id t [? _].
      * destruct (compareTracesStats_fields traces c Ec) as (_ & -> & _).
        f_equal. symmetry. by eapply Forall2_length.
    + destruct traces; [|by destruct p].
      apply Forall2_length in HF. cbn in HF. lia.
  - intros pre id post -> Hall Hnone.
    unfold handlers.CompareTraces. rewrite Hbind.
    rewrite bool_decide_false by lia.
    by rewrite (fetchTraces_first_missing d pre id post Hnf Hall Hnone).
Qed.

(** The stored trace requested together with one that is not stored. *)
Lemma CompareTraces_found_or_first_missing_witness :
  @handlers.CompareTraces scenario.no_faults scenario.one_trace
    (handlers.Json (Some (["0102"] ++ "ffff" :: ["0102"])))
  = ({| handlers.status := handlers.StatusNotFound;
        handlers.payload :=
          handlers.ErrorBody "One or more traces not found" (Some "ffff") |},
     ["0102"] ++ ["ffff"]).
Proof.
  refine (proj2 (@CompareTraces_found_or_first_missing scenario.no_faults
            scenario.one_trace (["0102"] ++ "ffff" :: ["0102"]) _ _)
            ["0102"] "ffff" ["0102"] eq_refl _ eq_refl).
  - reflexivity.
  - cbn. lia.
  - repeat constructor. by eexists.
Defined.

(** X24.  CompareTraces answers with 200, 400 or 404 and nothing else,
    whatever the request and the engine: 400 exactly when the body does
    not bind (not JSON, no trace_ids, fewer than two or more than four),
    and then the store is not consulted; a failure of any lookup, an engine
    fault included, is answered with 404 and the id whose lookup failed,
    which is the last id looked up. *)
Theorem CompareTraces_status_codes `{Engine}
    (d : duckdb.DB) (body : handlers.RequestBody) :
  let resp := (handlers.CompareTraces d body).1 in
  let calls := (handlers.CompareTraces d body).2 in
  match handlers.ShouldBindJSON body with
  | Failure _ =>
      handlers.status resp = handlers.StatusBadRequest ∧ calls = []
  | Success ids =>
      (2 ≤ length ids ≤ 4)%nat
      ∧ ((handlers.status resp = handlers.StatusOK ∧ calls = ids
          ∧ ∃ traces, handlers.payload resp
                      = handlers.CompareBody traces
                          (handlers.compareTracesStats traces)
                      ∧ Forall2 (λ id t, GetTraceByID d id = Success t)
                          ids traces)
         ∨ (handlers.status resp = handlers.StatusNotFound
            ∧ ∃ id err msg,
                last calls = Some id
                ∧ GetTraceByID d id = Failure err
                ∧ handlers.payload resp = handlers.ErrorBody msg (Some id)))
  end.
Proof.
  cbn zeta. unfold handlers.CompareTraces.
  destruct (handlers.ShouldBindJSON body) as [ids|err] eqn:Eb; [|done].
  assert (Hlen : (2 ≤ length ids ≤ 4)%nat).
  { destruct body as [|[l|]]; cbn in Eb; try done.
    repeat case_bool_decide; try done. injection Eb as <-. lia. }
  rewrite bool_decide_false by lia. split; [done|].
  clear Eb Hlen. induction ids as [|id ids IH].
  - left. cbn. repeat split. exists []. by split.
  - cbn [handlers.fetchTraces].
    destruct (GetTraceByID d id) as [t|err] eqn:Et.
    + destruct (handlers.fetchTraces d ids) as [[[traces|err] failed] calls].
      * left. destruct IH as [(_ & Hc & traces' & Hp & HF)|[Hs _]]; [|done].
        cbn in *. subst calls. injection Hp as ->.
        repeat split. exists (t :: traces'). split; [done|].
        by constructor.
      * right. destruct IH as [[Hs _]|(_ & id' & err' & msg & Hl & Hg & Hp)];
          [done|].
        cbn in *. split; [done|]. exists id', err', msg.
        split; [|done]. destruct calls; [done|]. done.
    + right. cbn. split; [done|].
      by exists id, err, "One or more traces not found".
Qed.

(** ** Metric aggregation *)














(** ** The receiver's trace pipeline *)

Lemma processTracesLoop_stored `{Engine} h traces : ∀ d,
  duckdb.logs (processTracesLoop h d traces).1 = duckdb.logs d
  ∧ duckdb.metrics (processTracesLoop h d traces).1 = duckdb.metrics d
  ∧ (∀ id old, duckdb.spans d !! id = Some old →
       duckdb.spans (processTracesLoop h d traces).1 !! id = Some old)
  ∧ ∃ stored,
      stored `prefix_of` traces
      ∧ (∀ id, is_Some (duckdb.traces (processTracesLoop h d traces).1 !! id)
               ↔ is_Some (duckdb.traces d !! id)
                 ∨ id ∈ store.TraceID <$> stored)
      ∧ (∀ t s, t ∈ stored → s ∈ store.Spans t →
           is_Some (duckdb.spans (processTracesLoop h d traces).1
                      !! store.SpanID s))
      ∧ match (processTracesLoop h d traces).2 with
        | Success _ => stored = traces
        | Failure _ =>
            ∃ t, (stored ++ [t]) `prefix_of` traces
                 ∧ (InsertTrace h (processTracesLoop h d stored).1 t).2
                   ≠ Success tt
        end.
Proof.
  induction traces as [|t rest IH]; intros d.
  - cbn. repeat split; try done. exists []. repeat split; try done.
    + intros Hs. by left.
    + intros [Hs|Hin]; [done|]. by apply elem_of_nil in Hin.
    + intros t s Ht. by apply elem_of_nil in Ht.
  - cbn [processTracesLoop].
    destruct (InsertTrace h d t) as [d1 [[]|err]] eqn:Ei.
    + assert (E2 : (InsertTrace h d t).2 = Success tt) by (by rewrite Ei).
      destruct (InsertTrace_Success h d t E2)
        as (_ & _ & _ & _ & _ & Ht & Hl & Hm & _ & _ & Hfr & Hin & _ & _).
      rewrite Ei in Ht, Hl, Hm, Hfr, Hin. cbn [fst] in *.
      destruct (IH d1) as (Hl' & Hm' & Hfr' & stored & Hp & Hids & Hsp & Hres).
      split; [congruence|]. split; [congruence|].
      split; [intros id old Ho; by apply Hfr', Hfr|].
      exists (t :: stored). split; [by apply prefix_cons|]. split; [|split].
      * intros id. rewrite Hids, Ht, lookup_insert_is_Some.
        cbn [fmap list_fmap]. rewrite elem_of_cons.
        destruct (decide (store.TraceID t = id)) as [->|Hne].
        -- split; [intros _; right; by left|intros _; left; by left].
        -- split.
           ++ intros [[?|[_ ?]]|?]; [done|by left|right; by right].
           ++ intros [?|[?|?]]; [left; by right|congruence|by right].
      * intros t' s [->|Ht']%elem_of_cons Hs; [|by eapply Hsp].
        destruct (Hin s Hs) as [row Hrow]. exists row. by apply Hfr'.
      * cbn [processTracesLoop]. rewrite Ei.
        destruct (processTracesLoop h d1 rest).2; [by subst|].
        destruct Hres as (t' & Hpre & Hfail). exists t'.
        split; [by apply prefix_cons|done].
    + assert (E2 : (InsertTrace h d t).2 = Failure err) by (by rewrite Ei).
      destruct (InsertTrace_Failure h d t err E2) as (Ht & Hs & Hl & Hm).
      rewrite Ei in Ht, Hs, Hl, Hm. cbn [fst snd] in *.
      split; [done|]. split; [done|].
      split; [intros id old Ho; by rewrite Hs|].
      exists []. split; [apply prefix_nil|]. split; [|split].
      * intros id. rewrite Ht. split; [by left|].
        intros [Hs'|Hin]; [done|]. by apply elem_of_nil in Hin.
      * intros t' s Ht'. by apply elem_of_nil in Ht'.
      * exists t. split; [apply prefix_cons, prefix_nil|].
        cbn. by rewrite E2.
Qed.

(** X27.  processTraces never panics.  It stores the traces that
    TransformTraces emits one by one, each in its own transaction, and stops
    at the first that fails: the traces before it stay stored (their ids
    have a row and their spans too), the failing trace and those after it
    leave nothing behind, spans stored earlier are kept, and logs and
    metrics are never touched. *)
Theorem processTraces_stores_traces_before_failure `{Engine}
    (d : duckdb.DB) (td : ptrace.Traces) (h : Heap) :
  ∃ traces h' d' res stored,
    TransformTraces td h = Ok traces h'
    ∧ processTraces d td h = Ok (d', res) h'
    ∧ stored `prefix_of` traces
    ∧ duckdb.logs d' = duckdb.logs d
    ∧ duckdb.metrics d' = duckdb.metrics d
    ∧ (∀ id old, duckdb.spans d !! id = Some old →
                 duckdb.spans d' !! id = Some old)
    ∧ (∀ id, is_Some (duckdb.traces d' !! id)
             ↔ is_Some (duckdb.traces d !! id) ∨ id ∈ store.TraceID <$> stored)
    ∧ (∀ t s, t ∈ stored → s ∈ store.Spans t →
              is_Some (duckdb.spans d' !! store.SpanID s))
    ∧ match res with
      | Success _ => stored = traces
      | Failure _ => ∃ t, (stored ++ [t]) `prefix_of` traces
      end.
Proof.
  destruct (TransformTraces_summarises td h) as (traces & h' & E & _).
  destruct (processTracesLoop_stored h' traces d)
    as (Hl & Hm & Hfr & stored & Hp & Hids & Hsp & Hres).
  exists traces, h', (processTracesLoop h' d traces).1,
    (processTracesLoop h' d traces).2, stored.
  split; [done|]. split.
  { unfold processTraces. rewrite (bind_Ok _ _ _ _ _ E).
    rewrite (bind_Ok get_heap _ h' h' h') by done.
    unfold mret, M_ret. by destruct (processTracesLoop h' d traces). }
  repeat split; try done; try apply Hids.
  destruct (processTracesLoop h' d traces).2; [done|].
  destruct Hres as (t & Hpre & _). by exists t.
Qed.

(** ** Further queries of the store *)

Lemma older_first_transitive : Transitive query.older_first.
Proof. unfold query.older_first. intros a b c. lia. Qed.

Lemma older_first_total : Total query.older_first.
Proof. unfold query.older_first. intros a b. lia. Qed.



Lemma name_le_total : Total query.name_le.
Proof. intros a b. apply String.leb_total. Qed.

Lemma GetLogsByTraceID_Success `{QueryEngine} d traceID rows :
  GetLogsByTraceID d traceID = Success rows →
  rows = merge_sort query.older_first
           (List.filter
              (λ r, match LogsT.trace_id r with
                    | Some t => bool_decide (t = traceID)
                    | None => false
                    end) (duckdb.logs d)).
Proof.
  unfold GetLogsByTraceID. destruct (query_fault _); [done|]. by intros [= <-].
Qed.

(** X28.  GetLogsByTraceID returns exactly the stored logs whose trace id
    is the requested one, oldest first; a log without a trace id is never
    returned.  For a non-empty id these are, up to order, the rows GetLogs
    returns when only the trace id filter is set and the page holds the
    whole table. *)
Theorem GetLogsByTraceID_returns_trace_logs `{QueryEngine} `{Engine}
    (d : duckdb.DB) (traceID : string) (rows : list LogsT.Row) :
  GetLogsByTraceID d traceID = Success rows →
  StronglySorted query.older_first rows
  ∧ (∀ r, r ∈ rows ↔ r ∈ duckdb.logs d ∧ LogsT.trace_id r = Some traceID)
  ∧ (∀ limit rows',
       traceID ≠ "" →
       Z.of_nat (length (duckdb.logs d)) ≤ limit →
       GetLogs d (with_page limit 0 (scenario.by_trace traceID))
       = Success rows' →
       rows' ≡ₚ rows).
Proof.
  intros ->%GetLogsByTraceID_Success. split; [|split].
  - apply (@StronglySorted_merge_sort _ query.older_first _
             older_first_transitive older_first_total).
  - intros r. rewrite merge_sort_Permutation, list_elem_of_In, filter_In.
    rewrite <- list_elem_of_In. apply and_iff_both; [done|].
    destruct (LogsT.trace_id r) as [t|]; [|done].
    rewrite bool_decide_eq_true. split; [by intros ->|by intros [= ->]].
  - intros limit rows' Hne Hlen (_ & _ & ->)%GetLogs_Success.
    cbn [with_page logs.Limit logs.Offset].
    rewrite paginate_all.
    2:{ rewrite select_logs_length. unfold sql.matching.
        etrans; [|exact Hlen]. apply inj_le, filter_length_le. }
    unfold select_logs, sql.matching. rewrite !merge_sort_Permutation.
    assert (Hw : GetLogs_where (with_page limit 0 (scenario.by_trace traceID))
                 = [duckdb.TraceIdEq traceID]).
    { unfold GetLogs_where. cbn.
      rewrite (bool_decide_true (traceID ≠ "")) by done.
      change (Go.IsZero Go.zeroTime) with true.
      rewrite (bool_decide_false ("" ≠ "")) by (by intros []).
      by rewrite (bool_decide_false (0 < 0)) by lia. }
    rewrite Hw. erewrite filter_ext; [done|].
    intros r. cbn. by rewrite andb_true_r.
Qed.

(** The logs of trace aaaa among two stored logs. *)
Lemma GetLogsByTraceID_returns_trace_logs_witness :
  @GetLogsByTraceID queries.no_faults scenario.two_traces_logs "aaaa"
  = Success [scenario.log_row 1 "aaaa"]
  ∧ ∀ r, r ∈ [scenario.log_row 1 "aaaa"]
         ↔ r ∈ duckdb.logs scenario.two_traces_logs
           ∧ LogsT.trace_id r = Some "aaaa".
Proof.
  split; [reflexivity|].
  exact (proj1 (proj2 (@GetLogsByTraceID_returns_trace_logs queries.no_faults
           scenario.no_faults scenario.two_traces_logs "aaaa"
           [scenario.log_row 1 "aaaa"] eq_refl))).
Defined.




(** X30.  GetServices returns every service name that some stored trace
    carries, each exactly once, in ascending order, and no other name. *)
Theorem GetServices_lists_each_service_once `{QueryEngine}
    (d : duckdb.DB) (services : list string) :
  GetServices d = Success services →
  NoDup services
  ∧ Sorted query.name_le services
  ∧ ∀ s, s ∈ services
         ↔ ∃ id r, duckdb.traces d !! id = Some r ∧ TracesT.service_name r = s.
Proof.
  unfold GetServices. destruct (query_fault _); [done|]. intros [= <-].
  split; [|split].
  - rewrite merge_sort_Permutation. apply NoDup_remove_dups.
  - apply (@Sorted_merge_sort _ query.name_le _ name_le_total).
  - intros s. rewrite merge_sort_Permutation, elem_of_remove_dups.
    rewrite list_elem_of_fmap. split.
    + intros (r & -> & ([id r'] & -> & Hr%elem_of_map_to_list)%list_elem_of_fmap).
      by exists id, r'.
    + intros (id & r & Hr & <-). exists r. split; [done|].
      apply list_elem_of_fmap. exists (id, r). split; [done|].
      by apply elem_of_map_to_list.
Qed.

(** The one service of the one stored trace. *)
Lemma GetServices_lists_each_service_once_witness :
  @GetServices queries.no_faults scenario.one_trace = Success ["svc1"]
  ∧ NoDup ["svc1"].
Proof.
  assert (E : @GetServices queries.no_faults scenario.one_trace
              = Success ["svc1"]) by (vm_compute; reflexivity).
  split; [exact E|].
  exact (proj1 (@GetServices_lists_each_service_once queries.no_faults
                  scenario.one_trace ["svc1"] E)).
Defined.
